(** * Task-orchestration core: progress store, job ledger, clone worker, repo cache

    A shallow embedding of the Python modules [progress.py], [job_registry.py],
    [clone_worker.py] and [repo_cache.py].

    Modelling conventions
    - A Python [str] is a [string], the sequence of bytes of its UTF-8
      encoding; a lone surrogate U+D800..U+DFFF, which a [str] may hold and
      UTF-8 cannot encode, is held as the three bytes ED A0..BF 80..BF, so
      that [str_encode] tells when [s.encode("utf-8")] raises.  The character
      classes used by the code ([str.isalnum], [str.lower], the regex classes
      [\s] and [\d]) are those of ASCII: they are the code's on a string of
      ASCII characters ([is_ascii]), and the statements that depend on them
      are made for such strings.
    - A Python [dict] with string keys is a [gmap string value].
    - The JSON files under [outputs/] are fields of the record [World]; reads
      and writes of these files succeed (the code swallows I/O failures, which
      are outside this model).  Every write to the progress store is also
      appended to a ghost log, and so is every spawned command.
    - What the code observes from outside (the clock, the child process, calls
      made by another execution context) is given as explicit arguments.
    - Exceptions are values of type [exn]; a computation that may raise
      returns a [result]. *)

From Stdlib Require Import ZArith List Ascii String QArith Sorted.
From stdpp Require Import gmap strings list fin_maps pretty.
Import ListNotations.
Local Open Scope string_scope.
Local Open Scope Z_scope.

(** ** Python string operations *)

Definition ascii_code (c : ascii) : Z := Z.of_N (N_of_ascii c).

(** an ASCII digit: the regex class [\d] on ASCII characters *)
Definition is_digit (c : ascii) : bool :=
  (48 <=? ascii_code c) && (ascii_code c <=? 57).

Definition is_upper (c : ascii) : bool :=
  (65 <=? ascii_code c) && (ascii_code c <=? 90).

Definition is_lower (c : ascii) : bool :=
  (97 <=? ascii_code c) && (ascii_code c <=? 122).

(** [c.isalnum()] for an ASCII character *)
Definition isalnum (c : ascii) : bool := is_digit c || is_upper c || is_lower c.

(** the regex class [\s] on ASCII characters *)
Definition is_space (c : ascii) : bool :=
  let n := ascii_code c in
  ((9 <=? n) && (n <=? 13)) || ((28 <=? n) && (n <=? 32)).

Definition lower_char (c : ascii) : ascii :=
  if is_upper c then ascii_of_N (N_of_ascii c + 32) else c.

(** [s.lower()] for a string of ASCII characters *)
Fixpoint lower (s : string) : string :=
  match s with
  | EmptyString => EmptyString
  | String c r => String (lower_char c) (lower r)
  end.

(** [s.startswith(p)] *)
Fixpoint startswith (p s : string) : bool :=
  match p, s with
  | EmptyString, _ => true
  | String a p', String b s' => if Ascii.eqb a b then startswith p' s' else false
  | String _ _, EmptyString => false
  end.

(** [sub in s] *)
Fixpoint contains (sub s : string) : bool :=
  startswith sub s ||
  match s with
  | EmptyString => false
  | String _ r => contains sub r
  end.

(** [s.rstrip(c)] for a one-character argument *)
Fixpoint rstrip (c : ascii) (s : string) : string :=
  match s with
  | EmptyString => EmptyString
  | String a r =>
      match rstrip c r with
      | EmptyString => if Ascii.eqb a c then EmptyString else String a EmptyString
      | r' => String a r'
      end
  end.

(** [s.split(c)] for a one-character separator: never the empty list *)
Fixpoint split (c : ascii) (s : string) : list string :=
  match s with
  | EmptyString => [EmptyString]
  | String a r =>
      if Ascii.eqb a c then EmptyString :: split c r
      else match split c r with
           | [] => [String a EmptyString]
           | h :: t => String a h :: t
           end
  end.

(** [s.endswith(suf)] *)
Definition endswith (suf s : string) : bool :=
  let n := String.length s in
  let k := String.length suf in
  (k <=? n)%nat && String.eqb (substring (n - k) k s) suf.

(** [s[:-k]] for a positive literal [k] *)
Definition drop_last (k : nat) (s : string) : string :=
  substring 0 (String.length s - k) s.

(** ["".join(c for c in s if keep(c))] *)
Fixpoint filter_chars (keep : ascii -> bool) (s : string) : string :=
  match s with
  | EmptyString => EmptyString
  | String a r => if keep a then String a (filter_chars keep r) else filter_chars keep r
  end.

(** [os.path.join(a, b)] on a POSIX host *)
Definition os_path_join (a b : string) : string :=
  if startswith "/" b then b
  else if String.eqb a "" || endswith "/" a then a ++ b
  else a ++ "/" ++ b.

(** the last path component of a clone URL, without a [.git] suffix:
    [url.rstrip("/").split("/")[-1]], then [name[:-4]] if it ends in [.git] *)
Definition repo_name_of (url : string) : string :=
  let name := List.last (split "/" (rstrip "/" url)) "" in
  if endswith ".git" name then drop_last 4 name else name.

(** ** SHA-1, as [hashlib.sha1(data).hexdigest()] *)

Definition mask32 (x : Z) : Z := x mod 2 ^ 32.

Definition rotl (n x : Z) : Z :=
  Z.lor (mask32 (Z.shiftl x n)) (Z.shiftr x (32 - n)).

Fixpoint be_bytes (n : nat) (x : Z) : list Z :=
  match n with
  | O => []
  | S n' => (Z.shiftr x (8 * Z.of_nat n')) mod 256 :: be_bytes n' x
  end.

Definition sha1_pad (m : list Z) : list Z :=
  let l := Z.of_nat (length m) in
  m ++ [128] ++ repeat 0 (Z.to_nat ((55 - l) mod 64)) ++ be_bytes 8 (8 * l).

Fixpoint be_words (fuel : nat) (bs : list Z) : list Z :=
  match fuel, bs with
  | S f, a :: b :: c :: d :: r =>
      (Z.shiftl a 24 + Z.shiftl b 16 + Z.shiftl c 8 + d) :: be_words f r
  | _, _ => []
  end.

Fixpoint chunks16 (fuel : nat) (ws : list Z) : list (list Z) :=
  match fuel with
  | O => []
  | S f => match ws with
           | [] => []
           | _ => firstn 16 ws :: chunks16 f (skipn 16 ws)
           end
  end.

Definition wd (ws : list Z) (t : nat) : Z := nth t ws 0.

Fixpoint sha1_schedule (n : nat) (ws : list Z) : list Z :=
  match n with
  | O => ws
  | S n' =>
      let t := length ws in
      let x := Z.lxor (Z.lxor (wd ws (t - 3)) (wd ws (t - 8)))
                      (Z.lxor (wd ws (t - 14)) (wd ws (t - 16))) in
      sha1_schedule n' (ws ++ [rotl 1 x])
  end.

Definition sha1_state : Type := Z * Z * Z * Z * Z.

Definition sha1_round (st : sha1_state) (tw : nat * Z) : sha1_state :=
  let '(a, b, c, d, e) := st in
  let '(t, w) := tw in
  let not_b := Z.lxor b (2 ^ 32 - 1) in
  let '(f, k) :=
    if (t <? 20)%nat then (Z.lor (Z.land b c) (Z.land not_b d), 1518500249)
    else if (t <? 40)%nat then (Z.lxor (Z.lxor b c) d, 1859775393)
    else if (t <? 60)%nat
         then (Z.lor (Z.lor (Z.land b c) (Z.land b d)) (Z.land c d), 2400959708)
    else (Z.lxor (Z.lxor b c) d, 3395469782) in
  (mask32 (rotl 5 a + f + e + k + w), a, rotl 30 b, c, d).

Definition sha1_block (h : sha1_state) (blk : list Z) : sha1_state :=
  let ws := sha1_schedule 64 blk in
  let '(a, b, c, d, e) := fold_left sha1_round (combine (seq 0 80) ws) h in
  let '(h0, h1, h2, h3, h4) := h in
  (mask32 (h0 + a), mask32 (h1 + b), mask32 (h2 + c), mask32 (h3 + d), mask32 (h4 + e)).

Definition sha1_init : sha1_state :=
  (1732584193, 4023233417, 2562383102, 271733878, 3285377520).

Definition bytes_of_string (s : string) : list Z :=
  List.map ascii_code (list_ascii_of_string s).

Definition sha1 (data : list Z) : sha1_state :=
  let bs := sha1_pad data in
  let ws := be_words (length bs) bs in
  fold_left sha1_block (chunks16 (length ws) ws) sha1_init.

Definition hex_digit (n : Z) : ascii :=
  ascii_of_N (Z.to_N (if n <? 10 then 48 + n else 87 + n)).

Fixpoint hex_of (digits : nat) (x : Z) : string :=
  match digits with
  | O => EmptyString
  | S d => String (hex_digit ((Z.shiftr x (4 * Z.of_nat d)) mod 16)) (hex_of d x)
  end.

Definition sha1_hexdigest (s : string) : string :=
  let '(h0, h1, h2, h3, h4) := sha1 (bytes_of_string s) in
  hex_of 8 h0 ++ hex_of 8 h1 ++ hex_of 8 h2 ++ hex_of 8 h3 ++ hex_of 8 h4.

(** ** Values and dictionaries *)

(** The JSON values that occur in progress records and job details. *)
Inductive value : Type :=
| VNone
| VBool (b : bool)
| VInt (n : Z)
| VStr (s : string)
| VList (l : list string).

(** Python truthiness *)
Definition truthy (v : value) : bool :=
  match v with
  | VNone => false
  | VBool b => b
  | VInt n => negb (n =? 0)
  | VStr s => negb (String.eqb s "")
  | VList l => match l with [] => false | _ => true end
  end.

(** [d.get(k)] *)
Definition py_get (d : gmap string value) (k : string) : value :=
  default VNone (d !! k).

(** [d.update(e)]: the entries of [e] win *)
Definition py_update (d e : gmap string value) : gmap string value := e ∪ d.

(** [if e: d.update(e)] *)
Definition py_update_if (d e : gmap string value) : gmap string value :=
  if bool_decide (e = ∅) then d else py_update d e.

(** [x or y] *)
Definition py_or (x y : value) : value := if truthy x then x else y.

(** ** Exceptions *)

Inductive exn : Type :=
| FileNotFoundError (msg : string)
| OtherException (msg : string).

(** [str(e)] *)
Definition exn_str (e : exn) : string :=
  match e with
  | FileNotFoundError m => m
  | OtherException m => m
  end.

Inductive result (A : Type) : Type :=
| Ok (a : A)
| Raise (e : exn).
Arguments Ok {A} a.
Arguments Raise {A} e.

(** ** Encoding a string *)

(** every character of [s] is an ASCII character *)
Definition is_ascii (s : string) : bool :=
  forallb (fun c => ascii_code c <? 128) (list_ascii_of_string s).

(** a byte 10xxxxxx, which continues a character *)
Definition is_continuation (c : ascii) : bool :=
  (128 <=? ascii_code c) && (ascii_code c <=? 191).

(** [s] starts with a surrogate: its code point, and what follows it *)
Definition surrogate_at (s : string) : option (Z * string) :=
  match s with
  | String a (String b (String c r)) =>
      if (ascii_code a =? 237) && (160 <=? ascii_code b) && (ascii_code b <=? 191)
         && is_continuation c
      then Some (53248 + (ascii_code b - 128) * 64 + (ascii_code c - 128), r)
      else None
  | _ => None
  end.

(** the first surrogate of [s]: its index among the characters, counted from
    [pos], its code point, and what follows it *)
Fixpoint find_surrogate (pos : Z) (s : string) : option (Z * Z * string) :=
  match surrogate_at s with
  | Some (cp, r) => Some (pos, cp, r)
  | None =>
      match s with
      | EmptyString => None
      | String a r => find_surrogate (if is_continuation a then pos else pos + 1) r
      end
  end.

(** the number of surrogates at the head of [s] *)
Fixpoint surrogate_run (fuel : nat) (s : string) : Z :=
  match fuel with
  | O => 0
  | S f => match surrogate_at s with
           | Some (_, r) => 1 + surrogate_run f r
           | None => 0
           end
  end.

(** [s.encode("utf-8")]: the bytes of [s], or the [UnicodeEncodeError] of the
    first run of surrogates *)
Definition str_encode (s : string) : result string :=
  match find_surrogate 0 s with
  | None => Ok s
  | Some (pos, cp, r) =>
      let n := surrogate_run (String.length r) r in
      Raise (OtherException
               (if n =? 0
                then "'utf-8' codec can't encode character '\u" ++ hex_of 4 cp
                     ++ "' in position " ++ pretty pos ++ ": surrogates not allowed"
                else "'utf-8' codec can't encode characters in position "
                     ++ pretty pos ++ "-" ++ pretty (pos + n)
                     ++ ": surrogates not allowed"))
  end.

(** ** The world: files, directories, processes *)

(** [datetime.now()] *)
Record datetime : Type := {
  dt_year : nat; dt_month : nat; dt_day : nat;
  dt_hour : nat; dt_minute : nat; dt_second : nat
}.

(** zero-padded decimal, as [%02d] and [%04d] *)
Definition zero_pad (width n : nat) : string :=
  let s : string := pretty n in
  string_of_list_ascii (repeat "0"%char (width - String.length s)) ++ s.

(** [d.isoformat(timespec="seconds")] *)
Definition isoformat (d : datetime) : string :=
  zero_pad 4 (dt_year d) ++ "-" ++ zero_pad 2 (dt_month d) ++ "-" ++ zero_pad 2 (dt_day d)
  ++ "T" ++ zero_pad 2 (dt_hour d) ++ ":" ++ zero_pad 2 (dt_minute d)
  ++ ":" ++ zero_pad 2 (dt_second d).

(** One entry of a job's history: [{"at": ..., "status": ...}] *)
Record HistoryEntry : Type := { h_at : string; h_status : string }.

(** One record of the ledger [outputs/jobs.json]. *)
Record Job : Type := {
  j_id : string;
  j_repo_url : string;
  j_status : string;
  j_agent : value;
  j_priority : value;
  j_date : string;
  j_created_at : string;
  j_updated_at : string;
  j_ended_at : string;
  j_details : gmap string value;
  j_history : list HistoryEntry
}.

Inductive node : Type := Dir | File.

Inductive signal : Type := SIGTERM | SIGKILL.

Record World : Type := {
  progress_files : gmap string (gmap string value); (* outputs/progress/*.json *)
  jobs_file : list Job;                             (* outputs/jobs.json *)
  fs : gmap string node;                            (* directories and files *)
  procs : gmap string nat;                          (* _PROCS: task id -> child *)
  progress_log : list (string * gmap string value); (* ghost: writes to the store *)
  spawn_log : list (list string);                   (* ghost: commands spawned *)
  signal_log : list (nat * signal)                  (* ghost: signals sent *)
}.

Definition with_progress (f : gmap string (gmap string value)) (w : World) : World :=
  {| progress_files := f; jobs_file := jobs_file w; fs := fs w; procs := procs w;
     progress_log := progress_log w; spawn_log := spawn_log w;
     signal_log := signal_log w |}.

Definition with_jobs (js : list Job) (w : World) : World :=
  {| progress_files := progress_files w; jobs_file := js; fs := fs w; procs := procs w;
     progress_log := progress_log w; spawn_log := spawn_log w;
     signal_log := signal_log w |}.

Definition with_fs (f : gmap string node) (w : World) : World :=
  {| progress_files := progress_files w; jobs_file := jobs_file w; fs := f;
     procs := procs w; progress_log := progress_log w; spawn_log := spawn_log w;
     signal_log := signal_log w |}.

Definition with_procs (p : gmap string nat) (w : World) : World :=
  {| progress_files := progress_files w; jobs_file := jobs_file w; fs := fs w;
     procs := p; progress_log := progress_log w; spawn_log := spawn_log w;
     signal_log := signal_log w |}.

Definition log_progress (e : string * gmap string value) (w : World) : World :=
  {| progress_files := progress_files w; jobs_file := jobs_file w; fs := fs w;
     procs := procs w; progress_log := progress_log w ++ [e];
     spawn_log := spawn_log w; signal_log := signal_log w |}.

Definition log_spawn (cmd : list string) (w : World) : World :=
  {| progress_files := progress_files w; jobs_file := jobs_file w; fs := fs w;
     procs := procs w; progress_log := progress_log w;
     spawn_log := spawn_log w ++ [cmd]; signal_log := signal_log w |}.

Definition send_signal (pid : nat) (sg : signal) (w : World) : World :=
  {| progress_files := progress_files w; jobs_file := jobs_file w; fs := fs w;
     procs := procs w; progress_log := progress_log w;
     spawn_log := spawn_log w; signal_log := signal_log w ++ [(pid, sg)] |}.

Definition empty_world : World :=
  {| progress_files := ∅; jobs_file := []; fs := ∅; procs := ∅;
     progress_log := []; spawn_log := []; signal_log := [] |}.

(** ** job_registry.py *)

(** [_now()] applied to the clock reading [d] *)
Definition _now (d : datetime) : string := isoformat d.

Definition _load (w : World) : list Job := jobs_file w.

Definition _save (data : list Job) (w : World) : World := with_jobs data w.

(** [create_job(task_id, repo_url)]; the four calls of [_now()] read
    [t_date], [t_created], [t_updated] and [t_hist]. *)
Definition create_job (task_id repo_url : string)
    (t_date t_created t_updated t_hist : datetime) (w : World) : World :=
  let jobs := _load w in
  let jobs := List.filter (fun j => negb (String.eqb (j_id j) task_id)) jobs in
  let jobs := (jobs ++ [
    {| j_id := task_id;
       j_repo_url := repo_url;
       j_status := "pending";
       j_agent := VStr "CodeAnalyzer";
       j_priority := VStr "medium";
       j_date := _now t_date;
       j_created_at := _now t_created;
       j_updated_at := _now t_updated;
       j_ended_at := "";
       j_details := {[ "stage" := VStr "start" ]};
       j_history := [ {| h_at := _now t_hist; h_status := "pending" |} ] |} ])%list in
  _save jobs w.

(** the table of [update_job]: status (lower case) to agent *)
Definition mapped_agent (status : string) : option string :=
  let s := lower status in
  if String.eqb s "completed" then Some "DocGenerator"
  else if String.eqb s "error" || String.eqb s "canceled" || String.eqb s "timeout"
       then Some "Supervisor"
  else if String.eqb s "pending" || String.eqb s "in_progress" then Some "CodeAnalyzer"
  else None.

Definition is_terminal (status : string) : bool :=
  String.eqb status "completed" || String.eqb status "canceled"
  || String.eqb status "error" || String.eqb status "timeout".

(** the body of the loop of [update_job], for the record [j] that matches *)
Definition update_record (status : string) (details : gmap string value)
    (t_updated t_hist t_ended : datetime) (j : Job) : Job :=
  (* j["status"] = status; if details: merge and lift agent and priority *)
  let d1 := if bool_decide (details = ∅) then j_details j
            else py_update (j_details j) details in
  let agent1 := match details !! "agent" with
                | Some a => a
                | None => j_agent j
                end in
  let priority1 := match details !! "priority" with
                   | Some p => p
                   | None => j_priority j
                   end in
  (* enforce the agent mapping by status *)
  let '(agent2, d2) :=
    match mapped_agent status with
    | Some a => (VStr a, <[ "agent" := VStr a ]> d1)
    | None => (agent1, d1)
    end in
  {| j_id := j_id j;
     j_repo_url := j_repo_url j;
     j_status := status;
     j_agent := agent2;
     j_priority := priority1;
     j_date := j_date j;
     j_created_at := j_created_at j;
     j_updated_at := _now t_updated;
     j_ended_at := if is_terminal status then _now t_ended else j_ended_at j;
     j_details := d2;
     j_history := j_history j ++ [ {| h_at := _now t_hist; h_status := status |} ] |}.

(** [for j in jobs: if j.get("id") == task_id: ...; break] *)
Fixpoint update_first (task_id : string) (f : Job -> Job) (jobs : list Job) : list Job :=
  match jobs with
  | [] => []
  | j :: rest =>
      if String.eqb (j_id j) task_id then f j :: rest
      else j :: update_first task_id f rest
  end.

(** [update_job(task_id, status, details)]; [details] is [∅] for [None]. *)
Definition update_job (task_id status : string) (details : gmap string value)
    (t_updated t_hist t_ended : datetime) (w : World) : World :=
  let jobs := _load w in
  _save (update_first task_id
           (update_record status details t_updated t_hist t_ended) jobs) w.

Definition get_jobs (w : World) : list Job := _load w.

(** the record of [task_id] in the ledger, as a reader sees it *)
Definition find_job (task_id : string) (w : World) : option Job :=
  List.find (fun j => String.eqb (j_id j) task_id) (get_jobs w).

(** ** progress.py *)

Definition BASE_DIR : string := os_path_join "outputs" "progress".

(** [_path(task_id)] *)
Definition _path (task_id : string) : string :=
  let safe := filter_chars
                (fun c => isalnum c || Ascii.eqb c "-" || Ascii.eqb c "_") task_id in
  let safe := if String.eqb safe "" then "default" else safe in
  os_path_join BASE_DIR (safe ++ ".json").

(** the table [stage_map] with its default 10, applied to [str(stage)]; the
    keys are looked up for a string stage, and [str] of any other value
    ([None], a number, a list) is none of the keys *)
Definition stage_percent (stage : value) : Z :=
  match stage with
  | VStr s =>
      if String.eqb s "validate" then 5
      else if String.eqb s "cache" then 15
      else if String.eqb s "clone" then 40
      else if String.eqb s "map" then 60
      else if String.eqb s "mapped" then 60
      else if String.eqb s "analyze" then 75
      else if String.eqb s "analyzed" then 80
      else if String.eqb s "docs" then 90
      else if String.eqb s "complete" then 100
      else 10
  | _ => 10
  end.

(** [out[k] = v] when [v] is truthy *)
Definition set_if_truthy (k : string) (v : value) (d : gmap string value)
    : gmap string value :=
  if truthy v then <[ k := v ]> d else d.

(** [_infer_from_jobs(task_id)] *)
Definition _infer_from_jobs (task_id : string) (w : World) : option (gmap string value) :=
  match List.find (fun j => String.eqb (j_id j) task_id) (get_jobs w) with
  | None => None
  | Some job =>
      let status := j_status job in
      let details := j_details job in
      let stage := py_get details "stage" in
      let msg := py_or (py_get details "message") (py_get details "note") in
      let doc_path := py_get details "doc_path" in
      let percent := stage_percent stage in
      let '(percent, status_out) :=
        if String.eqb status "completed" || String.eqb status "done"
        then (100, "done")
        else if String.eqb status "error" || String.eqb status "timeout"
        then (Z.max percent 100, status)
        else if String.eqb status "canceled" then (percent, "canceled")
        else (percent, "pending") in
      let out : gmap string value :=
        {[ "task_id" := VStr task_id; "status" := VStr status_out;
           "percent" := VInt percent ]} in
      Some (set_if_truthy "doc_path" doc_path
              (set_if_truthy "message" msg (set_if_truthy "stage" stage out)))
  end.

(** [get_progress(task_id)] *)
Definition get_progress (task_id : string) (w : World) : gmap string value :=
  match progress_files w !! _path task_id with
  | Some data => data
  | None =>
      match _infer_from_jobs task_id w with
      | Some inferred => inferred
      | None => {[ "task_id" := VStr task_id; "status" := VStr "unknown";
                   "percent" := VInt 0 ]}
      end
  end.

(** [json.dump(data, open(_path(task_id), "w"))] *)
Definition write_progress (task_id : string) (data : gmap string value) (w : World)
    : World :=
  log_progress (_path task_id, data)
    (with_progress (<[ _path task_id := data ]> (progress_files w)) w).

(** [set_progress(task_id, status, percent, extra)]; [extra] is [∅] for [None]. *)
Definition set_progress (task_id status : string) (percent : Z)
    (extra : gmap string value) (w : World) : World :=
  let data := get_progress task_id w in
  let data := py_update data
                {[ "task_id" := VStr task_id; "status" := VStr status;
                   "percent" := VInt (Z.max 0 (Z.min 100 percent)) ]} in
  let data := py_update_if data extra in
  write_progress task_id data w.

(** [set_canceled(task_id, message)] *)
Definition set_canceled (task_id message : string) (w : World) : World :=
  let data := get_progress task_id w in
  let data := py_update data
                {[ "status" := VStr "canceled";
                   "percent" := default (VInt 0) (data !! "percent");
                   "canceled" := VBool true ]} in
  let data := if String.eqb message "" then data
              else <[ "message" := VStr message ]> data in
  write_progress task_id data w.

(** [is_canceled(task_id)] *)
Definition is_canceled (task_id : string) (w : World) : bool :=
  truthy (py_get (get_progress task_id w) "canceled").

(** [clear_progress(task_id)] *)
Definition clear_progress (task_id : string) (w : World) : World :=
  with_progress (delete (_path task_id) (progress_files w)) w.

(** ** The outside of the program *)

(** What the child process does to the disk. *)
Inductive fs_op : Type :=
| Mkdir (p : string)
| Mkfile (p : string)
| Rmtree (p : string).

(** What another execution context calls while a loop runs. *)
Inductive ext_call : Type :=
| ExtSetCanceled (task_id message : string)
| ExtCancelClone (task_id : string).

(** What one iteration of a supervising loop observes. *)
Record iter_obs : Type := {
  ob_now : Q;                  (* time.time() *)
  ob_readline : result string; (* proc.stderr.readline() *)
  ob_poll : option Z;          (* proc.poll() *)
  ob_child_fs : list fs_op;    (* written by the child while readline blocks *)
  ob_others : list ext_call;   (* called by others while readline blocks *)
  ob_read_end : Q              (* the clock when readline returns; the code
                                  does not read it there *)
}.

(** What one call of a clone function observes.  When [env_iters] is used up
    and the loop has not ended, the call is still running. *)
Record Env : Type := {
  env_gettempdir : result string;        (* the directory tempfile.mkdtemp() uses *)
  env_tempname : string;                 (* the random part of the new name *)
  env_which_git : bool;                  (* shutil.which("git") is not None *)
  env_popen : result nat;                (* subprocess.Popen(cmd, ...) *)
  env_start : Q;                         (* time.time() after the spawn *)
  env_has_stderr : bool;                 (* proc.stderr is not None *)
  env_iters : list iter_obs;
  env_wait : result Z;                   (* proc.wait(timeout=5) *)
  env_communicate : result (list string) (* the lines of proc.communicate()[1] *)
}.

(** the result of a call *)
Inductive outcome : Type :=
| Returns (v : string)
| Raises (e : exn)
| Running.

(** how a supervising loop is left *)
Inductive loop_exit : Type :=
| LReturn (v : string)
| LBreak
| LRaise (e : exn)
| LRunning.

(** [k] is [p] or lies below [p] *)
Definition under (p k : string) : bool :=
  String.eqb k p || startswith (p ++ "/") k.

(** [shutil.rmtree(p, ignore_errors=True)] *)
Definition rmtree (p : string) (f : gmap string node) : gmap string node :=
  match f !! p with
  | Some Dir => filter (fun kv => under p kv.1 = false) f
  | _ => f
  end.

Definition apply_fs_op (f : gmap string node) (op : fs_op) : gmap string node :=
  match op with
  | Mkdir p => match f !! p with None => <[ p := Dir ]> f | Some _ => f end
  | Mkfile p => match f !! p with Some Dir => f | _ => <[ p := File ]> f end
  | Rmtree p => filter (fun kv => under p kv.1 = false) f
  end.

Definition child_writes (ops : list fs_op) (w : World) : World :=
  with_fs (fold_left apply_fs_op ops (fs w)) w.

(** [(time.time() - start) > max_seconds] *)
Definition timed_out (start now : Q) (max_seconds : Z) : bool :=
  negb (Qle_bool (now - start) (inject_Z max_seconds)).

(** [try: proc.terminate() ...; try: proc.kill() ...] *)
Definition terminate_and_kill (pid : nat) (w : World) : World :=
  send_signal pid SIGKILL (send_signal pid SIGTERM w).

(** ** clone_worker.py *)

Fixpoint drop_while (f : ascii -> bool) (s : string) : string :=
  match s with
  | EmptyString => EmptyString
  | String a r => if f a then drop_while f r else s
  end.

Fixpoint take_while (f : ascii -> bool) (s : string) : string :=
  match s with
  | EmptyString => EmptyString
  | String a r => if f a then String a (take_while f r) else EmptyString
  end.

Fixpoint drop_chars (n : nat) (s : string) : string :=
  match n, s with
  | S n', String _ r => drop_chars n' r
  | _, _ => s
  end.

(** a match of [<label>\s+(\d+)%] at the start of [s]: the digits of group 1 *)
Definition match_here (label s : string) : option string :=
  if startswith label s then
    let r := drop_chars (String.length label) s in
    let r1 := drop_while is_space r in
    let ds := take_while is_digit r1 in
    if (String.length r1 <? String.length r)%nat
       && negb (String.eqb ds "")
       && startswith "%" (drop_while is_digit r1)
    then Some ds else None
  else None.

(** [rx.search(line)] for [rx = re.compile(r"<label>\s+(\d+)%")] *)
Fixpoint search (label line : string) : option string :=
  match match_here label line with
  | Some ds => Some ds
  | None =>
      match line with
      | EmptyString => None
      | String _ r => search label r
      end
  end.

Definition RECV : string := "Receiving objects:".
Definition RESV : string := "Resolving deltas:".
Definition CHK : string := "Checking out files:".

(** the default of [sys.get_int_max_str_digits()] *)
Definition INT_MAX_STR_DIGITS : nat := 4300.

(** [int(ds)] for a run of decimal digits; too long a run raises, which
    [_parse_progress] turns into [None] *)
Definition int_of_digits (ds : string) : option Z :=
  if (INT_MAX_STR_DIGITS <? String.length ds)%nat then None
  else Some (fold_left (fun acc c => 10 * acc + (ascii_code c - 48))
                       (list_ascii_of_string ds) 0).

(** [_parse_progress(line)] *)
Definition _parse_progress (line : string) : option Z :=
  match search RECV line with
  | Some ds => int_of_digits ds
  | None =>
      match search RESV line with
      | Some ds => int_of_digits ds
      | None =>
          match search CHK line with
          | Some ds => int_of_digits ds
          | None => None
          end
      end
  end.

(** the least integer whose conversion to a float overflows *)
Definition FLOAT_OVERFLOW : Z := 2 ^ 1024 - 2 ^ 970.

(** [20 + int(0.6 * p)] for [0 <= p].  The double product truncates to
    [3 * p / 5] for every [p] below 134; from 134 on both are at least 80,
    so that the sum is published as 100 by [set_progress] either way. *)
Definition mapped_percent (p : Z) : result Z :=
  if FLOAT_OVERFLOW <=? p
  then Raise (OtherException "int too large to convert to float")
  else Ok (20 + 3 * p / 5).

(** [cancel_clone(task_id)] *)
Definition cancel_clone (task_id : string) (w : World) : bool * World :=
  match procs w !! task_id with
  | None => (false, set_canceled task_id "No running process" w)
  | Some pid =>
      let w := terminate_and_kill pid w in
      let w := set_canceled task_id "Canceled by user" w in
      (true, with_procs (delete task_id (procs w)) w)
  end.

Definition run_ext_call (w : World) (c : ext_call) : World :=
  match c with
  | ExtSetCanceled task_id message => set_canceled task_id message w
  | ExtCancelClone task_id => snd (cancel_clone task_id w)
  end.

(** what happens around the program while [readline] blocks *)
Definition meanwhile (ob : iter_obs) (w : World) : World :=
  fold_left run_ext_call (ob_others ob) (child_writes (ob_child_fs ob) w).

(** the [while True] loop of [interruptible_clone] *)
Fixpoint clone_loop (task_id : string) (pid : nat) (has_stderr : bool) (start : Q)
    (max_seconds : Z) (obs : list iter_obs) (w : World) : loop_exit * World :=
  if is_canceled task_id w then
    (LReturn "", terminate_and_kill pid (set_canceled task_id "Canceled by user" w))
  else
    match obs with
    | [] => (LRunning, w)
    | ob :: rest =>
        if timed_out start (ob_now ob) max_seconds then
          (LReturn "",
           terminate_and_kill pid
             (set_progress task_id "timeout" 100
                {[ "message" := VStr "Clone timed out" ]} w))
        else if negb has_stderr then (LBreak, w)
        else
          let w := meanwhile ob w in
          match ob_readline ob with
          | Raise e => (LRaise e, w)
          | Ok line =>
              if String.eqb line "" then
                match ob_poll ob with
                | Some _ => (LBreak, w)
                | None => clone_loop task_id pid has_stderr start max_seconds rest w
                end
              else
                match _parse_progress line with
                | None => clone_loop task_id pid has_stderr start max_seconds rest w
                | Some p =>
                    match mapped_percent p with
                    | Raise e => (LRaise e, w)
                    | Ok mapped =>
                        clone_loop task_id pid has_stderr start max_seconds rest
                          (set_progress task_id "cloning" mapped
                             {[ "stage" := VStr "clone" ]} w)
                    end
                end
          end
    end.

(** the two [except] clauses of [interruptible_clone] *)
Definition clone_handler (task_id : string) (e : exn) (w : World) : outcome * World :=
  match e with
  | FileNotFoundError _ =>
      (Returns "", set_progress task_id "error" 100
                     {[ "message" := VStr "git not found in PATH" ]} w)
  | OtherException _ =>
      (Returns "", set_progress task_id "error" 100
                     {[ "message" := VStr (exn_str e) ]} w)
  end.

(** [tempfile.mkdtemp()]: a fresh directory [<tempdir>/tmp<random>] *)
Definition mkdtemp (env : Env) (w : World) : result (string * World) :=
  match env_gettempdir env with
  | Raise e => Raise e
  | Ok dir =>
      let path := os_path_join dir ("tmp" ++ env_tempname env) in
      Ok (path, with_fs (<[ path := Dir ]> (fs w)) w)
  end.

(** [_PROCS.pop(task_id, None)] *)
Definition procs_pop (task_id : string) (w : World) : World :=
  with_procs (delete task_id (procs w)) w.

(** [interruptible_clone(task_id, url, max_seconds, depth)] *)
Definition interruptible_clone (task_id url : string) (max_seconds depth : Z)
    (env : Env) (w : World) : outcome * World :=
  if String.eqb url "" || negb (contains "github.com" url) then
    (Returns "", set_progress task_id "error" 100
                   {[ "message" := VStr "Invalid GitHub URL" ]} w)
  else
    match mkdtemp env w with
    | Raise e => clone_handler task_id e w
    | Ok (temp_dir, w) =>
        let repo_path := os_path_join temp_dir (repo_name_of url) in
        let cmd := ["git"; "clone"; "--progress"; "--depth=" ++ pretty depth;
                    url; repo_path] in
        match env_popen env with
        | Raise e => clone_handler task_id e w
        | Ok pid =>
            let w := log_spawn cmd w in
            let w := with_procs (<[ task_id := pid ]> (procs w)) w in
            let w := set_progress task_id "cloning" 20 {[ "stage" := VStr "clone" ]} w in
            match clone_loop task_id pid (env_has_stderr env) (env_start env)
                    max_seconds (env_iters env) w with
            | (LRunning, w) => (Running, w)
            | (LReturn v, w) => (Returns v, procs_pop task_id w)
            | (LRaise e, w) => clone_handler task_id e (procs_pop task_id w)
            | (LBreak, w) =>
                match env_wait env with
                | Raise e => clone_handler task_id e (procs_pop task_id w)
                | Ok code =>
                    let w := procs_pop task_id w in
                    if code =? 0 then
                      (Returns repo_path,
                       set_progress task_id "mapped" 60 {[ "stage" := VStr "map" ]} w)
                    else
                      (Returns "",
                       set_progress task_id "error" 100
                         {[ "message" := VStr ("git clone failed: " ++ pretty code) ]} w)
                end
            end
        end
    end.

(** ** repo_cache.py *)

Definition CACHE_ROOT : string := os_path_join "outputs" "cache".

(** [_key(url)] *)
Definition _key (url : string) : result string :=
  match str_encode url with
  | Raise e => Raise e
  | Ok data =>
      let h := substring 0 8 (sha1_hexdigest data) in
      let safe := filter_chars
                    (fun c => isalnum c || Ascii.eqb c "-" || Ascii.eqb c "_")
                    (repo_name_of url) in
      Ok (safe ++ "-" ++ h)
  end.

Definition path_exists (p : string) (w : World) : bool :=
  match fs w !! p with Some _ => true | None => false end.

Definition path_isdir (p : string) (w : World) : bool :=
  match fs w !! p with Some Dir => true | _ => false end.

(** [get_cached_path(url)] *)
Definition get_cached_path (url : string) (w : World) : result (option string) :=
  match _key url with
  | Raise e => Raise e
  | Ok k =>
      let path := os_path_join CACHE_ROOT k in
      Ok (if path_exists path w && path_isdir path w
             && path_exists (os_path_join path ".git") w
          then Some path else None)
  end.

(** [invalidate_cache(url)] *)
Definition invalidate_cache (url : string) (w : World) : result World :=
  match get_cached_path url w with
  | Raise e => Raise e
  | Ok (Some p) =>
      Ok (if negb (String.eqb p "") && path_exists p w
          then with_fs (rmtree p (fs w)) w else w)
  | Ok None => Ok w
  end.

(** [os.makedirs(p, exist_ok=True)] for [p = os.path.dirname(cache_path)],
    which is [CACHE_ROOT], a directory one level below [outputs] *)
Definition makedirs_cache_root (w : World) : result World :=
  match fs w !! CACHE_ROOT with
  | Some Dir => Ok w
  | Some File => Raise (OtherException "[Errno 17] File exists: 'outputs/cache'")
  | None =>
      match fs w !! "outputs" with
      | Some File => Raise (OtherException "[Errno 20] Not a directory: 'outputs/cache'")
      | _ => Ok (with_fs (<[ CACHE_ROOT := Dir ]> (<[ "outputs" := Dir ]> (fs w))) w)
      end
  end.

(** the [while True] loop of [ensure_cached_repo] *)
Fixpoint cache_loop (task_id : string) (pid : nat) (has_stderr : bool) (start : Q)
    (timeout : Z) (obs : list iter_obs) (w : World) : loop_exit * World :=
  if is_canceled task_id w then
    (LReturn "", terminate_and_kill pid (set_canceled task_id "Canceled during cache" w))
  else
    match obs with
    | [] => (LRunning, w)
    | ob :: rest =>
        if timed_out start (ob_now ob) timeout then
          (LReturn "",
           terminate_and_kill pid
             (set_progress task_id "timeout" 100
                {[ "message" := VStr "Cache clone timed out" ]} w))
        else if negb has_stderr then (LBreak, w)
        else
          let w := meanwhile ob w in
          match ob_readline ob with
          | Raise e => (LRaise e, w)
          | Ok line =>
              if String.eqb line "" then
                match ob_poll ob with
                | Some _ => (LBreak, w)
                | None => cache_loop task_id pid has_stderr start timeout rest w
                end
              else cache_loop task_id pid has_stderr start timeout rest w
          end
    end.

(** the two [except] clauses of [ensure_cached_repo] *)
Definition cache_handler (task_id : string) (e : exn) (w : World) : outcome * World :=
  match e with
  | FileNotFoundError _ =>
      (Returns "", set_progress task_id "error" 100
                     {[ "stage" := VStr "cache";
                        "message" := VStr "git not found in PATH" ]} w)
  | OtherException _ =>
      (Returns "", set_progress task_id "error" 100
                     {[ "stage" := VStr "cache"; "message" := VStr (exn_str e) ]} w)
  end.

(** [lines[-5:]] *)
Definition last5 (lines : list string) : list string :=
  skipn (length lines - 5) lines.

(** the clone of [ensure_cached_repo] into [cache_path], from the [try] on *)
Definition clone_into_cache (task_id url cache_path : string) (timeout depth : Z)
    (env : Env) (w : World) : outcome * World :=
  let w := if path_exists cache_path w
           then with_fs (rmtree cache_path (fs w)) w else w in
  match makedirs_cache_root w with
  | Raise e => cache_handler task_id e w
  | Ok w =>
      if negb (env_which_git env) then
        (Returns "", set_progress task_id "error" 100
                       {[ "stage" := VStr "cache";
                          "message" := VStr "git not found in PATH" ]} w)
      else
        let cmd := ["git"; "clone"; "--progress"; "--depth=" ++ pretty depth;
                    url; cache_path] in
        match env_popen env with
        | Raise e => cache_handler task_id e w
        | Ok pid =>
            let w := log_spawn cmd w in
            let w := set_progress task_id "cache" 15
                       {[ "stage" := VStr "cache"; "action" := VStr "cloning" ]} w in
            match cache_loop task_id pid (env_has_stderr env) (env_start env)
                    timeout (env_iters env) w with
            | (LRunning, w) => (Running, w)
            | (LReturn v, w) => (Returns v, w)
            | (LRaise e, w) => cache_handler task_id e w
            | (LBreak, w) =>
                match env_wait env with
                | Raise e => cache_handler task_id e w
                | Ok code =>
                    if code =? 0 then
                      (Returns cache_path,
                       set_progress task_id "cache" 25 {[ "stage" := VStr "cache" ]} w)
                    else
                      let err := match env_communicate env with
                                 | Ok lines => lines
                                 | Raise _ => []
                                 end in
                      (Returns "",
                       set_progress task_id "error" 100
                         {[ "stage" := VStr "cache";
                            "message" := VStr ("git clone failed: " ++ pretty code);
                            "stderr" := VList (last5 err) ]} w)
                end
            end
        end
  end.

(** [ensure_cached_repo(task_id, url, refresh, timeout, depth)]; what
    [_key(url)] raises, before the [try], reaches the caller *)
Definition ensure_cached_repo (task_id url : string) (refresh : bool)
    (timeout depth : Z) (env : Env) (w : World) : outcome * World :=
  if String.eqb url "" || negb (contains "github.com" url) then
    (Returns "", set_progress task_id "error" 100
                   {[ "stage" := VStr "cache";
                      "message" := VStr "Invalid GitHub URL" ]} w)
  else
    match _key url with
    | Raise e => (Raises e, w)
    | Ok k =>
        let cache_path := os_path_join CACHE_ROOT k in
        match (if refresh then Ok None else get_cached_path url w) with
        | Raise e => (Raises e, w)
        | Ok (Some p) =>
            if negb (String.eqb p "") then
              (* cache hit *)
              (Returns p, set_progress task_id "cache" 25
                            {[ "stage" := VStr "cache"; "cached" := VBool true ]} w)
            else clone_into_cache task_id url cache_path timeout depth env w
        | Ok None => clone_into_cache task_id url cache_path timeout depth env w
        end
    end.

(** ** Vocabulary of the statements *)

(** [env] with the observations of the loop replaced by [obs] *)
Definition with_iters (obs : list iter_obs) (env : Env) : Env :=
  {| env_gettempdir := env_gettempdir env; env_tempname := env_tempname env;
     env_which_git := env_which_git env; env_popen := env_popen env;
     env_start := env_start env; env_has_stderr := env_has_stderr env;
     env_iters := obs; env_wait := env_wait env;
     env_communicate := env_communicate env |}.

(** the URL check at the head of both clone functions *)
Definition url_ok (url : string) : bool :=
  negb (String.eqb url "" || negb (contains "github.com" url)).

Definition raises (o : outcome) : bool :=
  match o with Raises _ => true | _ => false end.

(** the record of [task_id] is the one written last, with this status and percent *)
Definition published (task_id status : string) (percent : Z) (w : World) : Prop :=
  get_progress task_id w !! "status" = Some (VStr status)
  ∧ get_progress task_id w !! "percent" = Some (VInt percent)
  ∧ last (progress_log w) = Some (_path task_id, get_progress task_id w).

(** a terminal error record: status error, percent 100, with a message *)
Definition published_error (task_id : string) (w : World) : Prop :=
  published task_id "error" 100 w
  ∧ ∃ m, get_progress task_id w !! "message" = Some (VStr m).

(** the percent values written to the progress file of [task_id], oldest first *)
Definition published_percents (task_id : string) (w : World) : list Z :=
  omap (fun e : string * gmap string value =>
          if String.eqb e.1 (_path task_id)
          then match e.2 !! "percent" with Some (VInt n) => Some n | _ => None end
          else None)
       (progress_log w).

(** the percent values carried by the lines that the loop reads *)
Definition line_percents (obs : list iter_obs) : list Z :=
  omap (fun ob => match ob_readline ob with
                  | Ok line => _parse_progress line
                  | Raise _ => None
                  end) obs.


(** the state in which the loop of [interruptible_clone] starts, with the
    child and the path to clone into, when the call gets that far *)
Definition clone_start (task_id url : string) (depth : Z) (env : Env) (w : World)
    : option (nat * string * World) :=
  if url_ok url then
    match mkdtemp env w with
    | Raise _ => None
    | Ok (temp_dir, w) =>
        let repo_path := os_path_join temp_dir (repo_name_of url) in
        match env_popen env with
        | Raise _ => None
        | Ok pid =>
            let w := log_spawn ["git"; "clone"; "--progress"; "--depth=" ++ pretty depth;
                                url; repo_path] w in
            let w := with_procs (<[ task_id := pid ]> (procs w)) w in
            Some (pid, repo_path,
                  set_progress task_id "cloning" 20 {[ "stage" := VStr "clone" ]} w)
        end
    end
  else None.

(** what [interruptible_clone] does once its loop is left *)
Definition clone_finish (task_id repo_path : string) (env : Env)
    (r : loop_exit * World) : outcome * World :=
  match r with
  | (LRunning, w) => (Running, w)
  | (LReturn v, w) => (Returns v, procs_pop task_id w)
  | (LRaise e, w) => clone_handler task_id e (procs_pop task_id w)
  | (LBreak, w) =>
      match env_wait env with
      | Raise e => clone_handler task_id e (procs_pop task_id w)
      | Ok code =>
          let w := procs_pop task_id w in
          if code =? 0 then
            (Returns repo_path,
             set_progress task_id "mapped" 60 {[ "stage" := VStr "map" ]} w)
          else
            (Returns "",
             set_progress task_id "error" 100
               {[ "message" := VStr ("git clone failed: " ++ pretty code) ]} w)
      end
  end.

(** sample observations *)
Definition sample_ob (now : Q) (line : string) (poll : option Z) : iter_obs :=
  {| ob_now := now; ob_readline := Ok line; ob_poll := poll;
     ob_child_fs := []; ob_others := []; ob_read_end := now |}.

Definition raising_ob (now : Q) (msg : string) : iter_obs :=
  {| ob_now := now; ob_readline := Raise (OtherException msg); ob_poll := None;
     ob_child_fs := []; ob_others := []; ob_read_end := now |}.

Definition sample_env (obs : list iter_obs) (code : Z) : Env :=
  {| env_gettempdir := Ok "/tmp"; env_tempname := "k3x9_q2a";
     env_which_git := true; env_popen := Ok 4242%nat; env_start := 1000;
     env_has_stderr := true; env_iters := obs; env_wait := Ok code;
     env_communicate := Ok [] |}.

Definition noon : datetime :=
  {| dt_year := 2025; dt_month := 1; dt_day := 2;
     dt_hour := 12; dt_minute := 0; dt_second := 0 |}.

(** the progress file of [task_id] exists and holds the percent [q] *)
Definition holds_percent (task_id : string) (q : Z) (w : World) : Prop :=
  ∃ d, progress_files w !! _path task_id = Some d ∧ d !! "percent" = Some (VInt q).

(** the state in which the loop of [ensure_cached_repo] starts, with the
    child, when the clone into [cache_path] gets that far *)
Definition cache_start (task_id url cache_path : string) (depth : Z) (env : Env)
    (w : World) : option (nat * World) :=
  let w := if path_exists cache_path w
           then with_fs (rmtree cache_path (fs w)) w else w in
  match makedirs_cache_root w with
  | Raise _ => None
  | Ok w =>
      if negb (env_which_git env) then None
      else
        match env_popen env with
        | Raise _ => None
        | Ok pid =>
            let w := log_spawn ["git"; "clone"; "--progress";
                                "--depth=" ++ pretty depth; url; cache_path] w in
            Some (pid, set_progress task_id "cache" 15
                         {[ "stage" := VStr "cache"; "action" := VStr "cloning" ]} w)
        end
  end.

(** what [ensure_cached_repo] does once its loop is left *)
Definition cache_finish (task_id cache_path : string) (env : Env)
    (r : loop_exit * World) : outcome * World :=
  match r with
  | (LRunning, w) => (Running, w)
  | (LReturn v, w) => (Returns v, w)
  | (LRaise e, w) => cache_handler task_id e w
  | (LBreak, w) =>
      match env_wait env with
      | Raise e => cache_handler task_id e w
      | Ok code =>
          if code =? 0 then
            (Returns cache_path,
             set_progress task_id "cache" 25 {[ "stage" := VStr "cache" ]} w)
          else
            let err := match env_communicate env with
                       | Ok lines => lines
                       | Raise _ => []
                       end in
            (Returns "",
             set_progress task_id "error" 100
               {[ "stage" := VStr "cache";
                  "message" := VStr ("git clone failed: " ++ pretty code);
                  "stderr" := VList (last5 err) ]} w)
      end
  end.

(** one of the clock readings is past the deadline *)
Definition deadline_seen (start : Q) (max_seconds : Z) (obs : list iter_obs) : bool :=
  existsb (fun ob => timed_out start (ob_now ob) max_seconds) obs.

(** the call returns the empty string and leaves a terminal error record *)
Definition error_return (task_id : string) (r : outcome * World) : Prop :=
  fst r = Returns "" ∧ published_error task_id (snd r).

(** the child process creates the directory [p] during the loop *)
Definition child_mkdirs (p : string) (obs : list iter_obs) : bool :=
  existsb (fun ob =>
             existsb (fun op => match op with
                                | Mkdir q => String.eqb q p
                                | _ => false
                                end) (ob_child_fs ob)) obs.

(** a world in which [url] has a cache entry *)
Definition cached_world (url : string) : World :=
  match _key url with
  | Ok k =>
      with_fs {[ "outputs" := Dir; CACHE_ROOT := Dir;
                 os_path_join CACHE_ROOT k := Dir;
                 os_path_join (os_path_join CACHE_ROOT k) ".git" := Dir ]}
        empty_world
  | Raise _ => empty_world
  end.

(** an observation in which the child has created its target with the marker *)
Definition clone_begun (now : Q) (target : string) : iter_obs :=
  {| ob_now := now; ob_readline := Ok "Cloning into 'widgets'..."; ob_poll := None;
     ob_child_fs := [Mkdir target; Mkdir (os_path_join target ".git")];
     ob_others := []; ob_read_end := now |}.


(** ** job_registry.py: search *)

(** [v.lower()] for a value read from a record: only a string has the method *)
Definition value_lower (v : value) : result string :=
  match v with
  | VStr s => Ok (lower s)
  | _ => Raise (OtherException "object has no attribute 'lower'")
  end.

(** [_agent_match(qs, agent_val)] of [search_jobs] *)
Definition _agent_match (qs agent_val : string) : bool :=
  if String.eqb agent_val "" then false
  else if contains qs agent_val then true
  else if endswith "s" qs && contains (drop_last 1 qs) agent_val then true
  else if contains (qs ++ "s") agent_val then true
  else false.

(** the body of the loop of [search_jobs] for the record [j]: whether [j] is
    appended to [out]; [q] and [s] are the lower-cased query and status *)
Definition job_selected (q s : string) (j : Job) : result bool :=
  let status_ok :=
    negb (negb (String.eqb s "") && negb (String.eqb s "any")
          && negb (String.eqb s (lower (j_status j)))) in
  if String.eqb q "" then Ok status_ok
  else
    let jid := lower (j_id j) in
    let jurl := lower (j_repo_url j) in
    match value_lower (j_agent j) with
    | Raise e => Raise e
    | Ok jagent =>
        let a := py_get (j_details j) "agent" in
        match (if truthy a then value_lower a else Ok "") with
        | Raise e => Raise e
        | Ok d_agent =>
            if negb (contains q jid || contains q jurl
                     || _agent_match q jagent || _agent_match q d_agent)
            then Ok false
            else Ok status_ok
        end
    end.

(** [for j in _load(): ...; out.append(j)] *)
Fixpoint search_loop (q s : string) (jobs : list Job) : result (list Job) :=
  match jobs with
  | [] => Ok []
  | j :: rest =>
      match job_selected q s j with
      | Raise e => Raise e
      | Ok keep =>
          match search_loop q s rest with
          | Raise e => Raise e
          | Ok out => Ok (if keep then j :: out else out)
          end
      end
  end.

(** [search_jobs(query, status)] *)
Definition search_jobs (query status : string) (w : World) : result (list Job) :=
  search_loop (lower query) (lower status) (_load w).

(** ** Vocabulary of the further statements *)

(** every character of [s] satisfies [f] *)
Fixpoint all_chars (f : ascii -> bool) (s : string) : bool :=
  match s with
  | EmptyString => true
  | String a r => f a && all_chars f r
  end.

(** the characters that [_path] and [_key] keep *)
Definition is_safe_char (c : ascii) : bool :=
  isalnum c || Ascii.eqb c "-" || Ascii.eqb c "_".

(** a lower-case hexadecimal digit *)
Definition is_hex_char (c : ascii) : bool :=
  is_digit c || ((97 <=? ascii_code c) && (ascii_code c <=? 102)).

(** the agent of every record is a string *)
Definition agents_are_strings (jobs : list Job) : Prop :=
  Forall (fun j => (∃ a, j_agent j = VStr a)
                   ∧ ∀ v, j_details j !! "agent" = Some v -> ∃ a, v = VStr a) jobs.

(** an observation after which the loop of [interruptible_clone] goes on *)
Definition clone_goes_on (ob : iter_obs) : bool :=
  match ob_readline ob with
  | Raise _ => false
  | Ok line =>
      if String.eqb line "" then
        match ob_poll ob with Some _ => false | None => true end
      else
        match _parse_progress line with
        | None => true
        | Some p => match mapped_percent p with Ok _ => true | Raise _ => false end
        end
  end.

(** an observation after which the loop of [ensure_cached_repo] goes on *)
Definition cache_goes_on (ob : iter_obs) : bool :=
  match ob_readline ob with
  | Raise _ => false
  | Ok line =>
      if String.eqb line "" then
        match ob_poll ob with Some _ => false | None => true end
      else true
  end.

(** another context asks for the cancellation of [task_id] *)
Definition cancels (task_id : string) (c : ext_call) : bool :=
  match c with
  | ExtSetCanceled t _ => String.eqb t task_id
  | ExtCancelClone t => String.eqb t task_id
  end.

(** the ids of the ledger, in order *)
Definition ledger_ids (w : World) : list string := List.map j_id (get_jobs w).

(** an observation in which the child writes nothing, and has exited with
    [code] when the read ends at [read_end] *)
Definition silent_ob (now read_end : Q) (code : Z) : iter_obs :=
  {| ob_now := now; ob_readline := Ok ""; ob_poll := Some code;
     ob_child_fs := []; ob_others := []; ob_read_end := read_end |}.

(** sample observations with calls of another context *)
Definition cancel_ob (now : Q) (line : string) (calls : list ext_call) : iter_obs :=
  {| ob_now := now; ob_readline := Ok line; ob_poll := None;
     ob_child_fs := []; ob_others := calls; ob_read_end := now |}.


(** the character U+D800, a lone surrogate *)
Definition lone_surrogate : string :=
  String "237" (String "160" (String "128" EmptyString)).

(** one later call of [set_progress]: status, percent and extra *)
Definition publish (task_id : string) (w : World)
    (c : string * Z * gmap string value) : World :=
  set_progress task_id c.1.1 c.1.2 c.2 w.

(** * Properties *)

(** ** The definitions on concrete inputs *)

Example key_widgets : _key "https://github.com/acme/widgets" = Ok "widgets-efa8d65b".
Proof. vm_compute. reflexivity. Qed.

Example encode_surrogate :
  str_encode ("https://github.com/acme/" ++ lone_surrogate)
  = Raise (OtherException
             "'utf-8' codec can't encode character '\ud800' in position 24: surrogates not allowed").
Proof. vm_compute. reflexivity. Qed.

(** the text of U+00E9, U+D800, U+D801 and b *)
Example encode_surrogates :
  str_encode (String "195" (String "169"
                (String "237" (String "160" (String "128"
                   (String "237" (String "160" (String "129" "b"))))))))
  = Raise (OtherException
             "'utf-8' codec can't encode characters in position 1-2: surrogates not allowed").
Proof. vm_compute. reflexivity. Qed.

Example encode_text : str_encode "https://github.com/acme/widgets"
                      = Ok "https://github.com/acme/widgets".
Proof. vm_compute. reflexivity. Qed.

Example key_dot_git :
  repo_name_of "https://github.com/acme/widgets.git/" = "widgets".
Proof. vm_compute. reflexivity. Qed.

Example path_sanitized : _path "job 7/a_b" = "outputs/progress/job7a_b.json".
Proof. vm_compute. reflexivity. Qed.

Example path_default : _path "../.." = "outputs/progress/default.json".
Proof. vm_compute. reflexivity. Qed.

Example isoformat_noon : isoformat noon = "2025-01-02T12:00:00".
Proof. vm_compute. reflexivity. Qed.

Example parse_receiving :
  _parse_progress "Receiving objects:  42% (21/50), 1.20 MiB | 2.00 MiB/s" = Some 42.
Proof. vm_compute. reflexivity. Qed.

Example parse_resolving : _parse_progress "Resolving deltas: 100% (5/5), done." = Some 100.
Proof. vm_compute. reflexivity. Qed.

Example parse_no_space : _parse_progress "Receiving objects:42%" = None.
Proof. vm_compute. reflexivity. Qed.

Example parse_other : _parse_progress "remote: Counting objects: 100% (9/9)" = None.
Proof. vm_compute. reflexivity. Qed.

Example mapped_42 : mapped_percent 42 = Ok 45.
Proof. vm_compute. reflexivity. Qed.

Example exit_code_text : "git clone failed: " ++ pretty (-9) = "git clone failed: -9".
Proof. vm_compute. reflexivity. Qed.

Example timed_out_after : timed_out 1000 1180.5 180 = true.
Proof. vm_compute. reflexivity. Qed.

Example timed_out_at_limit : timed_out 1000 1180 180 = false.
Proof. vm_compute. reflexivity. Qed.

Example sha1_empty : sha1_hexdigest "" = "da39a3ee5e6b4b0d3255bfef95601890afd80709".
Proof. vm_compute. reflexivity. Qed.

Example sha1_abc : sha1_hexdigest "abc" = "a9993e364706816aba3e25717850c26c9cd0d89d".
Proof. vm_compute. reflexivity. Qed.

Example sha1_two_blocks :
  sha1_hexdigest "aaaaaaaaaaaaaaaaaaaaaaaaaaaaaaaaaaaaaaaaaaaaaaaaaaaaaaaaaaaaaaaaaaaaaa"
  = "ed6c69d9e8b4373af86303dfaa3528dfbc129902".
Proof. vm_compute. reflexivity. Qed.

(** ** The progress store *)

Lemma get_progress_write task_id data w :
  get_progress task_id (write_progress task_id data w) = data.
Proof.
  unfold get_progress, write_progress. simpl.
  by rewrite lookup_insert_eq.
Qed.

Lemma get_set_progress task_id status percent extra w :
  get_progress task_id (set_progress task_id status percent extra w)
  = py_update_if
      (py_update (get_progress task_id w)
         {[ "task_id" := VStr task_id; "status" := VStr status;
            "percent" := VInt (Z.max 0 (Z.min 100 percent)) ]}) extra.
Proof. unfold set_progress. apply get_progress_write. Qed.

Lemma py_update_if_eq d e : py_update_if d e = e ∪ d.
Proof.
  unfold py_update_if, py_update. case_bool_decide as He; [|done].
  subst e. by rewrite (left_id_L ∅ (∪)).
Qed.

Lemma set_progress_lookup task_id status percent extra w k :
  get_progress task_id (set_progress task_id status percent extra w) !! k
  = match extra !! k with
    | Some v => Some v
    | None =>
        if String.eqb k "task_id" then Some (VStr task_id)
        else if String.eqb k "status" then Some (VStr status)
        else if String.eqb k "percent" then Some (VInt (Z.max 0 (Z.min 100 percent)))
        else get_progress task_id w !! k
    end.
Proof.
  rewrite get_set_progress, py_update_if_eq. unfold py_update.
  rewrite lookup_union. destruct (extra !! k) as [v|] eqn:Hk.
  - by rewrite union_Some_l.
  - rewrite (left_id_L None (∪)). rewrite lookup_union.
    destruct (String.eqb_spec k "task_id") as [->|H1];
      [by rewrite lookup_insert_eq, union_Some_l|].
    destruct (String.eqb_spec k "status") as [->|H2];
      [by rewrite lookup_insert_ne, lookup_insert_eq, union_Some_l|].
    destruct (String.eqb_spec k "percent") as [->|H3];
      [by rewrite !lookup_insert_ne, lookup_singleton_eq, union_Some_l|].
    rewrite !lookup_insert_ne by done. rewrite lookup_singleton_ne by done.
    by rewrite (left_id_L None (∪)).
Qed.

(** C5, as amended: after [set_progress(id, s, p, e)] the record read back by
    [get_progress(id)] holds, under "percent", the value that [e] gives for
    that key and otherwise [clamp(p, 0, 100)], and it has every key of [e]. *)
Theorem set_progress_then_get :
  forall (task_id status : string) (p : Z) (e : gmap string value) (w : World),
    let r := get_progress task_id (set_progress task_id status p e w) in
    r !! "percent" = Some (default (VInt (Z.max 0 (Z.min 100 p))) (e !! "percent"))
    ∧ dom e ⊆ dom r.
Proof.
  intros task_id status p e w r. subst r. split.
  - rewrite set_progress_lookup. by destruct (e !! "percent").
  - intros k Hk. apply elem_of_dom in Hk as [v Hv].
    apply elem_of_dom. rewrite set_progress_lookup, Hv. eauto.
Qed.

(** C5 fails as stated: a "percent" key in [e] replaces the clamped percent. *)
Lemma set_progress_percent_overridden :
  get_progress "t1" (set_progress "t1" "cloning" 50 {[ "percent" := VInt 150 ]}
                       empty_world) !! "percent"
  ≠ Some (VInt (Z.max 0 (Z.min 100 50))).
Proof. rewrite set_progress_lookup. discriminate. Qed.

(** ** The job ledger *)

Lemma isoformat_length d : (0 < String.length (isoformat d))%nat.
Proof.
  unfold isoformat. destruct (zero_pad 4 (dt_year d)); simpl; lia.
Qed.

Lemma find_none_app (f : Job -> bool) l x :
  List.find f l = None -> List.find f (l ++ [x]) = List.find f [x].
Proof.
  induction l as [|a l IH]; simpl; [done|].
  destruct (f a); [discriminate|]. exact IH.
Qed.

Lemma find_filter_negb (f : Job -> bool) l :
  List.find f (List.filter (fun j => negb (f j)) l) = None.
Proof.
  induction l as [|a l IH]; simpl; [done|].
  destruct (f a) eqn:Ha; simpl; [done|]. by rewrite Ha.
Qed.

Lemma filter_filter_negb (f : Job -> bool) l :
  List.filter f (List.filter (fun j => negb (f j)) l) = [].
Proof.
  induction l as [|a l IH]; simpl; [done|].
  destruct (f a) eqn:Ha; simpl; [done|]. by rewrite Ha.
Qed.

Lemma find_update_first task_id g l :
  (forall j, j_id (g j) = j_id j) ->
  List.find (fun j => String.eqb (j_id j) task_id) (update_first task_id g l)
  = g <$> List.find (fun j => String.eqb (j_id j) task_id) l.
Proof.
  intros Hg. induction l as [|a l IH]; simpl; [done|].
  destruct (String.eqb (j_id a) task_id) eqn:Ha; simpl.
  - by rewrite Hg, Ha.
  - by rewrite Ha.
Qed.

Lemma update_record_id status details u1 u2 u3 j :
  j_id (update_record status details u1 u2 u3 j) = j_id j.
Proof. unfold update_record. by destruct (mapped_agent status). Qed.

Lemma update_record_agent status details u1 u2 u3 j :
  j_agent (update_record status details u1 u2 u3 j)
  = match mapped_agent status with
    | Some a => VStr a
    | None => default (j_agent j) (details !! "agent")
    end.
Proof.
  unfold update_record. destruct (mapped_agent status); simpl; [done|].
  by destruct (details !! "agent").
Qed.

Lemma find_job_update task_id status details u1 u2 u3 w :
  find_job task_id (update_job task_id status details u1 u2 u3 w)
  = update_record status details u1 u2 u3 <$> find_job task_id w.
Proof.
  unfold find_job, update_job, get_jobs, _load, _save. simpl.
  apply find_update_first. intros j. apply update_record_id.
Qed.

(** C7: [create_job(id, url)] leaves exactly one record for [id], with status
    pending, the default agent, an empty [ended_at] and a one-entry history;
    [update_job(id, "completed", {})] after it gives a record whose agent is
    the completion role, whose [ended_at] is not empty and whose history is
    pending, then completed. *)
Theorem create_then_complete :
  forall (task_id url : string) (t1 t2 t3 t4 u1 u2 u3 : datetime) (w : World),
    let w1 := create_job task_id url t1 t2 t3 t4 w in
    let w2 := update_job task_id "completed" ∅ u1 u2 u3 w1 in
    (∃ j, find_job task_id w1 = Some j
          ∧ List.filter (fun j => String.eqb (j_id j) task_id) (get_jobs w1) = [j]
          ∧ j_repo_url j = url
          ∧ j_status j = "pending"
          ∧ j_agent j = VStr "CodeAnalyzer"
          ∧ j_ended_at j = ""
          ∧ List.map h_status (j_history j) = ["pending"])
    ∧ (∃ j, find_job task_id w2 = Some j
            ∧ j_status j = "completed"
            ∧ j_agent j = VStr "DocGenerator"
            ∧ (0 < String.length (j_ended_at j))%nat
            ∧ List.length (j_history j) = 2%nat
            ∧ List.map h_status (j_history j) = ["pending"; "completed"]).
Proof.
  intros task_id url t1 t2 t3 t4 u1 u2 u3 w w1 w2.
  set (f := fun j => String.eqb (j_id j) task_id).
  assert (Hfind : ∃ j, find_job task_id w1 = Some j
            ∧ List.filter f (get_jobs w1) = [j]
            ∧ j_repo_url j = url ∧ j_status j = "pending"
            ∧ j_agent j = VStr "CodeAnalyzer" ∧ j_ended_at j = ""
            ∧ j_history j = [ {| h_at := _now t4; h_status := "pending" |} ]).
  { eexists. unfold w1, find_job, create_job, get_jobs, _load, _save. simpl.
    fold f. split; [|split].
    - rewrite find_none_app by apply (find_filter_negb f).
      simpl. unfold f at 1. simpl. rewrite String.eqb_refl. reflexivity.
    - rewrite List.filter_app, (filter_filter_negb f). simpl.
      unfold f at 1. simpl. by rewrite String.eqb_refl.
    - simpl. done. }
  destruct Hfind as (j & Hj & Hfilter & Hurl & Hst & Hag & Hend & Hhist).
  split.
  - exists j. rewrite Hhist. done.
  - exists (update_record "completed" ∅ u1 u2 u3 j). split.
    + unfold w2. by rewrite find_job_update, Hj.
    + rewrite update_record_agent. unfold update_record. simpl.
      rewrite Hhist. repeat split; try done. apply isoformat_length.
Qed.

(** C8, as amended: the agent of the updated record is the table's agent for
    the lower-cased status, whatever [details] holds; for a status outside the
    table it is the agent given in [details], or else the agent the record
    had. *)
Theorem update_job_agent :
  forall (task_id status : string) (details : gmap string value)
         (u1 u2 u3 : datetime) (w : World),
    j_agent <$> find_job task_id (update_job task_id status details u1 u2 u3 w)
    = (fun j => match mapped_agent status with
                | Some a => VStr a
                | None => default (j_agent j) (details !! "agent")
                end) <$> find_job task_id w
    ∧ mapped_agent "completed" = Some "DocGenerator"
    ∧ mapped_agent "error" = Some "Supervisor"
    ∧ mapped_agent "canceled" = Some "Supervisor"
    ∧ mapped_agent "timeout" = Some "Supervisor"
    ∧ mapped_agent "pending" = Some "CodeAnalyzer"
    ∧ mapped_agent "in_progress" = Some "CodeAnalyzer".
Proof.
  intros. split; [|by repeat split].
  rewrite find_job_update. destruct (find_job task_id w) as [j|]; simpl; [|done].
  by rewrite update_record_agent.
Qed.

(** C8 fails as stated: for a status outside the table, the agent given by the
    caller in [details] is kept, so that the same status gives two different
    agents. *)
Lemma update_job_keeps_caller_agent :
  let w := create_job "t1" "https://github.com/acme/widgets" noon noon noon noon
             empty_world in
  j_agent <$> find_job "t1"
    (update_job "t1" "queued" {[ "agent" := VStr "Mallory" ]} noon noon noon w)
  = Some (VStr "Mallory")
  ∧ j_agent <$> find_job "t1" (update_job "t1" "queued" ∅ noon noon noon w)
    = Some (VStr "CodeAnalyzer").
Proof. split; vm_compute; reflexivity. Qed.

(** ** Frame properties of the store operations *)

Lemma get_progress_frame task_id w w' :
  progress_files w' = progress_files w -> jobs_file w' = jobs_file w ->
  get_progress task_id w' = get_progress task_id w.
Proof.
  intros Hp Hj. unfold get_progress, _infer_from_jobs, get_jobs, _load.
  by rewrite Hp, Hj.
Qed.

Lemma is_canceled_frame task_id w w' :
  progress_files w' = progress_files w -> jobs_file w' = jobs_file w ->
  is_canceled task_id w' = is_canceled task_id w.
Proof. intros Hp Hj. unfold is_canceled. by rewrite (get_progress_frame _ w w'). Qed.

Lemma published_frame task_id status percent w w' :
  progress_files w' = progress_files w -> jobs_file w' = jobs_file w ->
  progress_log w' = progress_log w ->
  published task_id status percent w -> published task_id status percent w'.
Proof.
  intros Hp Hj Hl. unfold published.
  by rewrite (get_progress_frame _ w w'), Hl.
Qed.

Lemma published_set_progress task_id status percent extra w :
  extra !! "status" = None -> extra !! "percent" = None ->
  0 <= percent <= 100 ->
  published task_id status percent (set_progress task_id status percent extra w).
Proof.
  intros Hs Hp Hr. unfold published.
  rewrite !set_progress_lookup, Hs, Hp. simpl.
  repeat split.
  - do 2 f_equal. lia.
  - rewrite get_set_progress. unfold set_progress, write_progress, log_progress.
    simpl. by rewrite last_snoc.
Qed.

Lemma published_error_set_progress task_id extra m w :
  extra !! "status" = None -> extra !! "percent" = None ->
  extra !! "message" = Some (VStr m) ->
  published_error task_id (set_progress task_id "error" 100 extra w).
Proof.
  intros Hs Hp Hm. split; [by apply published_set_progress|].
  exists m. by rewrite set_progress_lookup, Hm.
Qed.

Lemma is_canceled_set_progress task_id status percent extra w :
  extra !! "canceled" = None ->
  is_canceled task_id (set_progress task_id status percent extra w)
  = is_canceled task_id w.
Proof.
  intros He. unfold is_canceled, py_get.
  by rewrite set_progress_lookup, He.
Qed.

(** ** The supervising loop of the clone worker *)

Section CloneLoop.
Variables (task_id : string) (pid : nat) (hs : bool) (start : Q) (max_seconds : Z).

Lemma clone_loop_app pre post w wl :
  clone_loop task_id pid hs start max_seconds pre w = (LRunning, wl) ->
  clone_loop task_id pid hs start max_seconds (pre ++ post) w
  = clone_loop task_id pid hs start max_seconds post wl.
Proof.
  revert w. induction pre as [|ob pre IH]; intros w H; simpl in *.
  - destruct (is_canceled task_id w) eqn:Hc; [discriminate|].
    injection H as <-. destruct post; simpl; by rewrite Hc.
  - destruct (is_canceled task_id w); [discriminate|].
    destruct (timed_out start (ob_now ob) max_seconds); [discriminate|].
    destruct (negb hs); [discriminate|].
    destruct (ob_readline ob) as [line|e]; [|discriminate].
    destruct (String.eqb line "").
    + destruct (ob_poll ob); [discriminate|]. by apply IH.
    + destruct (_parse_progress line) as [p|]; [|by apply IH].
      destruct (mapped_percent p); [by apply IH|discriminate].
Qed.

Lemma clone_loop_running_not_canceled obs w wl :
  clone_loop task_id pid hs start max_seconds obs w = (LRunning, wl) ->
  is_canceled task_id wl = false.
Proof.
  intros H. pose proof (clone_loop_app _ [] _ _ H) as H'.
  rewrite app_nil_r, H in H'. simpl in H'.
  destruct (is_canceled task_id wl); [discriminate|done].
Qed.

Lemma clone_loop_ends obs w :
  deadline_seen start max_seconds obs = true ->
  fst (clone_loop task_id pid hs start max_seconds obs w) <> LRunning.
Proof.
  revert w. induction obs as [|ob obs IH]; intros w; simpl; [discriminate|].
  intros H. destruct (is_canceled task_id w); [done|].
  destruct (timed_out start (ob_now ob) max_seconds); [done|]. simpl in H.
  destruct (negb hs); [done|].
  destruct (ob_readline ob) as [line|e]; [|done].
  destruct (String.eqb line "").
  - destruct (ob_poll ob); [done|]. by apply IH.
  - destruct (_parse_progress line) as [p|]; [|by apply IH].
    destruct (mapped_percent p); [by apply IH|done].
Qed.

End CloneLoop.

Lemma clone_start_with_iters task_id url depth obs env w :
  clone_start task_id url depth (with_iters obs env) w
  = clone_start task_id url depth env w.
Proof. reflexivity. Qed.

Lemma interruptible_clone_started task_id url max_seconds depth env w pid path w0 :
  clone_start task_id url depth env w = Some (pid, path, w0) ->
  interruptible_clone task_id url max_seconds depth env w
  = clone_finish task_id path env
      (clone_loop task_id pid (env_has_stderr env) (env_start env) max_seconds
         (env_iters env) w0).
Proof.
  unfold clone_start, interruptible_clone, url_ok, clone_finish.
  destruct (String.eqb url "" || negb (contains "github.com" url)); simpl;
    [discriminate|].
  destruct (mkdtemp env w) as [[temp_dir w1]|e]; [|discriminate].
  destruct (env_popen env) as [pid'|e]; [|discriminate].
  intros H. injection H as <- <- <-. reflexivity.
Qed.

Lemma clone_handler_error task_id e w :
  ∃ w', clone_handler task_id e w = (Returns "", w') ∧ published_error task_id w'.
Proof.
  destruct e as [m|m]; simpl; eexists; (split; [reflexivity|]);
    by eapply published_error_set_progress.
Qed.

Lemma interruptible_clone_not_started task_id url max_seconds depth env w :
  clone_start task_id url depth env w = None ->
  ∃ w', interruptible_clone task_id url max_seconds depth env w = (Returns "", w')
        ∧ published_error task_id w'.
Proof.
  unfold clone_start, interruptible_clone, url_ok.
  destruct (String.eqb url "" || negb (contains "github.com" url)); simpl.
  - intros _. eexists. split; [reflexivity|].
    by eapply published_error_set_progress.
  - destruct (mkdtemp env w) as [[temp_dir w1]|e]; [|intros _; apply clone_handler_error].
    destruct (env_popen env) as [pid'|e]; [discriminate|].
    intros _; apply clone_handler_error.
Qed.

Lemma clone_finish_returns task_id path env r :
  fst r <> LRunning -> ∃ v w', clone_finish task_id path env r = (Returns v, w').
Proof.
  destruct r as [[v| |e|] w]; simpl; intros H; try done.
  - eauto.
  - destruct (env_wait env) as [code|e].
    + destruct (code =? 0); eauto.
    + destruct (clone_handler_error task_id e (procs_pop task_id w)) as (w' & -> & _).
      eauto.
  - destruct (clone_handler_error task_id e (procs_pop task_id w)) as (w' & -> & _).
    eauto.
Qed.

Lemma interruptible_clone_running task_id url max_seconds depth env w :
  fst (interruptible_clone task_id url max_seconds depth env w) = Running ->
  ∃ pid path w0,
    clone_start task_id url depth env w = Some (pid, path, w0)
    ∧ clone_loop task_id pid (env_has_stderr env) (env_start env) max_seconds
        (env_iters env) w0
      = (LRunning, snd (interruptible_clone task_id url max_seconds depth env w)).
Proof.
  intros H. destruct (clone_start task_id url depth env w) as [[[pid path] w0]|] eqn:Hs.
  - exists pid, path, w0. split; [done|].
    rewrite (interruptible_clone_started _ _ _ _ _ _ _ _ _ Hs) in *.
    destruct (clone_loop task_id pid (env_has_stderr env) (env_start env) max_seconds
                (env_iters env) w0) as [x wl] eqn:Hl.
    destruct x as [v| |e|]; [..|reflexivity].
    all: match type of H with
         | (clone_finish _ _ _ ?r).1 = _ =>
             destruct (clone_finish_returns task_id path env r) as (v' & w' & Hf);
               [simpl; discriminate|rewrite Hf in H; discriminate]
         end.
  - destruct (interruptible_clone_not_started _ _ max_seconds _ _ _ Hs) as (w' & Hr & _).
    rewrite Hr in H. discriminate.
Qed.

(** a run that is still going after [pre] goes on from there *)
Lemma interruptible_clone_resume task_id url max_seconds depth env w pre post :
  fst (interruptible_clone task_id url max_seconds depth (with_iters pre env) w)
    = Running ->
  ∃ pid path w0,
    clone_start task_id url depth env w = Some (pid, path, w0)
    ∧ interruptible_clone task_id url max_seconds depth (with_iters (pre ++ post) env) w
      = clone_finish task_id path env
          (clone_loop task_id pid (env_has_stderr env) (env_start env) max_seconds post
             (snd (interruptible_clone task_id url max_seconds depth
                     (with_iters pre env) w))).
Proof.
  intros H. apply interruptible_clone_running in H as (pid & path & w0 & Hs & Hl).
  rewrite clone_start_with_iters in Hs. simpl in Hl.
  exists pid, path, w0. split; [done|].
  rewrite (interruptible_clone_started _ _ _ _ (with_iters (pre ++ post) env) _ _ _ _ Hs).
  simpl. by rewrite (clone_loop_app _ _ _ _ _ _ _ _ _ Hl).
Qed.

(** a run that is still going has passed the cancellation check *)
Lemma interruptible_clone_running_not_canceled task_id url max_seconds depth env w :
  fst (interruptible_clone task_id url max_seconds depth env w) = Running ->
  is_canceled task_id (snd (interruptible_clone task_id url max_seconds depth env w))
  = false.
Proof.
  intros H. apply interruptible_clone_running in H as (pid & path & w0 & _ & Hl).
  by eapply clone_loop_running_not_canceled.
Qed.

(** The timeout path: when the loop of [interruptible_clone], still running
    after the observations [pre], finds at its next check the elapsed time
    above [max_seconds], the call returns the empty string and the record
    published last has status timeout and percent 100, not status error. *)
Theorem clone_timeout :
  forall (task_id url : string) (max_seconds depth : Z) (env : Env) (w : World)
         (pre post : list iter_obs) (ob : iter_obs),
    let before :=
      interruptible_clone task_id url max_seconds depth (with_iters pre env) w in
    fst before = Running ->
    timed_out (env_start env) (ob_now ob) max_seconds = true ->
    ∃ w', interruptible_clone task_id url max_seconds depth
            (with_iters (pre ++ ob :: post) env) w = (Returns "", w')
          ∧ published task_id "timeout" 100 w'
          ∧ get_progress task_id w' !! "status" <> Some (VStr "error").
Proof.
  intros task_id url max_seconds depth env w pre post ob before Hrun Ht.
  pose proof (interruptible_clone_running_not_canceled _ _ _ _ _ _ Hrun) as Hc.
  fold before in Hc.
  destruct (interruptible_clone_resume _ _ _ _ _ _ _ (ob :: post) Hrun)
    as (pid & path & w0 & Hs & ->).
  fold before. simpl. rewrite Hc, Ht. simpl.
  eexists. split; [reflexivity|].
  assert (Hp : published task_id "timeout" 100
                 (procs_pop task_id
                    (terminate_and_kill pid
                       (set_progress task_id "timeout" 100
                          {[ "message" := VStr "Clone timed out" ]} (snd before))))).
  { eapply published_frame; [reflexivity..|].
    by apply published_set_progress. }
  split; [exact Hp|]. destruct Hp as (-> & _). discriminate.
Qed.

Lemma clone_timeout_witness :
  ∃ w', interruptible_clone "t1" "https://github.com/acme/widgets" 180 1
          (sample_env [sample_ob 1001 "Cloning into 'widgets'..." None;
                       sample_ob 1181.5 "" None] 0) empty_world
        = (Returns "", w')
        ∧ published "t1" "timeout" 100 w'
        ∧ get_progress "t1" w' !! "status" <> Some (VStr "error").
Proof.
  apply (clone_timeout "t1" "https://github.com/acme/widgets" 180 1
           (sample_env [] 0) empty_world
           [sample_ob 1001 "Cloning into 'widgets'..." None] []
           (sample_ob 1181.5 "" None)); vm_compute; reflexivity.
Defined.

(** C3: a child that stays silent for longer than [max_seconds] and then
    exits is not reported as a timeout.  The loop reads the clock before it
    waits for a line, [readline] blocks until the child writes or closes its
    output, and the end of the output of an exited child leaves the loop
    without another look at the clock.  Here the clock is read 0.2 s after
    the start, the read ends 400 s later and [max_seconds] is 180: with exit
    code 0 the call returns the path of the clone and publishes mapped at 60,
    with exit code 128 it returns the empty string and publishes error. *)
Theorem silent_clone_outlives_deadline :
  let clone := fun code =>
    interruptible_clone "t1" "https://github.com/acme/widgets" 180 1
      (sample_env [silent_ob 1000.2 1400.2 code] code) empty_world in
  timed_out 1000 (ob_read_end (silent_ob 1000.2 1400.2 0)) 180 = true
  ∧ fst (clone 0) = Returns "/tmp/tmpk3x9_q2a/widgets"
  ∧ published "t1" "mapped" 60 (snd (clone 0))
  ∧ fst (clone 128) = Returns ""
  ∧ published "t1" "error" 100 (snd (clone 128))
  ∧ get_progress "t1" (snd (clone 128)) !! "message"
    = Some (VStr "git clone failed: 128").
Proof. repeat split; vm_compute; reflexivity. Qed.

Lemma string_length_app (a b : string) :
  String.length (a ++ b) = (String.length a + String.length b)%nat.
Proof. induction a as [|c a IH]; simpl; [done|]. by rewrite IH. Qed.

Lemma os_path_join_length a b :
  (0 < String.length a)%nat -> (0 < String.length (os_path_join a b))%nat.
Proof.
  intros Ha. unfold os_path_join.
  destruct (startswith "/" b) eqn:Hb.
  - destruct b; simpl in *; [discriminate|lia].
  - destruct (String.eqb a "" || endswith "/" a);
      rewrite ?string_length_app; simpl; lia.
Qed.

Lemma mkdtemp_length env w temp_dir w' :
  mkdtemp env w = Ok (temp_dir, w') -> (0 < String.length temp_dir)%nat.
Proof.
  unfold mkdtemp. destruct (env_gettempdir env) as [dir|e]; [|discriminate].
  intros H. injection H as <- _. unfold os_path_join. simpl.
  destruct (String.eqb dir "" || endswith "/" dir).
  - rewrite string_length_app. simpl. lia.
  - rewrite string_length_app. simpl. lia.
Qed.

Lemma clone_start_path task_id url depth env w pid path w0 :
  clone_start task_id url depth env w = Some (pid, path, w0) ->
  (0 < String.length path)%nat
  ∧ ∃ dir, env_gettempdir env = Ok dir
           ∧ path = os_path_join (os_path_join dir ("tmp" ++ env_tempname env))
                      (repo_name_of url).
Proof.
  unfold clone_start. destruct (url_ok url); [|discriminate].
  destruct (mkdtemp env w) as [[temp_dir w1]|e] eqn:Hm; [|discriminate].
  destruct (env_popen env); [|discriminate].
  intros H. injection H as _ <- _. split.
  - apply os_path_join_length. by eapply mkdtemp_length.
  - unfold mkdtemp in Hm. destruct (env_gettempdir env) as [dir|]; [|discriminate].
    injection Hm as <- _. by exists dir.
Qed.

(** C6: when the loop of [interruptible_clone], still running after [pre]
    and not timed out, reads the end of the diagnostic stream of
    a child that has exited, and the child's exit code is [code]: for
    [code = 0] the call publishes mapped at 60 and returns the non-empty
    repository path; otherwise it publishes error with the message
    "git clone failed: <code>" and returns the empty string. *)
Theorem clone_exit_code :
  forall (task_id url : string) (max_seconds depth : Z) (env : Env) (w : World)
         (pre post : list iter_obs) (ob : iter_obs) (code : Z),
    let before :=
      interruptible_clone task_id url max_seconds depth (with_iters pre env) w in
    fst before = Running ->
    timed_out (env_start env) (ob_now ob) max_seconds = false ->
    env_has_stderr env = true ->
    ob_readline ob = Ok "" ->
    is_Some (ob_poll ob) ->
    env_wait env = Ok code ->
    ∃ r w', interruptible_clone task_id url max_seconds depth
              (with_iters (pre ++ ob :: post) env) w = (Returns r, w')
            ∧ if code =? 0
              then (0 < String.length r)%nat
                   ∧ (∃ dir, env_gettempdir env = Ok dir
                             ∧ r = os_path_join
                                     (os_path_join dir ("tmp" ++ env_tempname env))
                                     (repo_name_of url))
                   ∧ published task_id "mapped" 60 w'
              else r = ""
                   ∧ published task_id "error" 100 w'
                   ∧ get_progress task_id w' !! "message"
                     = Some (VStr ("git clone failed: " ++ pretty code)).
Proof.
  intros task_id url max_seconds depth env w pre post ob code before
         Hrun Ht Hs Hline [c Hpoll] Hwait.
  pose proof (interruptible_clone_running_not_canceled _ _ _ _ _ _ Hrun) as Hc.
  fold before in Hc.
  destruct (interruptible_clone_resume _ _ _ _ _ _ _ (ob :: post) Hrun)
    as (pid & path & w0 & Hstart & ->).
  fold before. simpl. rewrite Hc, Ht, Hs, Hline, Hpoll. simpl. rewrite Hwait.
  destruct (clone_start_path _ _ _ _ _ _ _ _ Hstart) as (Hlen & Hdir).
  destruct (code =? 0) eqn:Hcode; do 2 eexists; (split; [reflexivity|]).
  - split; [done|]. split; [done|]. by apply published_set_progress.
  - split; [done|]. split; [by apply published_set_progress|].
    by rewrite set_progress_lookup.
Qed.

Lemma clone_exit_code_witness :
  (∃ r w', interruptible_clone "t1" "https://github.com/acme/widgets.git" 180 1
             (sample_env [sample_ob 1001 "Receiving objects: 100% (9/9), done." None;
                          sample_ob 1002 "" (Some 0)] 0) empty_world
           = (Returns r, w')
           ∧ (0 < String.length r)%nat
           ∧ (∃ dir, Ok "/tmp" = Ok dir
                     ∧ r = os_path_join (os_path_join dir ("tmp" ++ "k3x9_q2a"))
                             (repo_name_of "https://github.com/acme/widgets.git"))
           ∧ published "t1" "mapped" 60 w')
  ∧ (∃ r w', interruptible_clone "t1" "https://github.com/acme/widgets.git" 180 1
               (sample_env [sample_ob 1002 "" (Some 128)] 128) empty_world
             = (Returns r, w')
             ∧ r = ""
             ∧ published "t1" "error" 100 w'
             ∧ get_progress "t1" w' !! "message"
               = Some (VStr ("git clone failed: " ++ pretty 128))).
Proof.
  split.
  - apply (clone_exit_code "t1" "https://github.com/acme/widgets.git" 180 1
             (sample_env [] 0) empty_world
             [sample_ob 1001 "Receiving objects: 100% (9/9), done." None] []
             (sample_ob 1002 "" (Some 0)) 0); vm_compute; eauto.
  - apply (clone_exit_code "t1" "https://github.com/acme/widgets.git" 180 1
             (sample_env [] 128) empty_world [] []
             (sample_ob 1002 "" (Some 128)) 128); vm_compute; eauto.
Defined.

Example clone_exit_code_path :
  fst (interruptible_clone "t1" "https://github.com/acme/widgets.git" 180 1
         (sample_env [sample_ob 1002 "" (Some 0)] 0) empty_world)
  = Returns "/tmp/tmpk3x9_q2a/widgets".
Proof. vm_compute. reflexivity. Qed.

(** ** Cancellation *)

Lemma get_set_canceled task_id message w :
  get_progress task_id (set_canceled task_id message w)
  = (if String.eqb message "" then fun d => d
     else fun d => <[ "message" := VStr message ]> d)
      (py_update (get_progress task_id w)
         {[ "status" := VStr "canceled";
            "percent" := default (VInt 0) (get_progress task_id w !! "percent");
            "canceled" := VBool true ]}).
Proof.
  unfold set_canceled. rewrite get_progress_write.
  by destruct (String.eqb message "").
Qed.

Lemma set_canceled_lookup task_id message w k :
  get_progress task_id (set_canceled task_id message w) !! k
  = if String.eqb k "message" && negb (String.eqb message "") then Some (VStr message)
    else if String.eqb k "status" then Some (VStr "canceled")
    else if String.eqb k "percent"
         then Some (default (VInt 0) (get_progress task_id w !! "percent"))
    else if String.eqb k "canceled" then Some (VBool true)
    else get_progress task_id w !! k.
Proof.
  rewrite get_set_canceled. unfold py_update.
  assert (Hu : ∀ k, k ≠ "message" ∨ message = "" ->
    ((if String.eqb message "" then fun d => d
      else fun d => <[ "message" := VStr message ]> d)
       ({[ "status" := VStr "canceled";
           "percent" := default (VInt 0) (get_progress task_id w !! "percent");
           "canceled" := VBool true ]} ∪ get_progress task_id w)) !! k
    = ({[ "status" := VStr "canceled";
          "percent" := default (VInt 0) (get_progress task_id w !! "percent");
          "canceled" := VBool true ]} ∪ get_progress task_id w) !! k).
  { intros k' [Hk| ->]; [|done].
    destruct (String.eqb message ""); [done|]. by rewrite lookup_insert_ne. }
  destruct (String.eqb_spec k "message") as [->|Hm]; simpl.
  - destruct (String.eqb_spec message "") as [->|Hne]; simpl.
    + rewrite lookup_union, !lookup_insert_ne, lookup_singleton_ne by done.
      by rewrite (left_id_L None (∪)).
    + destruct (String.eqb_spec message ""); [done|]. by rewrite lookup_insert_eq.
  - rewrite Hu by (by left). rewrite lookup_union.
    destruct (String.eqb_spec k "status") as [->|H1];
      [by rewrite lookup_insert_eq, union_Some_l|].
    destruct (String.eqb_spec k "percent") as [->|H2];
      [by rewrite lookup_insert_ne, lookup_insert_eq, union_Some_l|].
    destruct (String.eqb_spec k "canceled") as [->|H3];
      [by rewrite !lookup_insert_ne, lookup_singleton_eq, union_Some_l|].
    rewrite !lookup_insert_ne, lookup_singleton_ne by done.
    by rewrite (left_id_L None (∪)).
Qed.

Lemma is_canceled_set_canceled task_id message w :
  is_canceled task_id (set_canceled task_id message w) = true.
Proof.
  unfold is_canceled, py_get. rewrite set_canceled_lookup. simpl. done.
Qed.

(** the case of [clone_start] in which the loop is reached *)
Ltac clone_start_reached :=
  unfold clone_start, mkdtemp;
  destruct (url_ok _); [|discriminate];
  destruct (env_gettempdir _); [|discriminate];
  destruct (env_popen _); [|discriminate].

Lemma clone_start_canceled task_id url depth env w pid path w0 :
  clone_start task_id url depth env w = Some (pid, path, w0) ->
  is_canceled task_id w0 = is_canceled task_id w.
Proof.
  clone_start_reached.
  intros H. injection H as _ _ <-.
  rewrite is_canceled_set_progress by done.
  by apply is_canceled_frame.
Qed.

Lemma clone_start_signal_log task_id url depth env w pid path w0 :
  clone_start task_id url depth env w = Some (pid, path, w0) ->
  signal_log w0 = signal_log w.
Proof.
  clone_start_reached.
  intros H. by injection H as _ _ <-.
Qed.

Lemma infer_not_canceled task_id w d :
  _infer_from_jobs task_id w = Some d -> d !! "canceled" = None.
Proof.
  unfold _infer_from_jobs.
  destruct (List.find _ _) as [job|]; [|discriminate].
  destruct (String.eqb (j_status job) "completed" || String.eqb (j_status job) "done");
    [|destruct (String.eqb (j_status job) "error"
                || String.eqb (j_status job) "timeout");
      [|destruct (String.eqb (j_status job) "canceled")]].
  all: intros H; injection H as <-; unfold set_if_truthy.
  all: repeat match goal with
              | |- context [if truthy ?v then _ else _] => destruct (truthy v)
              end.
  all: by rewrite ?lookup_insert_ne, ?lookup_singleton_ne by done.
Qed.

Lemma is_canceled_clear task_id w :
  is_canceled task_id (clear_progress task_id w) = false.
Proof.
  unfold is_canceled, py_get, get_progress, clear_progress. simpl.
  rewrite lookup_delete_eq.
  destruct (_infer_from_jobs task_id _) as [d|] eqn:Hd.
  - by rewrite (infer_not_canceled _ _ _ Hd).
  - done.
Qed.

(** C10: with no entry for [id] in the process registry, [cancel_clone(id)]
    returns false and writes a canceled record (status canceled, the canceled
    flag, the message "No running process"); every later
    [interruptible_clone] for [id] then returns the empty string, and when it
    gets as far as its loop it leaves at the first cancellation check, having
    signalled the child it spawned; after [clear_progress(id)] the flag is
    gone. *)
Theorem cancel_without_process :
  forall (task_id : string) (w : World),
    procs w !! task_id = None ->
    ∃ w1, cancel_clone task_id w = (false, w1)
      ∧ get_progress task_id w1 !! "status" = Some (VStr "canceled")
      ∧ get_progress task_id w1 !! "canceled" = Some (VBool true)
      ∧ get_progress task_id w1 !! "message" = Some (VStr "No running process")
      ∧ is_canceled task_id w1 = true
      ∧ is_canceled task_id (clear_progress task_id w1) = false
      ∧ ∀ (url : string) (max_seconds depth : Z) (env : Env),
          ∃ w2, interruptible_clone task_id url max_seconds depth env w1
                = (Returns "", w2)
            ∧ ∀ pid path w0,
                clone_start task_id url depth env w1 = Some (pid, path, w0) ->
                get_progress task_id w2 !! "status" = Some (VStr "canceled")
                ∧ get_progress task_id w2 !! "message" = Some (VStr "Canceled by user")
                ∧ signal_log w2 = (signal_log w1 ++ [(pid, SIGTERM); (pid, SIGKILL)])%list.
Proof.
  intros task_id w Hp. unfold cancel_clone. rewrite Hp.
  eexists. split; [reflexivity|].
  rewrite !set_canceled_lookup. simpl.
  do 3 (split; [done|]).
  split; [apply is_canceled_set_canceled|].
  split; [apply is_canceled_clear|].
  intros url max_seconds depth env.
  set (w1 := set_canceled task_id "No running process" w).
  destruct (clone_start task_id url depth env w1) as [[[pid path] w0]|] eqn:Hs.
  - rewrite (interruptible_clone_started _ _ _ _ _ _ _ _ _ Hs).
    pose proof (clone_start_canceled _ _ _ _ _ _ _ _ Hs) as Hc.
    unfold w1 in Hc. rewrite is_canceled_set_canceled in Hc.
    assert (Hl : ∀ obs, clone_loop task_id pid (env_has_stderr env) (env_start env)
                          max_seconds obs w0
                 = (LReturn "", terminate_and_kill pid
                                  (set_canceled task_id "Canceled by user" w0))).
    { intros [|ob obs]; simpl; by rewrite Hc. }
    rewrite Hl. unfold clone_finish. eexists. split; [reflexivity|].
    intros pid' path' w0' H. injection H as <- <- <-.
    rewrite (get_progress_frame task_id
               (set_canceled task_id "Canceled by user" w0)) by reflexivity.
    rewrite !set_canceled_lookup. simpl. do 2 (split; [done|]).
    rewrite (clone_start_signal_log _ _ _ _ _ _ _ _ Hs).
    by rewrite <- app_assoc.
  - destruct (interruptible_clone_not_started _ _ max_seconds _ _ _ Hs) as (w2 & -> & _).
    exists w2. split; [reflexivity|]. intros ? ? ? ?. discriminate.
Qed.

Lemma cancel_without_process_witness :
  ∃ w1, cancel_clone "t1" empty_world = (false, w1)
    ∧ get_progress "t1" w1 !! "status" = Some (VStr "canceled")
    ∧ get_progress "t1" w1 !! "canceled" = Some (VBool true)
    ∧ get_progress "t1" w1 !! "message" = Some (VStr "No running process")
    ∧ is_canceled "t1" w1 = true
    ∧ is_canceled "t1" (clear_progress "t1" w1) = false
    ∧ ∀ (url : string) (max_seconds depth : Z) (env : Env),
        ∃ w2, interruptible_clone "t1" url max_seconds depth env w1 = (Returns "", w2)
          ∧ ∀ pid path w0,
              clone_start "t1" url depth env w1 = Some (pid, path, w0) ->
              get_progress "t1" w2 !! "status" = Some (VStr "canceled")
              ∧ get_progress "t1" w2 !! "message" = Some (VStr "Canceled by user")
              ∧ signal_log w2 = (signal_log w1 ++ [(pid, SIGTERM); (pid, SIGKILL)])%list.
Proof. apply (cancel_without_process "t1" empty_world). reflexivity. Defined.

Example cancel_then_clone :
  fst (interruptible_clone "t1" "https://github.com/acme/widgets" 180 1
         (sample_env [sample_ob 1001 "" (Some 0)] 0)
         (snd (cancel_clone "t1" empty_world)))
  = Returns "".
Proof. vm_compute. reflexivity. Qed.

(** ** The percent values published by the loop of the clone worker *)

Lemma mapped_percent_mono p q m n :
  p <= q -> mapped_percent p = Ok m -> mapped_percent q = Ok n -> m <= n.
Proof.
  unfold mapped_percent. intros Hpq.
  destruct (FLOAT_OVERFLOW <=? p); [discriminate|].
  destruct (FLOAT_OVERFLOW <=? q); [discriminate|].
  intros H1 H2. injection H1 as <-. injection H2 as <-.
  apply Z.add_le_mono_l, Z.div_le_mono; lia.
Qed.

Lemma published_percents_write task_id task_id' data w :
  published_percents task_id (write_progress task_id' data w)
  = (published_percents task_id w
     ++ if String.eqb (_path task_id') (_path task_id)
        then match data !! "percent" with Some (VInt n) => [n] | _ => [] end
        else [])%list.
Proof.
  unfold published_percents, write_progress, log_progress. simpl.
  rewrite omap_app. f_equal. simpl.
  destruct (String.eqb (_path task_id') (_path task_id)); [|done].
  by destruct (data !! "percent") as [[]|].
Qed.

Lemma holds_percent_frame task_id q w w' :
  progress_files w' = progress_files w ->
  holds_percent task_id q w -> holds_percent task_id q w'.
Proof. intros Hp (d & H1 & H2). exists d. by rewrite Hp. Qed.

Lemma holds_percent_get task_id task_id' q w :
  _path task_id' = _path task_id ->
  holds_percent task_id q w ->
  get_progress task_id' w !! "percent" = Some (VInt q).
Proof.
  intros Hp (d & H1 & H2). unfold get_progress. by rewrite Hp, H1.
Qed.

Lemma file_after_write task_id data w :
  progress_files (write_progress task_id data w) !! _path task_id = Some data.
Proof. unfold write_progress. simpl. apply lookup_insert_eq. Qed.

Lemma file_after_write_ne task_id task_id' data w :
  _path task_id' <> _path task_id ->
  progress_files (write_progress task_id' data w) !! _path task_id
  = progress_files w !! _path task_id.
Proof. intros H. unfold write_progress. simpl. by apply lookup_insert_ne. Qed.

Lemma set_canceled_percents task_id task_id' message q w :
  holds_percent task_id q w ->
  holds_percent task_id q (set_canceled task_id' message w)
  ∧ ∃ new, published_percents task_id (set_canceled task_id' message w)
           = (published_percents task_id w ++ new)%list
           ∧ Forall (eq q) new.
Proof.
  intros Hq.
  destruct (String.eqb_spec (_path task_id') (_path task_id)) as [Hp|Hp].
  - assert (Hd : get_progress task_id' (set_canceled task_id' message w) !! "percent"
                 = Some (VInt q)).
    { rewrite set_canceled_lookup. simpl.
      by rewrite (holds_percent_get _ _ _ _ Hp Hq). }
    revert Hd. unfold set_canceled at 1 2 3.
    rewrite get_progress_write. intros Hd. split.
    + eexists. rewrite <- Hp. split; [apply file_after_write|exact Hd].
    + rewrite published_percents_write, Hp, String.eqb_refl, Hd.
      eexists. split; [reflexivity|]. by repeat constructor.
  - unfold set_canceled. split.
    + destruct Hq as (d & H1 & H2). exists d.
      by rewrite file_after_write_ne.
    + rewrite published_percents_write.
      destruct (String.eqb_spec (_path task_id') (_path task_id)); [done|].
      exists []. by rewrite app_nil_r.
Qed.

Lemma run_ext_call_percents task_id c q w :
  holds_percent task_id q w ->
  holds_percent task_id q (run_ext_call w c)
  ∧ ∃ new, published_percents task_id (run_ext_call w c)
           = (published_percents task_id w ++ new)%list
           ∧ Forall (eq q) new.
Proof.
  intros Hq. destruct c as [task_id' message|task_id']; simpl.
  - by apply set_canceled_percents.
  - unfold cancel_clone. destruct (procs w !! task_id') as [pid|]; simpl.
    + destruct (set_canceled_percents task_id task_id' "Canceled by user" q
                  (terminate_and_kill pid w)) as (H1 & new & H2 & H3).
      { by eapply holds_percent_frame; [|exact Hq]. }
      split; [by eapply holds_percent_frame; [|exact H1]|].
      exists new. split; [exact H2|exact H3].
    + by apply set_canceled_percents.
Qed.

Lemma ext_calls_percents task_id cs q w :
  holds_percent task_id q w ->
  holds_percent task_id q (fold_left run_ext_call cs w)
  ∧ ∃ new, published_percents task_id (fold_left run_ext_call cs w)
           = (published_percents task_id w ++ new)%list
           ∧ Forall (eq q) new.
Proof.
  revert w. induction cs as [|c cs IH]; intros w Hq; simpl.
  - split; [done|]. exists []. by rewrite app_nil_r.
  - destruct (run_ext_call_percents task_id c q w Hq) as (H1 & new1 & H2 & H3).
    destruct (IH _ H1) as (H4 & new2 & H5 & H6).
    split; [done|]. exists (new1 ++ new2)%list. split.
    + by rewrite H5, H2, app_assoc.
    + by apply Forall_app.
Qed.

Lemma meanwhile_percents task_id ob q w :
  holds_percent task_id q w ->
  holds_percent task_id q (meanwhile ob w)
  ∧ ∃ new, published_percents task_id (meanwhile ob w)
           = (published_percents task_id w ++ new)%list
           ∧ Forall (eq q) new.
Proof.
  intros Hq. unfold meanwhile.
  apply (ext_calls_percents task_id (ob_others ob) q
           (child_writes (ob_child_fs ob) w)).
  by eapply holds_percent_frame; [|exact Hq].
Qed.

Lemma set_progress_percents task_id status p extra w :
  extra !! "percent" = None ->
  holds_percent task_id (Z.max 0 (Z.min 100 p))
    (set_progress task_id status p extra w)
  ∧ published_percents task_id (set_progress task_id status p extra w)
    = (published_percents task_id w ++ [Z.max 0 (Z.min 100 p)])%list.
Proof.
  intros He.
  pose proof (set_progress_lookup task_id status p extra w "percent") as Hd.
  rewrite He in Hd. simpl in Hd. revert Hd.
  unfold set_progress at 1 2 3. rewrite get_progress_write. intros Hd. split.
  - eexists. split; [apply file_after_write|exact Hd].
  - by rewrite published_percents_write, String.eqb_refl, Hd.
Qed.

Lemma sorted_const_prefix (q : Z) (l1 l2 : list Z) :
  Forall (eq q) l1 -> Sorted Z.le (q :: l2) -> Sorted Z.le (q :: l1 ++ l2).
Proof.
  induction 1 as [|x l1 <- _ IH]; intros H; simpl; [done|].
  constructor; [by apply IH|]. constructor. lia.
Qed.

Lemma forall_le_const_prefix (q : Z) (l1 l2 : list Z) :
  q <= 100 -> Forall (eq q) l1 -> Forall (fun x => x <= 100) l2 ->
  Forall (fun x => x <= 100) (l1 ++ l2).
Proof.
  intros Hq H1 H2. apply Forall_app. split; [|done].
  eapply Forall_impl; [exact H1|]. intros x <-. exact Hq.
Qed.

Lemma take_while_digits s :
  Forall (fun c => is_digit c = true) (list_ascii_of_string (take_while is_digit s)).
Proof.
  induction s as [|a s IH]; simpl; [constructor|].
  destruct (is_digit a) eqn:Ha; simpl; [by constructor|constructor].
Qed.

Lemma match_here_digits label s ds :
  match_here label s = Some ds -> ∃ r, ds = take_while is_digit r.
Proof.
  unfold match_here. destruct (startswith label s); [|discriminate].
  match goal with |- context [if ?c then _ else _] => destruct c end;
    [|discriminate].
  intros H. injection H as <-. eauto.
Qed.

Lemma search_digits label line ds :
  search label line = Some ds -> ∃ r, ds = take_while is_digit r.
Proof.
  induction line as [|a line IH]; simpl.
  - destruct (match_here label "") eqn:Hm; [|discriminate].
    intros H. injection H as <-. by eapply match_here_digits.
  - destruct (match_here label (String a line)) eqn:Hm.
    + intros H. injection H as <-. by eapply match_here_digits.
    + exact IH.
Qed.

Lemma digits_value_nonneg cs acc :
  Forall (fun c => is_digit c = true) cs -> 0 <= acc ->
  0 <= fold_left (fun acc c => 10 * acc + (ascii_code c - 48)) cs acc.
Proof.
  intros H. revert acc. induction H as [|c cs Hc _ IH]; intros acc Hacc; simpl.
  - done.
  - apply IH. unfold is_digit in Hc. apply andb_true_iff in Hc as [Hc _].
    apply Z.leb_le in Hc. lia.
Qed.

Lemma int_of_digits_nonneg r p :
  int_of_digits (take_while is_digit r) = Some p -> 0 <= p.
Proof.
  unfold int_of_digits.
  match goal with |- context [if ?c then _ else _] => destruct c end;
    [discriminate|].
  intros H. injection H as <-.
  apply digits_value_nonneg; [apply take_while_digits|lia].
Qed.

Lemma parse_progress_nonneg line p : _parse_progress line = Some p -> 0 <= p.
Proof.
  unfold _parse_progress.
  destruct (search RECV line) as [ds|] eqn:H1.
  { apply search_digits in H1 as [r ->]. apply int_of_digits_nonneg. }
  destruct (search RESV line) as [ds|] eqn:H2.
  { apply search_digits in H2 as [r ->]. apply int_of_digits_nonneg. }
  destruct (search CHK line) as [ds|] eqn:H3; [|discriminate].
  apply search_digits in H3 as [r ->]. apply int_of_digits_nonneg.
Qed.

Lemma line_percents_nonneg obs : Forall (fun p => 0 <= p) (line_percents obs).
Proof.
  apply Forall_forall. intros p Hp. unfold line_percents in Hp.
  apply list_elem_of_omap in Hp as (ob & _ & Hob).
  destruct (ob_readline ob) as [line|]; [|discriminate].
  by eapply parse_progress_nonneg.
Qed.

Lemma clone_loop_percents task_id pid hs start max_seconds obs :
  forall w q,
    holds_percent task_id q w -> q <= 100 ->
    Sorted Z.le (line_percents obs) ->
    Forall (fun p => forall m, mapped_percent p = Ok m -> q <= Z.max 0 (Z.min 100 m))
           (line_percents obs) ->
    ∃ new, published_percents task_id
             (snd (clone_loop task_id pid hs start max_seconds obs w))
           = (published_percents task_id w ++ new)%list
           ∧ Sorted Z.le (q :: new)
           ∧ Forall (fun x => x <= 100) new.
Proof.
  induction obs as [|ob obs IH]; intros w q Hq Hle Hsort Hall.
  - simpl. destruct (is_canceled task_id w).
    + simpl. destruct (set_canceled_percents task_id task_id "Canceled by user" q w Hq)
        as (_ & new & H1 & H2).
      exists new. split; [exact H1|]. split.
      * rewrite <- (app_nil_r new). apply sorted_const_prefix; [done|].
        by repeat constructor.
      * rewrite <- (app_nil_r new). by apply (forall_le_const_prefix q).
    + exists []. simpl. rewrite app_nil_r. by repeat constructor.
  - simpl. destruct (is_canceled task_id w).
    { simpl. destruct (set_canceled_percents task_id task_id "Canceled by user" q w Hq)
        as (_ & new & H1 & H2).
      exists new. split; [exact H1|]. split.
      * rewrite <- (app_nil_r new). apply sorted_const_prefix; [done|].
        by repeat constructor.
      * rewrite <- (app_nil_r new). by apply (forall_le_const_prefix q). }
    destruct (timed_out start (ob_now ob) max_seconds).
    { simpl.
      destruct (set_progress_percents task_id "timeout" 100
                  {[ "message" := VStr "Clone timed out" ]} w) as (_ & H1); [done|].
      exists [100]. split; [exact H1|].
      split; repeat constructor; lia. }
    destruct (negb hs).
    { exists []. simpl. rewrite app_nil_r. by repeat constructor. }
    destruct (meanwhile_percents task_id ob q w Hq) as (Hq1 & new1 & Hp1 & Hc1).
    assert (Hstop : ∃ new, published_percents task_id (meanwhile ob w)
                           = (published_percents task_id w ++ new)%list
                           ∧ Sorted Z.le (q :: new)
                           ∧ Forall (fun x => x <= 100) new).
    { exists new1. split; [exact Hp1|]. split.
      - rewrite <- (app_nil_r new1). apply sorted_const_prefix; [done|].
        by repeat constructor.
      - rewrite <- (app_nil_r new1). by apply (forall_le_const_prefix q). }
    assert (Hgo : line_percents (ob :: obs) = line_percents obs ->
                  ∃ new, published_percents task_id
                           (snd (clone_loop task_id pid hs start max_seconds obs
                                   (meanwhile ob w)))
                         = (published_percents task_id w ++ new)%list
                         ∧ Sorted Z.le (q :: new)
                         ∧ Forall (fun x => x <= 100) new).
    { intros Heq. rewrite Heq in Hsort, Hall.
      destruct (IH _ q Hq1 Hle Hsort Hall) as (new2 & Hp2 & Hs2 & Hf2).
      exists (new1 ++ new2)%list. split; [by rewrite Hp2, Hp1, app_assoc|].
      split; [by apply sorted_const_prefix|by apply (forall_le_const_prefix q)]. }
    destruct (ob_readline ob) as [line|e] eqn:Hline; [|exact Hstop].
    destruct (String.eqb_spec line "") as [->|Hne].
    { destruct (ob_poll ob); [exact Hstop|].
      apply Hgo. unfold line_percents. simpl. by rewrite Hline. }
    destruct (_parse_progress line) as [p|] eqn:Hparse.
    2:{ apply Hgo. unfold line_percents. simpl. by rewrite Hline, Hparse. }
    assert (Heq : line_percents (ob :: obs) = p :: line_percents obs).
    { unfold line_percents. simpl. by rewrite Hline, Hparse. }
    rewrite Heq in Hsort, Hall.
    destruct (mapped_percent p) as [m|e] eqn:Hm; [|exact Hstop].
    set (q' := Z.max 0 (Z.min 100 m)).
    destruct (set_progress_percents task_id "cloning" m
                {[ "stage" := VStr "clone" ]} (meanwhile ob w)) as (Hq2 & Hp2); [done|].
    fold q' in Hq2, Hp2.
    assert (Hqq : q <= q') by (inversion Hall; subst; eauto).
    assert (Hall' : Forall (fun p' => forall m', mapped_percent p' = Ok m' ->
                                        q' <= Z.max 0 (Z.min 100 m'))
                      (line_percents obs)).
    { apply Sorted_StronglySorted in Hsort; [|intros ? ? ? ? ?; lia].
      inversion Hsort as [|? ? _ Hfa]; subst.
      eapply Forall_impl; [exact Hfa|]. intros p' Hpp' m' Hm'.
      pose proof (mapped_percent_mono _ _ _ _ Hpp' Hm Hm'). unfold q'. lia. }
    destruct (IH _ q' Hq2 ltac:(unfold q'; lia)
                ltac:(by inversion Hsort) Hall') as (new2 & Hp3 & Hs3 & Hf3).
    exists (new1 ++ q' :: new2)%list. split.
    + rewrite Hp3, Hp2, Hp1. by rewrite <- !app_assoc.
    + split.
      * apply sorted_const_prefix; [done|]. constructor; [done|]. by constructor.
      * apply (forall_le_const_prefix q); [done..|].
        constructor; [unfold q'; lia|done].
Qed.

Lemma clone_start_holds task_id url depth env w pid path w0 :
  clone_start task_id url depth env w = Some (pid, path, w0) ->
  holds_percent task_id 20 w0.
Proof.
  clone_start_reached.
  intros H. injection H as _ _ <-.
  by apply (set_progress_percents task_id "cloning" 20).
Qed.

(** C9, as amended: the mapping of a phase percent is monotone, and in one
    execution of the loop of [interruptible_clone], started by a call after it
    published 20, the percent values written to the progress file are
    non-decreasing from 20 and at most 100 when the percent values carried by
    the lines read are non-decreasing (they are not when a new phase starts
    over at a lower percent). *)
Theorem clone_loop_percents_sorted :
  forall (task_id url : string) (max_seconds depth : Z) (env : Env) (w : World)
         (pid : nat) (path : string) (w0 : World),
    clone_start task_id url depth env w = Some (pid, path, w0) ->
    Sorted Z.le (line_percents (env_iters env)) ->
    (∃ new, published_percents task_id
              (snd (clone_loop task_id pid (env_has_stderr env) (env_start env)
                      max_seconds (env_iters env) w0))
            = (published_percents task_id w0 ++ new)%list
            ∧ Sorted Z.le (20 :: new)
            ∧ Forall (fun x => x <= 100) new)
    ∧ forall p q m n, p <= q -> mapped_percent p = Ok m -> mapped_percent q = Ok n ->
                      m <= n.
Proof.
  intros task_id url max_seconds depth env w pid path w0 Hs Hsort.
  split; [|apply mapped_percent_mono].
  apply clone_loop_percents; [by eapply clone_start_holds|lia|done|].
  eapply Forall_impl; [apply line_percents_nonneg|].
  intros p Hp m. unfold mapped_percent.
  destruct (FLOAT_OVERFLOW <=? p); [discriminate|].
  intros H. injection H as <-.
  simpl in Hp. assert (0 <= 3 * p / 5) by (apply Z.div_pos; lia). lia.
Qed.

Lemma clone_loop_percents_sorted_witness :
  ∃ pid path w0,
    clone_start "t1" "https://github.com/acme/widgets" 1
      (sample_env [sample_ob 1001 "Receiving objects:  10% (1/10)" None;
                   sample_ob 1002 "remote: Total 10 (delta 0)" None;
                   sample_ob 1003 "Receiving objects:  55% (6/10)" None;
                   sample_ob 1004 "Receiving objects: 100% (10/10), done." None] 0)
      empty_world = Some (pid, path, w0)
    ∧ ∃ new, published_percents "t1"
               (snd (clone_loop "t1" pid true 1000 180
                       [sample_ob 1001 "Receiving objects:  10% (1/10)" None;
                        sample_ob 1002 "remote: Total 10 (delta 0)" None;
                        sample_ob 1003 "Receiving objects:  55% (6/10)" None;
                        sample_ob 1004 "Receiving objects: 100% (10/10), done." None]
                       w0))
             = (published_percents "t1" w0 ++ new)%list
             ∧ Sorted Z.le (20 :: new)
             ∧ Forall (fun x => x <= 100) new.
Proof.
  do 3 eexists. split; [vm_compute; reflexivity|].
  refine (proj1 (clone_loop_percents_sorted "t1" "https://github.com/acme/widgets"
                   180 1
                   (sample_env
                      [sample_ob 1001 "Receiving objects:  10% (1/10)" None;
                       sample_ob 1002 "remote: Total 10 (delta 0)" None;
                       sample_ob 1003 "Receiving objects:  55% (6/10)" None;
                       sample_ob 1004 "Receiving objects: 100% (10/10), done." None] 0)
                   empty_world _ _ _ _ _)).
  - vm_compute. reflexivity.
  - assert (H : line_percents
                  (env_iters
                     (sample_env
                        [sample_ob 1001 "Receiving objects:  10% (1/10)" None;
                         sample_ob 1002 "remote: Total 10 (delta 0)" None;
                         sample_ob 1003 "Receiving objects:  55% (6/10)" None;
                         sample_ob 1004 "Receiving objects: 100% (10/10), done." None]
                        0)) = [10; 55; 100]) by (vm_compute; reflexivity).
    rewrite H. repeat constructor; lia.
Defined.

(** C9 fails as stated: when the second phase of a clone starts, the percent
    published by the loop falls from 80 back to 20. *)
Lemma clone_percents_fall_back :
  ~ Sorted Z.le
      (published_percents "t1"
         (snd (interruptible_clone "t1" "https://github.com/acme/widgets" 180 1
                 (sample_env
                    [sample_ob 1001 "Receiving objects: 100% (10/10), done." None;
                     sample_ob 1002 "Resolving deltas:   0% (0/4)" None] 0)
                 empty_world))).
Proof.
  assert (H : published_percents "t1"
                (snd (interruptible_clone "t1" "https://github.com/acme/widgets" 180 1
                        (sample_env
                           [sample_ob 1001 "Receiving objects: 100% (10/10), done." None;
                            sample_ob 1002 "Resolving deltas:   0% (0/4)" None] 0)
                        empty_world)) = [20; 80; 20]) by (vm_compute; reflexivity).
  rewrite H. intros Hs.
  inversion Hs as [|? ? Hs1 _]; subst.
  inversion Hs1 as [|? ? _ Hh]; subst.
  inversion Hh; subst. lia.
Qed.

(** ** The repository cache *)

Lemma filter_chars_head keep s a r :
  filter_chars keep s = String a r -> keep a = true.
Proof.
  induction s as [|c s IH]; simpl; [discriminate|].
  destruct (keep c) eqn:Hc; [|exact IH].
  intros H. by injection H as <- _.
Qed.

Lemma key_not_absolute url k : _key url = Ok k -> startswith "/" k = false.
Proof.
  unfold _key. destruct (str_encode url) as [data|e]; [|discriminate].
  intros H. injection H as <-.
  destruct (filter_chars _ (repo_name_of url)) as [|a r] eqn:Hf; [reflexivity|].
  apply filter_chars_head in Hf.
  change (startswith "/" (String a r ++ "-" ++ substring 0 8 (sha1_hexdigest data)))
    with (if Ascii.eqb "/" a then true else false).
  destruct (Ascii.eqb_spec "/"%char a) as [<-|]; [discriminate|reflexivity].
Qed.

Lemma cache_path_eq url k :
  _key url = Ok k -> os_path_join CACHE_ROOT k = "outputs/cache/" ++ k.
Proof. intros H. unfold os_path_join. by rewrite (key_not_absolute _ _ H). Qed.

Lemma cache_path_not_empty url k :
  _key url = Ok k -> String.eqb (os_path_join CACHE_ROOT k) "" = false.
Proof. intros H. by rewrite (cache_path_eq _ _ H). Qed.

Lemma get_cached_path_key url k w :
  _key url = Ok k ->
  get_cached_path url w
  = Ok (if path_exists (os_path_join CACHE_ROOT k) w
           && path_isdir (os_path_join CACHE_ROOT k) w
           && path_exists (os_path_join (os_path_join CACHE_ROOT k) ".git") w
        then Some (os_path_join CACHE_ROOT k) else None).
Proof. intros H. unfold get_cached_path. by rewrite H. Qed.

Lemma get_cached_path_ok url w o :
  get_cached_path url w = Ok o -> ∃ k, _key url = Ok k.
Proof.
  unfold get_cached_path. destruct (_key url) as [k|e]; [eauto|discriminate].
Qed.

Lemma get_cached_path_some url k w p :
  _key url = Ok k ->
  get_cached_path url w = Ok (Some p) -> p = os_path_join CACHE_ROOT k.
Proof.
  intros Hk. rewrite (get_cached_path_key _ _ _ Hk).
  match goal with |- context [if ?c then _ else _] => destruct c end;
    [|discriminate].
  intros H. by injection H as <-.
Qed.

Lemma get_cached_path_not_dir url k w :
  _key url = Ok k ->
  fs w !! os_path_join CACHE_ROOT k <> Some Dir ->
  get_cached_path url w = Ok None.
Proof.
  intros Hk H. rewrite (get_cached_path_key _ _ _ Hk). unfold path_exists, path_isdir.
  destruct (fs w !! os_path_join CACHE_ROOT k) as [[]|]; try done.
Qed.

Lemma cache_handler_error task_id e w :
  ∃ w', cache_handler task_id e w = (Returns "", w')
        ∧ published_error task_id w' ∧ fs w' = fs w ∧ spawn_log w' = spawn_log w.
Proof.
  destruct e as [m|m]; simpl; eexists; (split; [reflexivity|]);
    (split; [by eapply published_error_set_progress|done]).
Qed.

Lemma clone_into_cache_started task_id url cache_path timeout depth env w pid w0 :
  cache_start task_id url cache_path depth env w = Some (pid, w0) ->
  clone_into_cache task_id url cache_path timeout depth env w
  = cache_finish task_id cache_path env
      (cache_loop task_id pid (env_has_stderr env) (env_start env) timeout
         (env_iters env) w0).
Proof.
  unfold cache_start, clone_into_cache, cache_finish.
  destruct (makedirs_cache_root _) as [w1|e]; [|discriminate].
  destruct (negb (env_which_git env)); [discriminate|].
  destruct (env_popen env) as [pid'|e]; [|discriminate].
  intros H. injection H as <- <-. reflexivity.
Qed.

Lemma clone_into_cache_not_started task_id url cache_path timeout depth env w :
  cache_start task_id url cache_path depth env w = None ->
  error_return task_id (clone_into_cache task_id url cache_path timeout depth env w)
  ∧ spawn_log (snd (clone_into_cache task_id url cache_path timeout depth env w))
    = spawn_log w.
Proof.
  unfold cache_start, clone_into_cache, error_return.
  set (w1 := if path_exists cache_path w
             then with_fs (rmtree cache_path (fs w)) w else w).
  assert (Hsp : spawn_log w1 = spawn_log w) by (unfold w1; by destruct (path_exists _ _)).
  destruct (makedirs_cache_root w1) as [w2|e] eqn:Hmk.
  - assert (Hsp2 : spawn_log w2 = spawn_log w).
    { revert Hmk. unfold makedirs_cache_root.
      destruct (fs w1 !! CACHE_ROOT) as [[]|].
      - intros H. by injection H as <-.
      - discriminate.
      - destruct (fs w1 !! "outputs") as [[]|]; try discriminate;
          intros H; by injection H as <-. }
    destruct (negb (env_which_git env)).
    + intros _. simpl. split; [|done].
      split; [done|]. by eapply published_error_set_progress.
    + destruct (env_popen env) as [pid'|e]; [discriminate|]. intros _.
      destruct (cache_handler_error task_id e w2) as (w' & -> & H1 & _ & H2).
      simpl. by rewrite H2.
  - intros _.
    destruct (cache_handler_error task_id e w1) as (w' & -> & H1 & _ & H2).
    simpl. by rewrite H2.
Qed.

Lemma ext_calls_frame cs w :
  fs (fold_left run_ext_call cs w) = fs w
  ∧ spawn_log (fold_left run_ext_call cs w) = spawn_log w.
Proof.
  revert w. induction cs as [|c cs IH]; intros w; simpl; [done|].
  destruct (IH (run_ext_call w c)) as [-> ->].
  destruct c as [task_id message|task_id]; simpl; [done|].
  unfold cancel_clone. by destruct (procs w !! task_id).
Qed.

Lemma meanwhile_fs ob w :
  fs (meanwhile ob w) = fold_left apply_fs_op (ob_child_fs ob) (fs w).
Proof. unfold meanwhile. by rewrite (proj1 (ext_calls_frame _ _)). Qed.

Lemma meanwhile_spawn_log ob w : spawn_log (meanwhile ob w) = spawn_log w.
Proof. unfold meanwhile. by rewrite (proj2 (ext_calls_frame _ _)). Qed.

Lemma apply_fs_op_not_dir p f op :
  match op with Mkdir q => String.eqb q p | _ => false end = false ->
  f !! p <> Some Dir -> apply_fs_op f op !! p <> Some Dir.
Proof.
  intros Hop Hf. destruct op as [q|q|q]; simpl.
  - apply String.eqb_neq in Hop.
    destruct (f !! q); [done|]. by rewrite lookup_insert_ne.
  - destruct (f !! q) as [[]|] eqn:Hq; [done|..];
      (destruct (decide (q = p)) as [->|Hne];
       [by rewrite lookup_insert_eq|by rewrite lookup_insert_ne]).
  - intros H. apply map_lookup_filter_Some in H as [H _]. done.
Qed.

Lemma child_ops_not_dir p ops f :
  existsb (fun op => match op with Mkdir q => String.eqb q p | _ => false end) ops
    = false ->
  f !! p <> Some Dir -> fold_left apply_fs_op ops f !! p <> Some Dir.
Proof.
  revert f. induction ops as [|op ops IH]; intros f Hops Hf; simpl in *; [done|].
  apply orb_false_iff in Hops as [H1 H2].
  apply IH; [done|]. by apply apply_fs_op_not_dir.
Qed.

Section CacheLoop.
Variables (task_id : string) (pid : nat) (hs : bool) (start : Q) (timeout : Z).

Lemma cache_loop_app pre post w wl :
  cache_loop task_id pid hs start timeout pre w = (LRunning, wl) ->
  cache_loop task_id pid hs start timeout (pre ++ post) w
  = cache_loop task_id pid hs start timeout post wl.
Proof.
  revert w. induction pre as [|ob pre IH]; intros w H; simpl in *.
  - destruct (is_canceled task_id w) eqn:Hc; [discriminate|].
    injection H as <-. destruct post; simpl; by rewrite Hc.
  - destruct (is_canceled task_id w); [discriminate|].
    destruct (timed_out start (ob_now ob) timeout); [discriminate|].
    destruct (negb hs); [discriminate|].
    destruct (ob_readline ob) as [line|e]; [|discriminate].
    destruct (String.eqb line "").
    + destruct (ob_poll ob); [discriminate|]. by apply IH.
    + by apply IH.
Qed.

Lemma cache_loop_spawn_log obs w :
  spawn_log (snd (cache_loop task_id pid hs start timeout obs w)) = spawn_log w.
Proof.
  revert w. induction obs as [|ob obs IH]; intros w; simpl.
  - by destruct (is_canceled task_id w).
  - destruct (is_canceled task_id w); [done|].
    destruct (timed_out start (ob_now ob) timeout); [done|].
    destruct (negb hs); [done|].
    destruct (ob_readline ob) as [line|e]; [|apply meanwhile_spawn_log].
    destruct (String.eqb line "").
    + destruct (ob_poll ob); [apply meanwhile_spawn_log|].
      by rewrite IH, meanwhile_spawn_log.
    + by rewrite IH, meanwhile_spawn_log.
Qed.

Lemma cache_loop_not_dir p obs w :
  child_mkdirs p obs = false ->
  fs w !! p <> Some Dir ->
  fs (snd (cache_loop task_id pid hs start timeout obs w)) !! p <> Some Dir.
Proof.
  revert w. induction obs as [|ob obs IH]; intros w Hobs Hw; simpl.
  - by destruct (is_canceled task_id w).
  - simpl in Hobs. apply orb_false_iff in Hobs as [Hob Hobs].
    assert (Hm : fs (meanwhile ob w) !! p <> Some Dir).
    { rewrite meanwhile_fs. by apply child_ops_not_dir. }
    destruct (is_canceled task_id w); [done|].
    destruct (timed_out start (ob_now ob) timeout); [done|].
    destruct (negb hs); [done|].
    destruct (ob_readline ob) as [line|e]; [|done].
    destruct (String.eqb line "").
    + destruct (ob_poll ob); [done|]. by apply IH.
    + by apply IH.
Qed.

Lemma cache_loop_return obs w v wl :
  cache_loop task_id pid hs start timeout obs w = (LReturn v, wl) -> v = "".
Proof.
  revert w. induction obs as [|ob obs IH]; intros w; simpl.
  - destruct (is_canceled task_id w); [|discriminate].
    intros H. by injection H as <- _.
  - destruct (is_canceled task_id w); [intros H; by injection H as <- _|].
    destruct (timed_out start (ob_now ob) timeout); [intros H; by injection H as <- _|].
    destruct (negb hs); [discriminate|].
    destruct (ob_readline ob) as [line|e]; [|discriminate].
    destruct (String.eqb line "").
    + destruct (ob_poll ob); [discriminate|]. apply IH.
    + apply IH.
Qed.

Lemma cache_loop_ends obs w :
  deadline_seen start timeout obs = true ->
  fst (cache_loop task_id pid hs start timeout obs w) <> LRunning.
Proof.
  revert w. induction obs as [|ob obs IH]; intros w; simpl; [discriminate|].
  intros H. destruct (is_canceled task_id w); [done|].
  destruct (timed_out start (ob_now ob) timeout); [done|]. simpl in H.
  destruct (negb hs); [done|].
  destruct (ob_readline ob) as [line|e]; [|done].
  destruct (String.eqb line "").
  - destruct (ob_poll ob); [done|]. by apply IH.
  - by apply IH.
Qed.

End CacheLoop.

Lemma rmtree_not_dir p f : rmtree p f !! p <> Some Dir.
Proof.
  unfold rmtree. destruct (f !! p) as [[]|] eqn:Hp; try (by rewrite Hp).
  intros H. apply map_lookup_filter_Some in H as [_ H]. simpl in H.
  unfold under in H. by rewrite String.eqb_refl in H.
Qed.

Lemma cleared_not_dir p w :
  fs (if path_exists p w then with_fs (rmtree p (fs w)) w else w) !! p <> Some Dir.
Proof.
  unfold path_exists. destruct (fs w !! p) eqn:Hp; simpl.
  - apply rmtree_not_dir.
  - by rewrite Hp.
Qed.

Lemma makedirs_not_dir url k w w' :
  _key url = Ok k ->
  makedirs_cache_root w = Ok w' ->
  fs w !! os_path_join CACHE_ROOT k <> Some Dir ->
  fs w' !! os_path_join CACHE_ROOT k <> Some Dir.
Proof.
  intros Hk. rewrite (cache_path_eq _ _ Hk). unfold makedirs_cache_root.
  destruct (fs w !! CACHE_ROOT) as [[]|].
  - intros H. by injection H as <-.
  - discriminate.
  - destruct (fs w !! "outputs") as [[]|]; try discriminate;
      intros H; injection H as <-; simpl;
      rewrite !lookup_insert_ne; done.
Qed.

Lemma makedirs_spawn_log w w' :
  makedirs_cache_root w = Ok w' -> spawn_log w' = spawn_log w.
Proof.
  unfold makedirs_cache_root.
  destruct (fs w !! CACHE_ROOT) as [[]|].
  - intros H. by injection H as <-.
  - discriminate.
  - destruct (fs w !! "outputs") as [[]|]; try discriminate;
      intros H; by injection H as <-.
Qed.

Lemma cache_finish_frame task_id cache_path env r :
  fs (snd (cache_finish task_id cache_path env r)) = fs (snd r)
  ∧ spawn_log (snd (cache_finish task_id cache_path env r)) = spawn_log (snd r).
Proof.
  destruct r as [[v| |e|] w]; simpl; try done.
  - destruct (env_wait env) as [code|e].
    + by destruct (code =? 0).
    + by destruct e.
  - by destruct e.
Qed.

Lemma clone_into_cache_not_dir task_id url k timeout depth env w :
  _key url = Ok k ->
  child_mkdirs (os_path_join CACHE_ROOT k) (env_iters env) = false ->
  fs (snd (clone_into_cache task_id url (os_path_join CACHE_ROOT k)
             timeout depth env w)) !! os_path_join CACHE_ROOT k
  <> Some Dir.
Proof.
  intros Hk Hch. set (p := os_path_join CACHE_ROOT k) in *.
  pose proof (cleared_not_dir p w) as H1.
  unfold clone_into_cache.
  set (w1 := if path_exists p w then with_fs (rmtree p (fs w)) w else w) in *.
  destruct (makedirs_cache_root w1) as [w2|e] eqn:Hmk.
  - pose proof (makedirs_not_dir url k _ _ Hk Hmk H1) as H2. fold p in H2.
    destruct (negb (env_which_git env)); [done|].
    destruct (env_popen env) as [pid|e]; [|by destruct e].
    match goal with
    | |- fs (snd (match ?l with _ => _ end)) !! _ <> _ =>
        change (fs (snd (cache_finish task_id p env l)) !! p <> Some Dir)
    end.
    rewrite (proj1 (cache_finish_frame _ _ _ _)).
    by apply cache_loop_not_dir.
  - by destruct e.
Qed.

Lemma clone_into_cache_spawn_log task_id url cache_path timeout depth env w :
  (length (spawn_log (snd (clone_into_cache task_id url cache_path timeout depth
                             env w)))
   <= S (length (spawn_log w)))%nat.
Proof.
  destruct (cache_start task_id url cache_path depth env w) as [[pid w0]|] eqn:Hs.
  - rewrite (clone_into_cache_started _ _ _ _ _ _ _ _ _ Hs).
    rewrite (proj2 (cache_finish_frame _ _ _ _)), cache_loop_spawn_log.
    revert Hs. unfold cache_start.
    destruct (makedirs_cache_root _) as [w2|e] eqn:Hmk; [|discriminate].
    destruct (negb (env_which_git env)); [discriminate|].
    destruct (env_popen env); [|discriminate].
    intros H. injection H as _ <-. simpl.
    rewrite length_app, (makedirs_spawn_log _ _ Hmk). simpl.
    destruct (path_exists cache_path w); simpl; lia.
  - rewrite (proj2 (clone_into_cache_not_started _ _ _ timeout _ _ _ Hs)). lia.
Qed.

Lemma clone_into_cache_outcomes task_id url cache_path timeout depth env w :
  let r := clone_into_cache task_id url cache_path timeout depth env w in
  fst r = Returns cache_path ∨ fst r = Returns "" ∨ fst r = Running.
Proof.
  intros r. subst r.
  destruct (cache_start task_id url cache_path depth env w) as [[pid w0]|] eqn:Hs.
  - rewrite (clone_into_cache_started _ _ _ _ _ _ _ _ _ Hs).
    destruct (cache_loop task_id pid (env_has_stderr env) (env_start env) timeout
                (env_iters env) w0) as [[v| |e|] wl] eqn:Hl; simpl.
    + apply cache_loop_return in Hl as ->. auto.
    + destruct (env_wait env) as [code|e].
      * destruct (code =? 0); auto.
      * destruct e; auto.
    + destruct e; auto.
    + auto.
  - destruct (clone_into_cache_not_started _ _ _ timeout _ _ _ Hs) as [[H _] _]. auto.
Qed.

Lemma ensure_cached_repo_outcomes task_id url k refresh timeout depth env w :
  _key url = Ok k ->
  let r := ensure_cached_repo task_id url refresh timeout depth env w in
  fst r = Returns (os_path_join CACHE_ROOT k)
  ∨ fst r = Returns "" ∨ fst r = Running.
Proof.
  intros Hk r. subst r. unfold ensure_cached_repo.
  destruct (String.eqb url "" || negb (contains "github.com" url)); [auto|].
  rewrite Hk. destruct refresh; [apply clone_into_cache_outcomes|].
  rewrite (get_cached_path_key _ _ _ Hk).
  match goal with |- context [if ?c then Some _ else None] => destruct c end;
    [|apply clone_into_cache_outcomes].
  rewrite (cache_path_not_empty _ _ Hk). simpl. auto.
Qed.

Lemma ensure_cached_repo_hit task_id url timeout depth env w p :
  url_ok url = true -> get_cached_path url w = Ok (Some p) ->
  ensure_cached_repo task_id url false timeout depth env w
  = (Returns p, set_progress task_id "cache" 25
                  {[ "stage" := VStr "cache"; "cached" := VBool true ]} w).
Proof.
  intros Hu Hp. unfold ensure_cached_repo. unfold url_ok in Hu.
  apply negb_true_iff in Hu. rewrite Hu.
  destruct (get_cached_path_ok _ _ _ Hp) as [k Hk]. rewrite Hk, Hp.
  pose proof (get_cached_path_some _ _ _ _ Hk Hp) as ->.
  by rewrite (cache_path_not_empty _ _ Hk).
Qed.

Lemma ensure_cached_repo_spawns task_id url refresh timeout depth env w :
  (length (spawn_log (snd (ensure_cached_repo task_id url refresh timeout depth
                             env w)))
   <= S (length (spawn_log w)))%nat.
Proof.
  unfold ensure_cached_repo.
  destruct (String.eqb url "" || negb (contains "github.com" url)); [simpl; lia|].
  destruct (_key url) as [k|e]; [|simpl; lia].
  destruct (if refresh then Ok None else get_cached_path url w) as [[p|]|e];
    [|apply clone_into_cache_spawn_log|simpl; lia].
  destruct (negb (String.eqb p "")); [simpl; lia|apply clone_into_cache_spawn_log].
Qed.

(** C1, as amended: for a URL that passes the URL check, when
    [ensure_cached_repo] returns the empty string and the child process did
    not itself create the cache directory while the loop ran,
    [get_cached_path(url)] returns nothing afterwards.  The function clears
    the directory before it spawns the child; it does not remove what the
    child has written. *)
Theorem failed_clone_cache_state :
  forall (task_id url k : string) (refresh : bool) (timeout depth : Z) (env : Env)
         (w w' : World),
    url_ok url = true ->
    _key url = Ok k ->
    ensure_cached_repo task_id url refresh timeout depth env w = (Returns "", w') ->
    child_mkdirs (os_path_join CACHE_ROOT k) (env_iters env) = false ->
    get_cached_path url w' = Ok None.
Proof.
  intros task_id url k refresh timeout depth env w w' Hu Hk Hr Hch.
  pose proof (clone_into_cache_not_dir task_id url k timeout depth env w Hk Hch) as Hc.
  revert Hr. unfold ensure_cached_repo. unfold url_ok in Hu.
  apply negb_true_iff in Hu. rewrite Hu, Hk.
  destruct refresh.
  - intros H. rewrite H in Hc. by apply (get_cached_path_not_dir _ _ _ Hk).
  - rewrite (get_cached_path_key _ _ _ Hk).
    match goal with |- context [if ?c then Some _ else None] => destruct c end.
    + rewrite (cache_path_not_empty _ _ Hk). simpl. intros H. injection H as H _.
      pose proof (cache_path_not_empty _ _ Hk) as Hne. rewrite H in Hne. discriminate.
    + intros H. rewrite H in Hc. by apply (get_cached_path_not_dir _ _ _ Hk).
Qed.

Lemma failed_clone_cache_state_witness :
  get_cached_path "https://github.com/acme/widgets"
    (snd (ensure_cached_repo "t1" "https://github.com/acme/widgets" true 180 1
            (sample_env [sample_ob 1001 "Cloning into 'widgets'..." None;
                         sample_ob 1181.5 "" None] 0)
            (cached_world "https://github.com/acme/widgets")))
  = Ok None.
Proof.
  apply (failed_clone_cache_state "t1" "https://github.com/acme/widgets"
           "widgets-efa8d65b" true 180 1
           (sample_env [sample_ob 1001 "Cloning into 'widgets'..." None;
                        sample_ob 1181.5 "" None] 0)
           (cached_world "https://github.com/acme/widgets"));
    vm_compute; reflexivity.
Defined.

(** C1 fails as stated: a clone that times out after the child has created
    the cache directory with its marker returns the empty string and leaves a
    directory that passes the validity check. *)
Lemma interrupted_clone_passes_validity :
  fst (ensure_cached_repo "t1" "https://github.com/acme/widgets" false 180 1
         (sample_env [clone_begun 1001 "outputs/cache/widgets-efa8d65b";
                      sample_ob 1181.5 "" None] 0) empty_world)
  = Returns ""
  ∧ get_cached_path "https://github.com/acme/widgets"
      (snd (ensure_cached_repo "t1" "https://github.com/acme/widgets" false 180 1
              (sample_env [clone_begun 1001 "outputs/cache/widgets-efa8d65b";
                           sample_ob 1181.5 "" None] 0) empty_world))
    = Ok (Some "outputs/cache/widgets-efa8d65b").
Proof. split; vm_compute; reflexivity. Qed.

(** C2, as amended: for a URL that passes the URL check, a call with
    [refresh=false] that finds a valid entry publishes a cache record at
    percent 25 with the cached flag and returns the cached path without a
    spawn and without touching the directory; and when a first call leaves a
    valid entry, a second call returns that path without a spawn, so that the
    two calls spawn at most one clone, and the first call has returned the
    same path if it returned one. *)
Theorem cache_hit_no_clone :
  forall (id1 id2 url : string) (t1 t2 d1 d2 : Z) (env1 env2 : Env) (w : World)
         (p : string),
    url_ok url = true ->
    let first := ensure_cached_repo id1 url false t1 d1 env1 w in
    let second := ensure_cached_repo id2 url false t2 d2 env2 (snd first) in
    (get_cached_path url w = Ok (Some p) ->
       fst first = Returns p
       ∧ published id1 "cache" 25 (snd first)
       ∧ get_progress id1 (snd first) !! "cached" = Some (VBool true)
       ∧ spawn_log (snd first) = spawn_log w
       ∧ fs (snd first) = fs w)
    ∧ (get_cached_path url (snd first) = Ok (Some p) ->
         fst second = Returns p
         ∧ spawn_log (snd second) = spawn_log (snd first)
         ∧ (length (spawn_log (snd second)) <= S (length (spawn_log w)))%nat
         ∧ (fst first = Returns p ∨ fst first = Returns "" ∨ fst first = Running)).
Proof.
  intros id1 id2 url t1 t2 d1 d2 env1 env2 w p Hu first second. split.
  - intros Hp. unfold first. rewrite (ensure_cached_repo_hit _ _ _ _ _ _ _ Hu Hp).
    simpl. split; [done|]. split; [by apply published_set_progress|].
    split; [by rewrite set_progress_lookup|done].
  - intros Hp. unfold second.
    rewrite (ensure_cached_repo_hit _ _ _ _ _ _ _ Hu Hp). simpl.
    split; [done|]. split; [done|]. split.
    + apply ensure_cached_repo_spawns.
    + destruct (get_cached_path_ok _ _ _ Hp) as [k Hk].
      pose proof (get_cached_path_some _ _ _ _ Hk Hp) as ->.
      by apply ensure_cached_repo_outcomes.
Qed.

Lemma cache_hit_no_clone_witness :
  let url := "https://github.com/acme/widgets" in
  let first := ensure_cached_repo "t1" url false 180 1 (sample_env [] 0)
                 (cached_world url) in
  let second := ensure_cached_repo "t2" url false 180 1 (sample_env [] 0)
                  (snd first) in
  fst first = Returns "outputs/cache/widgets-efa8d65b"
  ∧ spawn_log (snd first) = []
  ∧ fst second = Returns "outputs/cache/widgets-efa8d65b"
  ∧ spawn_log (snd second) = [].
Proof.
  intros url first second.
  destruct (cache_hit_no_clone "t1" "t2" url 180 180 1 1 (sample_env [] 0)
              (sample_env [] 0) (cached_world url) "outputs/cache/widgets-efa8d65b"
              ltac:(vm_compute; reflexivity)) as [H1 H2].
  destruct (H1 ltac:(vm_compute; reflexivity)) as (Ha & _ & _ & Hb & _).
  destruct (H2 ltac:(vm_compute; reflexivity)) as (Hc & Hd & _).
  split; [exact Ha|]. split; [exact Hb|]. split; [exact Hc|].
  exact (eq_trans Hd Hb).
Defined.

(** C2 fails as stated: for a URL that does not pass the URL check the call
    publishes an error and returns the empty string, although the directory of
    that URL passes the validity check. *)
Lemma cache_hit_needs_valid_url :
  get_cached_path "https://gitlab.com/acme/widgets"
    (cached_world "https://gitlab.com/acme/widgets")
  = Ok (Some "outputs/cache/widgets-888bec86")
  ∧ fst (ensure_cached_repo "t1" "https://gitlab.com/acme/widgets" false 180 1
           (sample_env [] 0) (cached_world "https://gitlab.com/acme/widgets"))
    = Returns ""
  ∧ get_progress "t1"
      (snd (ensure_cached_repo "t1" "https://gitlab.com/acme/widgets" false 180 1
              (sample_env [] 0) (cached_world "https://gitlab.com/acme/widgets")))
    !! "status" = Some (VStr "error").
Proof. repeat split; vm_compute; reflexivity. Qed.

(** ** Failures are returned, not raised *)

Lemma interruptible_clone_no_raise task_id url max_seconds depth env w :
  raises (fst (interruptible_clone task_id url max_seconds depth env w)) = false.
Proof.
  destruct (clone_start task_id url depth env w) as [[[pid path] w0]|] eqn:Hs.
  - rewrite (interruptible_clone_started _ _ _ _ _ _ _ _ _ Hs).
    destruct (clone_loop task_id pid (env_has_stderr env) (env_start env) max_seconds
                (env_iters env) w0) as [x wl].
    destruct x as [v| |e|]; [..|reflexivity].
    all: match goal with
         | |- raises (clone_finish _ _ _ ?r).1 = _ =>
             destruct (clone_finish_returns task_id path env r) as (v' & w' & ->);
               [simpl; discriminate|reflexivity]
         end.
  - destruct (interruptible_clone_not_started _ _ max_seconds _ _ _ Hs) as (w' & -> & _).
    reflexivity.
Qed.

Lemma ensure_cached_repo_no_raise task_id url k refresh timeout depth env w :
  _key url = Ok k ->
  raises (fst (ensure_cached_repo task_id url refresh timeout depth env w)) = false.
Proof.
  intros Hk.
  destruct (ensure_cached_repo_outcomes task_id url k refresh timeout depth env w Hk)
    as [->|[->| ->]]; reflexivity.
Qed.

(** what [_key(url)] raises reaches the caller of [ensure_cached_repo], and
    nothing is published *)
Lemma ensure_cached_repo_key_raises task_id url refresh timeout depth env w e :
  url_ok url = true -> _key url = Raise e ->
  ensure_cached_repo task_id url refresh timeout depth env w = (Raises e, w).
Proof.
  intros Hu Hk. unfold ensure_cached_repo. unfold url_ok in Hu.
  apply negb_true_iff in Hu. by rewrite Hu, Hk.
Qed.

Lemma interruptible_clone_start_fails task_id url max_seconds depth env w :
  clone_start task_id url depth env w = None ->
  error_return task_id (interruptible_clone task_id url max_seconds depth env w).
Proof.
  intros Hs.
  destruct (interruptible_clone_not_started _ _ max_seconds _ _ _ Hs) as (w' & -> & H).
  by split.
Qed.

Lemma ensure_cached_repo_cases task_id url refresh timeout depth env w :
  (url_ok url = false
   ∧ error_return task_id (ensure_cached_repo task_id url refresh timeout depth env w))
  ∨ (url_ok url = true
     ∧ ∃ e, _key url = Raise e
            ∧ ensure_cached_repo task_id url refresh timeout depth env w = (Raises e, w))
  ∨ (url_ok url = true ∧ refresh = false
     ∧ ∃ p, get_cached_path url w = Ok (Some p)
            ∧ fst (ensure_cached_repo task_id url refresh timeout depth env w)
              = Returns p ∧ p <> "")
  ∨ (url_ok url = true
     ∧ ∃ k, _key url = Ok k
            ∧ (refresh = true ∨ get_cached_path url w = Ok None)
            ∧ ensure_cached_repo task_id url refresh timeout depth env w
              = clone_into_cache task_id url (os_path_join CACHE_ROOT k)
                  timeout depth env w).
Proof.
  unfold ensure_cached_repo, url_ok.
  destruct (String.eqb url "" || negb (contains "github.com" url)); simpl.
  { left. split; [done|]. split; [done|]. by eapply published_error_set_progress. }
  right. destruct (_key url) as [k|e] eqn:Hk.
  2:{ left. split; [done|]. by exists e. }
  right. destruct refresh.
  { right. split; [done|]. exists k. auto. }
  rewrite (get_cached_path_key _ _ _ Hk).
  match goal with |- context [if ?c then Some _ else None] => destruct c end.
  2:{ right. split; [done|]. exists k. auto. }
  left. rewrite (cache_path_not_empty _ _ Hk). simpl. split; [done|]. split; [done|].
  eexists. split; [done|]. split; [done|].
  intros H. pose proof (cache_path_not_empty _ _ Hk) as Hne.
  rewrite H in Hne. discriminate.
Qed.

Lemma cache_finish_returns task_id cache_path env r :
  fst r <> LRunning -> ∃ v w', cache_finish task_id cache_path env r = (Returns v, w').
Proof.
  destruct r as [[v| |e|] w]; simpl; intros H; try done.
  - eauto.
  - destruct (env_wait env) as [code|e].
    + destruct (code =? 0); eauto.
    + destruct e; eauto.
  - destruct e; eauto.
Qed.

(** a cached clone that is still going after [pre] goes on from there *)
Lemma ensure_cached_repo_resume task_id url refresh timeout depth env w pre post :
  fst (ensure_cached_repo task_id url refresh timeout depth (with_iters pre env) w)
    = Running ->
  ∃ pid k,
    _key url = Ok k
    ∧ ensure_cached_repo task_id url refresh timeout depth
        (with_iters (pre ++ post) env) w
      = cache_finish task_id (os_path_join CACHE_ROOT k) env
          (cache_loop task_id pid (env_has_stderr env) (env_start env) timeout post
             (snd (ensure_cached_repo task_id url refresh timeout depth
                     (with_iters pre env) w))).
Proof.
  intros H.
  destruct (ensure_cached_repo_cases task_id url refresh timeout depth
              (with_iters pre env) w)
    as [[_ [Hr _]]|[(_ & e & _ & Hr)|[(_ & _ & p & _ & Hr & _)|(Hu & k & Hk & Hc & Hr)]]];
    try (rewrite Hr in H; discriminate).
  destruct (ensure_cached_repo_cases task_id url refresh timeout depth
              (with_iters (pre ++ post) env) w)
    as [[Hu' _]|[(_ & e & He & _)|[(_ & -> & p & Hp & _)|(_ & k' & Hk' & _ & Hr')]]].
  { rewrite Hu in Hu'. discriminate. }
  { rewrite Hk in He. discriminate. }
  { destruct Hc as [Hc|Hc]; [discriminate|]. rewrite Hc in Hp. discriminate. }
  rewrite Hk in Hk'. injection Hk' as <-.
  rewrite Hr', Hr in *. clear Hr Hr'.
  set (cp := os_path_join CACHE_ROOT k) in *.
  destruct (cache_start task_id url cp depth env w) as [[pid w0]|] eqn:Hs.
  - exists pid, k. split; [done|].
    rewrite (clone_into_cache_started _ _ _ _ _ (with_iters pre env) _ _ _ Hs) in *.
    rewrite (clone_into_cache_started _ _ _ _ _ (with_iters (pre ++ post) env) _ _ _ Hs).
    simpl in *.
    destruct (cache_loop task_id pid (env_has_stderr env) (env_start env) timeout
                pre w0) as [x wl] eqn:Hl.
    destruct x as [v| |e|].
    4:{ simpl. by rewrite (cache_loop_app _ _ _ _ _ _ _ _ _ Hl). }
    all: match type of H with
         | (cache_finish _ _ _ ?r).1 = _ =>
             destruct (cache_finish_returns task_id cp (with_iters pre env) r)
               as (v' & w' & Hf);
               [simpl; discriminate|rewrite Hf in H; discriminate]
         end.
  - destruct (clone_into_cache_not_started task_id url cp timeout depth
                (with_iters pre env) w Hs) as [[Hf _] _].
    rewrite Hf in H. discriminate.
Qed.

Lemma interruptible_clone_returns task_id url max_seconds depth env w :
  deadline_seen (env_start env) max_seconds (env_iters env) = true ->
  ∃ v, fst (interruptible_clone task_id url max_seconds depth env w) = Returns v.
Proof.
  intros Hd.
  destruct (clone_start task_id url depth env w) as [[[pid path] w0]|] eqn:Hs.
  - rewrite (interruptible_clone_started _ _ _ _ _ _ _ _ _ Hs).
    destruct (clone_finish_returns task_id path env
                (clone_loop task_id pid (env_has_stderr env) (env_start env)
                   max_seconds (env_iters env) w0)) as (v & w' & ->);
      [by apply clone_loop_ends|eauto].
  - destruct (interruptible_clone_not_started _ _ max_seconds _ _ _ Hs) as (w' & -> & _).
    eauto.
Qed.

Lemma ensure_cached_repo_returns task_id url k refresh timeout depth env w :
  _key url = Ok k ->
  deadline_seen (env_start env) timeout (env_iters env) = true ->
  ∃ v, fst (ensure_cached_repo task_id url refresh timeout depth env w) = Returns v.
Proof.
  intros Hk Hd.
  destruct (ensure_cached_repo_cases task_id url refresh timeout depth env w)
    as [[_ [Hr _]]|[(_ & e & He & _)|[(_ & _ & p & _ & Hr & _)|(_ & k' & Hk' & _ & Hr)]]];
    [eauto|congruence|eauto|].
  rewrite Hr.
  destruct (cache_start task_id url (os_path_join CACHE_ROOT k') depth env w)
    as [[pid w0]|] eqn:Hs.
  - rewrite (clone_into_cache_started _ _ _ _ _ _ _ _ _ Hs).
    destruct (cache_finish_returns task_id (os_path_join CACHE_ROOT k') env
                (cache_loop task_id pid (env_has_stderr env) (env_start env)
                   timeout (env_iters env) w0)) as (v & w' & ->);
      [by apply cache_loop_ends|eauto].
  - destruct (clone_into_cache_not_started _ _ _ timeout _ _ _ Hs) as [[-> _] _].
    eauto.
Qed.

Lemma error_return_clone_handler task_id e w :
  error_return task_id (clone_handler task_id e w).
Proof.
  destruct (clone_handler_error task_id e w) as (w' & -> & H). by split.
Qed.

Lemma error_return_cache_handler task_id e w :
  error_return task_id (cache_handler task_id e w).
Proof.
  destruct (cache_handler_error task_id e w) as (w' & -> & H & _). by split.
Qed.

Lemma ensure_cached_repo_running_not_canceled task_id url refresh timeout depth
    env w pre :
  fst (ensure_cached_repo task_id url refresh timeout depth (with_iters pre env) w)
    = Running ->
  is_canceled task_id
    (snd (ensure_cached_repo task_id url refresh timeout depth (with_iters pre env) w))
  = false.
Proof.
  intros H.
  destruct (ensure_cached_repo_resume _ _ _ _ _ _ _ _ [] H) as (pid & k & _ & Heq).
  rewrite app_nil_r in Heq. simpl in Heq.
  destruct (is_canceled task_id _); [|done].
  rewrite Heq in H. discriminate.
Qed.

(** Failures are returned: [interruptible_clone] never raises, and
    [ensure_cached_repo] raises only what [_key(url)] raises; otherwise both
    return once a clock reading is past the deadline; a URL that fails the URL
    check, a temporary directory that cannot be made, a spawn that raises (the
    binary missing, or any other failure), a missing [git] on the path, and an
    exception raised while the loop reads the child's output or waits for its
    exit code each end in the empty string and a record with status error,
    percent 100 and a message. *)
Theorem clone_failures_are_returned :
  forall (task_id url : string) (max_seconds depth : Z) (refresh : bool) (env : Env)
         (w : World),
    let ic := fun env => interruptible_clone task_id url max_seconds depth env w in
    let ec := fun env => ensure_cached_repo task_id url refresh max_seconds depth env w in
    raises (fst (ic env)) = false
    ∧ (∀ k, _key url = Ok k -> raises (fst (ec env)) = false)
    ∧ (∀ e, url_ok url = true -> _key url = Raise e -> ec env = (Raises e, w))
    ∧ (deadline_seen (env_start env) max_seconds (env_iters env) = true ->
       (∃ v, fst (ic env) = Returns v)
       ∧ (∀ k, _key url = Ok k -> ∃ v, fst (ec env) = Returns v))
    ∧ (url_ok url = false ->
       error_return task_id (ic env) ∧ error_return task_id (ec env))
    ∧ (∀ e, env_gettempdir env = Raise e -> error_return task_id (ic env))
    ∧ (∀ e, env_popen env = Raise e ->
         error_return task_id (ic env)
         ∧ (∀ k, _key url = Ok k ->
            refresh = true ∨ get_cached_path url w = Ok None ->
            error_return task_id (ec env)))
    ∧ (env_which_git env = false ->
       ∀ k, _key url = Ok k ->
       refresh = true ∨ get_cached_path url w = Ok None ->
       error_return task_id (ec env))
    ∧ (∀ pre ob post e,
         env_iters env = (pre ++ ob :: post)%list ->
         timed_out (env_start env) (ob_now ob) max_seconds = false ->
         env_has_stderr env = true ->
         ob_readline ob = Raise e
         ∨ (ob_readline ob = Ok "" ∧ is_Some (ob_poll ob) ∧ env_wait env = Raise e) ->
         (fst (ic (with_iters pre env)) = Running -> error_return task_id (ic env))
         ∧ (fst (ec (with_iters pre env)) = Running ->
            error_return task_id (ec env))).
Proof.
  intros task_id url max_seconds depth refresh env w ic ec.
  split; [apply interruptible_clone_no_raise|].
  split; [intros k Hk; by eapply ensure_cached_repo_no_raise|].
  split; [intros e Hu Hk; by apply ensure_cached_repo_key_raises|].
  split.
  { intros Hd. split; [by apply interruptible_clone_returns|].
    intros k Hk. by eapply ensure_cached_repo_returns. }
  split.
  { intros Hu. split.
    - apply interruptible_clone_start_fails. unfold clone_start. by rewrite Hu.
    - destruct (ensure_cached_repo_cases task_id url refresh max_seconds depth env w)
        as [[_ H]|[(Hu' & _)|[(Hu' & _)|(Hu' & _)]]]; [done|congruence..]. }
  split.
  { intros e He. apply interruptible_clone_start_fails.
    unfold clone_start, mkdtemp. rewrite He. by destruct (url_ok url). }
  split.
  { intros e He. split.
    - apply interruptible_clone_start_fails. unfold clone_start. rewrite He.
      destruct (url_ok url); [|done]. by destruct (mkdtemp env w) as [[]|].
    - intros k Hk Hc.
      destruct (ensure_cached_repo_cases task_id url refresh max_seconds depth env w)
        as [[_ H]|[(_ & e' & He' & _)|[(_ & -> & p & Hp & _)|(_ & k' & _ & _ & Hr)]]];
        [done|congruence| |].
      + destruct Hc as [Hc|Hc]; [discriminate|congruence].
      + unfold ec. rewrite Hr. apply clone_into_cache_not_started.
        unfold cache_start. rewrite He.
        destruct (makedirs_cache_root _); [|done].
        by destruct (negb (env_which_git env)). }
  split.
  { intros Hg k Hk Hc.
    destruct (ensure_cached_repo_cases task_id url refresh max_seconds depth env w)
      as [[_ H]|[(_ & e' & He' & _)|[(_ & -> & p & Hp & _)|(_ & k' & _ & _ & Hr)]]];
      [done|congruence| |].
    - destruct Hc as [Hc|Hc]; [discriminate|congruence].
    - unfold ec. rewrite Hr. apply clone_into_cache_not_started.
      unfold cache_start. rewrite Hg. by destruct (makedirs_cache_root _). }
  intros pre ob post e Hit Ht Hs Hexn.
  assert (Henv : env = with_iters (pre ++ ob :: post) env).
  { destruct env. simpl in Hit. unfold with_iters. simpl. by rewrite Hit. }
  split.
  - intros Hrun. unfold ic in *. rewrite Henv.
    pose proof (interruptible_clone_running_not_canceled _ _ _ _ _ _ Hrun) as Hc.
    destruct (interruptible_clone_resume _ _ _ _ _ _ _ (ob :: post) Hrun)
      as (pid & path & w0 & _ & ->).
    simpl. rewrite Hc, Ht, Hs. simpl.
    destruct Hexn as [Hr|(Hr & [c Hp] & Hw)]; rewrite Hr; simpl;
      [|rewrite Hp; simpl; rewrite Hw]; apply error_return_clone_handler.
  - intros Hrun. unfold ec in *. rewrite Henv.
    pose proof (ensure_cached_repo_running_not_canceled _ _ _ _ _ _ _ _ Hrun) as Hc.
    destruct (ensure_cached_repo_resume _ _ _ _ _ _ _ _ (ob :: post) Hrun)
      as (pid & k & _ & ->).
    simpl. rewrite Hc, Ht, Hs. simpl.
    destruct Hexn as [Hr|(Hr & [c Hp] & Hw)]; rewrite Hr; simpl;
      [|rewrite Hp; simpl; rewrite Hw]; apply error_return_cache_handler.
Qed.

Example clone_failures_on_samples :
  (error_return "t1" (interruptible_clone "t1" "https://example.org/x" 180 1
                        (sample_env [] 0) empty_world)
   ∧ error_return "t1" (ensure_cached_repo "t1" "https://example.org/x" false 180 1
                          (sample_env [] 0) empty_world))
  ∧ error_return "t1"
      (interruptible_clone "t1" "https://github.com/acme/widgets" 180 1
         (sample_env [raising_ob 1001 "bad byte"] 0) empty_world).
Proof.
  split.
  - apply (proj1 (proj2 (proj2 (proj2 (proj2
             (clone_failures_are_returned "t1" "https://example.org/x" 180 1 false
                (sample_env [] 0) empty_world)))))).
    vm_compute. reflexivity.
  - refine (proj1 (proj2 (proj2 (proj2 (proj2 (proj2 (proj2 (proj2 (proj2
              (clone_failures_are_returned "t1" "https://github.com/acme/widgets"
                 180 1 false (sample_env [raising_ob 1001 "bad byte"] 0)
                 empty_world))))))))
              [] (raising_ob 1001 "bad byte") [] (OtherException "bad byte")
              eq_refl _ eq_refl (or_introl eq_refl)) _);
      vm_compute; reflexivity.
Qed.

(** C4: [ensure_cached_repo] raises to its caller for a URL that passes the
    URL check and holds a lone surrogate (the text [https://github.com/acme/]
    followed by U+D800): [_key(url)] is computed before the [try], its
    [url.encode("utf-8")] raises [UnicodeEncodeError], and no record is
    published.  [interruptible_clone], whose whole body after the URL check
    lies in its [try], returns the empty string with an error record for the
    same URL when the spawn raises for it. *)
Theorem cached_clone_raises_on_surrogate :
  let url := "https://github.com/acme/" ++ lone_surrogate in
  let msg := "'utf-8' codec can't encode character '\ud800' in position 24: surrogates not allowed" in
  let env := {| env_gettempdir := Ok "/tmp"; env_tempname := "k3x9_q2a";
                env_which_git := true; env_popen := Raise (OtherException msg);
                env_start := 1000; env_has_stderr := true; env_iters := [];
                env_wait := Ok 0; env_communicate := Ok [] |} in
  url_ok url = true
  ∧ ensure_cached_repo "t1" url false 180 1 (sample_env [] 0) empty_world
    = (Raises (OtherException msg), empty_world)
  ∧ ensure_cached_repo "t1" url true 180 1 env empty_world
    = (Raises (OtherException msg), empty_world)
  ∧ fst (interruptible_clone "t1" url 180 1 env empty_world) = Returns ""
  ∧ published "t1" "error" 100 (snd (interruptible_clone "t1" url 180 1 env empty_world)).
Proof. repeat split; vm_compute; reflexivity. Qed.

(** a percent of more digits than a float can hold: the conversion raises
    inside the [try], and the call ends in an error record *)
Example clone_percent_overflow :
  let line := "Receiving objects: " ++ string_of_list_ascii (repeat "9"%char 400) ++ "%" in
  let r := interruptible_clone "t1" "https://github.com/acme/widgets" 180 1
             (sample_env [sample_ob 1001 line None] 0) empty_world in
  fst r = Returns ""
  ∧ get_progress "t1" (snd r) !! "status" = Some (VStr "error")
  ∧ get_progress "t1" (snd r) !! "message"
    = Some (VStr "int too large to convert to float").
Proof. repeat split; vm_compute; reflexivity. Qed.

(** a clone interrupted after the child created the marker is a cache hit for
    the next call *)
Example partial_clone_is_hit :
  let url := "https://github.com/acme/widgets" in
  let w1 := snd (ensure_cached_repo "t1" url false 180 1
                   (sample_env [clone_begun 1001 "outputs/cache/widgets-efa8d65b";
                                sample_ob 1181.5 "" None] 0) empty_world) in
  fst (ensure_cached_repo "t2" url false 180 1 (sample_env [] 0) w1)
  = Returns "outputs/cache/widgets-efa8d65b".
Proof. vm_compute. reflexivity. Qed.

(** * Further properties *)

(** ** The progress store *)

Lemma get_progress_same_file task_id task_id' w :
  _path task_id' = _path task_id -> is_Some (progress_files w !! _path task_id) ->
  get_progress task_id' w = get_progress task_id w.
Proof.
  intros Hp [d Hd]. unfold get_progress. by rewrite Hp, Hd.
Qed.

Lemma get_progress_other_write task_id task_id' data w :
  _path task_id' <> _path task_id ->
  get_progress task_id (write_progress task_id' data w) = get_progress task_id w.
Proof.
  intros Hp. unfold get_progress at 1. rewrite file_after_write_ne by done.
  reflexivity.
Qed.

(** X1: [clear_progress(id)] removes everything the store held for [id]: with
    no ledger record for [id], [get_progress(id)] is again the record with
    status unknown and percent 0, and the cancellation flag is gone. *)
Theorem clear_progress_resets :
  forall (task_id status : string) (p : Z) (extra : gmap string value) (w : World),
    find_job task_id w = None ->
    let w' := clear_progress task_id (set_progress task_id status p extra w) in
    get_progress task_id w'
    = {[ "task_id" := VStr task_id; "status" := VStr "unknown"; "percent" := VInt 0 ]}
    ∧ is_canceled task_id w' = false.
Proof.
  intros task_id status p extra w Hj w'. split; [|apply is_canceled_clear].
  unfold w', get_progress, clear_progress. simpl. rewrite lookup_delete_eq.
  unfold _infer_from_jobs, get_jobs, _load. simpl.
  unfold find_job, get_jobs, _load in Hj. by rewrite Hj.
Qed.

Lemma clear_progress_resets_witness :
  get_progress "t1"
    (clear_progress "t1"
       (set_progress "t1" "cloning" 40 {[ "canceled" := VBool true ]} empty_world))
  = {[ "task_id" := VStr "t1"; "status" := VStr "unknown"; "percent" := VInt 0 ]}
  ∧ is_canceled "t1"
      (clear_progress "t1"
         (set_progress "t1" "cloning" 40 {[ "canceled" := VBool true ]} empty_world))
    = false.
Proof.
  apply (clear_progress_resets "t1" "cloning" 40 {[ "canceled" := VBool true ]}
           empty_world).
  reflexivity.
Defined.

(** X2: [set_canceled(id, message)] keeps the percent that [get_progress(id)]
    showed before (0 when there was none), sets status canceled and the flag,
    and replaces the message only when [message] is not empty; every other
    key is kept. *)
Theorem set_canceled_keeps_percent :
  forall (task_id message : string) (w : World),
    let r := get_progress task_id (set_canceled task_id message w) in
    r !! "percent" = Some (default (VInt 0) (get_progress task_id w !! "percent"))
    ∧ r !! "status" = Some (VStr "canceled")
    ∧ r !! "canceled" = Some (VBool true)
    ∧ r !! "message" = (if String.eqb message "" then get_progress task_id w !! "message"
                        else Some (VStr message))
    ∧ ∀ k, k ∉ ["percent"; "status"; "canceled"; "message"] ->
           r !! k = get_progress task_id w !! k.
Proof.
  intros task_id message w r. subst r. rewrite !set_canceled_lookup. simpl.
  do 3 (split; [done|]). split.
  - by destruct (String.eqb message "").
  - intros k Hk. rewrite set_canceled_lookup.
    destruct (String.eqb_spec k "message") as [->|_]; [set_solver|].
    destruct (String.eqb_spec k "status") as [->|_]; [set_solver|].
    destruct (String.eqb_spec k "percent") as [->|_]; [set_solver|].
    destruct (String.eqb_spec k "canceled") as [->|_]; [set_solver|].
    done.
Qed.

(** X3: two task ids whose sanitised file names differ do not see each other's
    writes: [set_progress], [set_canceled] and [clear_progress] for one leave
    what [get_progress] returns for the other. *)
Theorem progress_isolation :
  forall (id1 id2 status message : string) (p : Z) (extra : gmap string value)
         (w : World),
    _path id1 <> _path id2 ->
    get_progress id2 (set_progress id1 status p extra w) = get_progress id2 w
    ∧ get_progress id2 (set_canceled id1 message w) = get_progress id2 w
    ∧ get_progress id2 (clear_progress id1 w) = get_progress id2 w.
Proof.
  intros id1 id2 status message p extra w Hp. split; [|split].
  - unfold set_progress. by apply get_progress_other_write.
  - unfold set_canceled. by apply get_progress_other_write.
  - unfold get_progress, clear_progress. simpl. by rewrite lookup_delete_ne.
Qed.

Lemma progress_isolation_witness :
  get_progress "t2" (set_progress "t1" "cloning" 40 ∅ empty_world)
  = get_progress "t2" empty_world
  ∧ get_progress "t2" (set_canceled "t1" "stop" empty_world)
    = get_progress "t2" empty_world
  ∧ get_progress "t2" (clear_progress "t1" empty_world)
    = get_progress "t2" empty_world.
Proof.
  apply (progress_isolation "t1" "t2" "cloning" "stop" 40 ∅ empty_world).
  vm_compute. discriminate.
Defined.

(** X4: task ids of ASCII characters that differ only in characters which
    [_path] drops share one progress file: after a write for one of them,
    [get_progress] returns the same record for both, and a cancellation of one
    cancels the other. *)
Theorem progress_aliasing :
  forall (id1 id2 status message : string) (p : Z) (extra : gmap string value)
         (w : World),
    is_ascii id1 = true ->
    is_ascii id2 = true ->
    _path id1 = _path id2 ->
    get_progress id2 (set_progress id1 status p extra w)
    = get_progress id1 (set_progress id1 status p extra w)
    ∧ is_canceled id2 (set_canceled id1 message w) = true.
Proof.
  intros id1 id2 status message p extra w _ _ Hp. split.
  - apply get_progress_same_file; [done|].
    unfold set_progress. rewrite file_after_write. eauto.
  - unfold is_canceled.
    rewrite (get_progress_same_file id1 id2) by
      (try done; unfold set_canceled; rewrite file_after_write; eauto).
    apply is_canceled_set_canceled.
Qed.

Lemma progress_aliasing_witness :
  get_progress "job/7" (set_progress "job7" "cloning" 40 ∅ empty_world)
  = get_progress "job7" (set_progress "job7" "cloning" 40 ∅ empty_world)
  ∧ is_canceled "job/7" (set_canceled "job7" "stop" empty_world) = true.
Proof.
  apply (progress_aliasing "job7" "job/7" "cloning" "stop" 40 ∅ empty_world);
    vm_compute; reflexivity.
Defined.


(** X5: a cancellation is sticky: after [set_canceled(id, ...)], any sequence
    of [set_progress(id, ...)] calls whose extras have no "canceled" key leaves
    [is_canceled(id)] true. *)
Theorem cancel_is_sticky :
  forall (task_id message : string) (calls : list (string * Z * gmap string value))
         (w : World),
    Forall (fun c => c.2 !! "canceled" = None) calls ->
    is_canceled task_id
      (fold_left (publish task_id) calls (set_canceled task_id message w)) = true.
Proof.
  intros task_id message calls w Hc.
  assert (H : ∀ w0, is_canceled task_id w0 = true ->
                    is_canceled task_id (fold_left (publish task_id) calls w0) = true).
  { induction Hc as [|c calls Hc _ IH]; intros w0 H0; simpl; [done|].
    apply IH. unfold publish. by rewrite is_canceled_set_progress. }
  apply H, is_canceled_set_canceled.
Qed.

Lemma cancel_is_sticky_witness :
  is_canceled "t1"
    (fold_left (publish "t1")
       [("cloning", 20, {[ "stage" := VStr "clone" ]});
        ("mapped", 60, {[ "stage" := VStr "map" ]})]
       (set_canceled "t1" "stop" empty_world)) = true.
Proof.
  apply (cancel_is_sticky "t1" "stop"
           [("cloning", 20, {[ "stage" := VStr "clone" ]});
            ("mapped", 60, {[ "stage" := VStr "map" ]})] empty_world).
  repeat constructor.
Defined.

Lemma stage_percent_bounds v : 5 <= stage_percent v <= 100.
Proof.
  destruct v as [| | |s|]; simpl; try lia.
  repeat match goal with
         | |- context [if ?c then _ else _] => destruct c; [lia|]
         end.
  lia.
Qed.

Lemma set_if_truthy_other k k' v d :
  k <> k' -> set_if_truthy k v d !! k' = d !! k'.
Proof.
  intros H. unfold set_if_truthy. destruct (truthy v); [|done].
  by rewrite lookup_insert_ne.
Qed.

(** X6: for a task that has a ledger record but no progress file,
    [get_progress] infers a record with the task id, a percent between 5 and
    100 that is 100 when the job's status is completed, done, error or
    timeout, and a status that is one of done, error, timeout, canceled and
    pending. *)
Theorem inferred_progress_bounds :
  forall (task_id : string) (w : World) (j : Job),
    progress_files w !! _path task_id = None ->
    find_job task_id w = Some j ->
    let r := get_progress task_id w in
    r !! "task_id" = Some (VStr task_id)
    ∧ (∃ n, r !! "percent" = Some (VInt n) ∧ 5 <= n <= 100
            ∧ (j_status j ∈ ["completed"; "done"; "error"; "timeout"] -> n = 100))
    ∧ (∃ s, r !! "status" = Some (VStr s)
            ∧ s ∈ ["done"; "error"; "timeout"; "canceled"; "pending"]
            ∧ (j_status j ∈ ["completed"; "done"] -> s = "done")
            ∧ (j_status j ∈ ["error"; "timeout"; "canceled"] -> s = j_status j)).
Proof.
  intros task_id w j Hf Hj r. subst r. unfold get_progress. rewrite Hf.
  unfold _infer_from_jobs. unfold find_job in Hj. rewrite Hj.
  pose proof (stage_percent_bounds (py_get (j_details j) "stage")) as Hb.
  set (sp := stage_percent (py_get (j_details j) "stage")) in *.
  assert (Hin : ∀ (x : string) l, x ∈ l <-> In x l) by (intros; apply list_elem_of_In).
  destruct (String.eqb_spec (j_status j) "completed") as [Hs1|Hs1];
    [|destruct (String.eqb_spec (j_status j) "done") as [Hs2|Hs2];
      [|destruct (String.eqb_spec (j_status j) "error") as [Hs3|Hs3];
        [|destruct (String.eqb_spec (j_status j) "timeout") as [Hs4|Hs4];
          [|destruct (String.eqb_spec (j_status j) "canceled") as [Hs5|Hs5]]]]];
    simpl; rewrite !set_if_truthy_other by done;
    (split; [done|]);
    (split; [eexists; split; [reflexivity|split; [lia|]]
            |eexists; split; [reflexivity|split; [|split]]]);
    rewrite ?Hin; simpl; try tauto; try lia; intuition congruence.
Qed.

Lemma inferred_progress_bounds_witness :
  let w := update_job "t1" "error" {[ "stage" := VStr "clone" ]} noon noon noon
             (create_job "t1" "https://github.com/acme/widgets" noon noon noon noon
                empty_world) in
  get_progress "t1" w !! "task_id" = Some (VStr "t1")
  ∧ get_progress "t1" w !! "percent" = Some (VInt 100)
  ∧ get_progress "t1" w !! "status" = Some (VStr "error").
Proof.
  intros w.
  destruct (inferred_progress_bounds "t1" w
              (update_record "error" {[ "stage" := VStr "clone" ]} noon noon noon
                 {| j_id := "t1"; j_repo_url := "https://github.com/acme/widgets";
                    j_status := "pending"; j_agent := VStr "CodeAnalyzer";
                    j_priority := VStr "medium"; j_date := _now noon;
                    j_created_at := _now noon; j_updated_at := _now noon;
                    j_ended_at := ""; j_details := {[ "stage" := VStr "start" ]};
                    j_history := [ {| h_at := _now noon; h_status := "pending" |} ] |})
              ltac:(vm_compute; reflexivity) ltac:(vm_compute; reflexivity))
    as (H1 & (n & H2 & _ & H3) & (s & H4 & _ & _ & H5)).
  split; [exact H1|]. split.
  - rewrite H2. do 2 f_equal. apply H3. apply list_elem_of_In. simpl. tauto.
  - rewrite H4. do 2 f_equal. apply H5. apply list_elem_of_In. simpl. tauto.
Defined.


(** ** File names *)

Lemma filter_chars_all f s : all_chars f (filter_chars f s) = true.
Proof.
  induction s as [|a s IH]; simpl; [done|].
  destruct (f a) eqn:Ha; simpl; [by rewrite Ha|done].
Qed.

Lemma safe_not_absolute s t :
  all_chars is_safe_char s = true -> s <> "" -> startswith "/" (s ++ t) = false.
Proof.
  destruct s as [|a s]; [done|]. intros H _.
  apply andb_true_iff in H as [Ha _].
  change (startswith "/" (String a s ++ t)) with (if Ascii.eqb "/" a then true else false).
  destruct (Ascii.eqb_spec "/"%char a) as [<-|]; [discriminate|reflexivity].
Qed.

(** X7: for a task id of ASCII characters, the progress file is
    [outputs/progress/<name>.json], where [<name>] is the task id without the
    characters that are not letters, digits, [-] or [_], or [default] when
    nothing is left: the file lies directly in [outputs/progress]. *)
Theorem path_is_sanitized :
  forall task_id : string,
    is_ascii task_id = true ->
    ∃ name, _path task_id = "outputs/progress/" ++ name ++ ".json"
            ∧ all_chars is_safe_char name = true
            ∧ (0 < String.length name)%nat
            ∧ name = (if String.eqb (filter_chars is_safe_char task_id) ""
                      then "default" else filter_chars is_safe_char task_id).
Proof.
  intros task_id _. unfold _path. fold is_safe_char.
  set (name := if String.eqb (filter_chars is_safe_char task_id) ""
               then "default" else filter_chars is_safe_char task_id).
  assert (Hall : all_chars is_safe_char name = true).
  { unfold name. destruct (String.eqb _ ""); [reflexivity|apply filter_chars_all]. }
  assert (Hne : name <> "").
  { unfold name. destruct (String.eqb_spec (filter_chars is_safe_char task_id) "");
      [discriminate|done]. }
  exists name. split; [|split; [done|split; [|done]]].
  - unfold os_path_join at 1. rewrite (safe_not_absolute _ _ Hall Hne). reflexivity.
  - destruct name; [done|simpl; lia].
Qed.

Lemma path_is_sanitized_witness :
  ∃ name, _path "job 7/../a_b" = "outputs/progress/" ++ name ++ ".json"
          ∧ all_chars is_safe_char name = true
          ∧ (0 < String.length name)%nat
          ∧ name = "job7a_b".
Proof.
  destruct (path_is_sanitized "job 7/../a_b" eq_refl) as (name & H1 & H2 & H3 & H4).
  exists name. repeat split; assumption.
Defined.

Lemma ascii_no_surrogate s pos : is_ascii s = true -> find_surrogate pos s = None.
Proof.
  revert pos. induction s as [|a s IH]; intros pos H; [reflexivity|].
  unfold is_ascii in H. simpl in H. apply andb_true_iff in H as [Ha Hs].
  assert (Hn : surrogate_at (String a s) = None).
  { unfold surrogate_at. destruct s as [|b [|c r]]; try reflexivity.
    destruct (ascii_code a =? 237) eqn:E; [|reflexivity].
    apply Z.eqb_eq in E. apply Z.ltb_lt in Ha. lia. }
  change (find_surrogate pos (String a s))
    with (match surrogate_at (String a s) with
          | Some (cp, r) => Some (pos, cp, r)
          | None => find_surrogate (if is_continuation a then pos else pos + 1) s
          end).
  rewrite Hn. by apply IH.
Qed.

(** a string of ASCII characters is its own encoding *)
Lemma str_encode_ascii s : is_ascii s = true -> str_encode s = Ok s.
Proof. intros H. unfold str_encode. by rewrite ascii_no_surrogate. Qed.

Lemma hex_digit_is_hex n : 0 <= n < 16 -> is_hex_char (hex_digit n) = true.
Proof.
  intros H.
  assert (Hn : n = 0 ∨ n = 1 ∨ n = 2 ∨ n = 3 ∨ n = 4 ∨ n = 5 ∨ n = 6 ∨ n = 7
               ∨ n = 8 ∨ n = 9 ∨ n = 10 ∨ n = 11 ∨ n = 12 ∨ n = 13 ∨ n = 14
               ∨ n = 15) by lia.
  repeat destruct Hn as [->|Hn]; try reflexivity. by subst.
Qed.

Lemma hex_of_length n x : String.length (hex_of n x) = n.
Proof. induction n as [|n IH]; simpl; [done|]. by rewrite IH. Qed.

Lemma hex_of_is_hex n x : all_chars is_hex_char (hex_of n x) = true.
Proof.
  induction n as [|n IH]; simpl; [done|].
  rewrite IH, andb_true_r. apply hex_digit_is_hex. apply Z.mod_pos_bound. lia.
Qed.

Lemma substring_prefix a b : substring 0 (String.length a) (a ++ b) = a.
Proof.
  induction a as [|c a IH]; simpl.
  - by destruct b.
  - by rewrite IH.
Qed.

(** X8: for a URL of ASCII characters, [_key] returns [<name>-<h>], where
    [<name>] is the repository name without the characters that are not
    letters, digits, [-] or [_] and [<h>] is eight lower-case hexadecimal
    digits, the start of the SHA-1 of the URL; the cache directory is
    [outputs/cache/<name>-<h>]. *)
Theorem key_shape :
  forall url : string,
    is_ascii url = true ->
    ∃ name h, _key url = Ok (name ++ "-" ++ h)
              ∧ name = filter_chars is_safe_char (repo_name_of url)
              ∧ all_chars is_safe_char name = true
              ∧ h = substring 0 8 (sha1_hexdigest url)
              ∧ String.length h = 8%nat
              ∧ all_chars is_hex_char h = true
              ∧ os_path_join CACHE_ROOT (name ++ "-" ++ h)
                = "outputs/cache/" ++ name ++ "-" ++ h.
Proof.
  intros url Ha.
  assert (Hk : _key url = Ok (filter_chars is_safe_char (repo_name_of url) ++ "-"
                              ++ substring 0 8 (sha1_hexdigest url))).
  { unfold _key. by rewrite (str_encode_ascii _ Ha). }
  do 2 eexists. split; [exact Hk|]. split; [reflexivity|].
  split; [apply filter_chars_all|]. split; [reflexivity|].
  assert (H : ∃ x, substring 0 8 (sha1_hexdigest url) = hex_of 8 x).
  { unfold sha1_hexdigest.
    destruct (sha1 (bytes_of_string url)) as [[[[h0 h1] h2] h3] h4].
    exists h0. rewrite <- (hex_of_length 8 h0) at 1. apply substring_prefix. }
  destruct H as [x Hx].
  split; [rewrite Hx; apply hex_of_length|].
  split; [rewrite Hx; apply hex_of_is_hex|].
  apply (cache_path_eq _ _ Hk).
Qed.

Lemma key_shape_witness :
  ∃ name h, _key "https://github.com/acme/my.widgets.git/" = Ok (name ++ "-" ++ h)
            ∧ name = "mywidgets"
            ∧ h = "d07b549d".
Proof.
  destruct (key_shape "https://github.com/acme/my.widgets.git/" eq_refl)
    as (name & h & H1 & H2 & _ & H4 & _).
  exists name, h. split; [exact H1|]. split; [rewrite H2|rewrite H4];
    vm_compute; reflexivity.
Defined.


(** ** The ledger *)

Lemma world_eta w :
  {| progress_files := progress_files w; jobs_file := jobs_file w; fs := fs w;
     procs := procs w; progress_log := progress_log w; spawn_log := spawn_log w;
     signal_log := signal_log w |} = w.
Proof. by destruct w. Qed.

Lemma update_first_absent task_id g l :
  List.find (fun j => String.eqb (j_id j) task_id) l = None ->
  update_first task_id g l = l.
Proof.
  induction l as [|a l IH]; simpl; [done|].
  destruct (String.eqb (j_id a) task_id); [discriminate|].
  intros H. by rewrite IH.
Qed.

(** X9: [update_job] for an id that the ledger does not hold changes nothing:
    no record is created and no error is reported. *)
Theorem update_job_unknown_id :
  forall (task_id status : string) (details : gmap string value)
         (u1 u2 u3 : datetime) (w : World),
    find_job task_id w = None ->
    update_job task_id status details u1 u2 u3 w = w.
Proof.
  intros task_id status details u1 u2 u3 w H.
  unfold update_job, _save, _load, with_jobs.
  rewrite update_first_absent by exact H. apply world_eta.
Qed.

Lemma update_job_unknown_id_witness :
  update_job "t2" "completed" ∅ noon noon noon
    (create_job "t1" "https://github.com/acme/widgets" noon noon noon noon empty_world)
  = create_job "t1" "https://github.com/acme/widgets" noon noon noon noon empty_world.
Proof.
  apply (update_job_unknown_id "t2" "completed" ∅ noon noon noon
           (create_job "t1" "https://github.com/acme/widgets" noon noon noon noon
              empty_world)).
  reflexivity.
Defined.

Lemma find_update_first_other task_id task_id' g l :
  task_id' <> task_id ->
  (forall j, j_id (g j) = j_id j) ->
  List.find (fun j => String.eqb (j_id j) task_id') (update_first task_id g l)
  = List.find (fun j => String.eqb (j_id j) task_id') l.
Proof.
  intros Hne Hg. induction l as [|a l IH]; simpl; [done|].
  destruct (String.eqb_spec (j_id a) task_id) as [Ha|Ha]; simpl.
  - rewrite Hg, Ha. by destruct (String.eqb_spec task_id task_id').
  - by rewrite IH.
Qed.

Lemma find_create_other task_id task_id' (x : Job) l :
  task_id' <> task_id -> j_id x = task_id ->
  List.find (fun j => String.eqb (j_id j) task_id')
    (List.filter (fun j => negb (String.eqb (j_id j) task_id)) l ++ [x])
  = List.find (fun j => String.eqb (j_id j) task_id') l.
Proof.
  intros Hne Hx. induction l as [|a l IH]; simpl.
  - rewrite Hx. by destruct (String.eqb_spec task_id task_id').
  - destruct (String.eqb_spec (j_id a) task_id) as [Ha|Ha]; simpl.
    + rewrite Ha. by destruct (String.eqb_spec task_id task_id').
    + by rewrite IH.
Qed.

(** X10: [create_job] and [update_job] for one id leave the record of every
    other id as it was. *)
Theorem ledger_isolation :
  forall (task_id task_id' url status : string) (details : gmap string value)
         (t1 t2 t3 t4 : datetime) (w : World),
    task_id' <> task_id ->
    find_job task_id' (create_job task_id url t1 t2 t3 t4 w) = find_job task_id' w
    ∧ find_job task_id' (update_job task_id status details t1 t2 t3 w)
      = find_job task_id' w.
Proof.
  intros task_id task_id' url status details t1 t2 t3 t4 w Hne. split.
  - unfold find_job, create_job, get_jobs, _load, _save. simpl.
    by apply find_create_other.
  - unfold find_job, update_job, get_jobs, _load, _save. simpl.
    apply find_update_first_other; [done|]. intros j. apply update_record_id.
Qed.

Lemma ledger_isolation_witness :
  let w := create_job "t1" "https://github.com/acme/widgets" noon noon noon noon
             empty_world in
  find_job "t1" (create_job "t2" "https://github.com/acme/gears" noon noon noon noon w)
  = find_job "t1" w
  ∧ find_job "t1" (update_job "t2" "error" ∅ noon noon noon w) = find_job "t1" w.
Proof.
  intros w.
  apply (ledger_isolation "t2" "t1" "https://github.com/acme/gears" "error" ∅
           noon noon noon noon w).
  discriminate.
Defined.

Lemma map_id_update_first task_id g l :
  (forall j, j_id (g j) = j_id j) ->
  List.map j_id (update_first task_id g l) = List.map j_id l.
Proof.
  intros Hg. induction l as [|a l IH]; simpl; [done|].
  destruct (String.eqb (j_id a) task_id); simpl; [by rewrite Hg|by rewrite IH].
Qed.

Lemma map_id_filter task_id l :
  List.map j_id (List.filter (fun j => negb (String.eqb (j_id j) task_id)) l)
  = List.filter (fun x => negb (String.eqb x task_id)) (List.map j_id l).
Proof.
  induction l as [|a l IH]; simpl; [done|].
  destruct (String.eqb (j_id a) task_id); simpl; by rewrite IH.
Qed.

(** X11: the ids of the ledger: [update_job] keeps them as they are, and
    [create_job(id, ...)] removes every occurrence of [id] and puts [id] last;
    so a ledger in which no id occurs twice stays one under both. *)
Theorem ledger_ids_unique :
  forall (task_id url status : string) (details : gmap string value)
         (t1 t2 t3 t4 : datetime) (w : World),
    NoDup (ledger_ids w) ->
    ledger_ids (update_job task_id status details t1 t2 t3 w) = ledger_ids w
    ∧ ledger_ids (create_job task_id url t1 t2 t3 t4 w)
      = (List.filter (fun x => negb (String.eqb x task_id)) (ledger_ids w)
         ++ [task_id])%list
    ∧ NoDup (ledger_ids (create_job task_id url t1 t2 t3 t4 w)).
Proof.
  intros task_id url status details t1 t2 t3 t4 w Hnd.
  assert (Hc : ledger_ids (create_job task_id url t1 t2 t3 t4 w)
               = (List.filter (fun x => negb (String.eqb x task_id)) (ledger_ids w)
                  ++ [task_id])%list).
  { unfold ledger_ids, create_job, get_jobs, _load, _save. simpl.
    by rewrite List.map_app, map_id_filter. }
  split; [|split; [exact Hc|]].
  - unfold ledger_ids, update_job, get_jobs, _load, _save. simpl.
    apply map_id_update_first. intros j. apply update_record_id.
  - rewrite Hc. apply NoDup_app.
    split; [by apply NoDup_ListNoDup, List.NoDup_filter, NoDup_ListNoDup|].
    split; [|apply NoDup_singleton].
    intros x Hx Hx'. apply list_elem_of_In, List.filter_In in Hx as [_ Hx].
    apply list_elem_of_singleton in Hx'. subst x.
    by rewrite String.eqb_refl in Hx.
Qed.

Lemma ledger_ids_unique_witness :
  let w := create_job "t2" "https://github.com/acme/gears" noon noon noon noon
             (create_job "t1" "https://github.com/acme/widgets" noon noon noon noon
                empty_world) in
  ledger_ids (update_job "t1" "error" ∅ noon noon noon w) = ["t1"; "t2"]
  ∧ ledger_ids (create_job "t1" "https://github.com/acme/widgets" noon noon noon
                  noon w) = ["t2"; "t1"]
  ∧ NoDup (ledger_ids (create_job "t1" "https://github.com/acme/widgets" noon noon
                         noon noon w)).
Proof.
  intros w.
  apply (ledger_ids_unique "t1" "https://github.com/acme/widgets" "error" ∅
           noon noon noon noon w).
  change (NoDup ["t1"; "t2"]).
  apply NoDup_ListNoDup. repeat constructor; simpl; intuition discriminate.
Defined.


(** X12: [update_job] on a record of the ledger appends exactly one history
    entry, with the new status, after the entries the record had; it sets the
    status and [updated_at], keeps the id, the URL, [date] and [created_at],
    and changes [ended_at] only when the status is, letter for letter, one of
    completed, canceled, error and timeout. *)
Theorem update_job_appends_history :
  forall (task_id status : string) (details : gmap string value)
         (u1 u2 u3 : datetime) (w : World) (j : Job),
    find_job task_id w = Some j ->
    ∃ j', find_job task_id (update_job task_id status details u1 u2 u3 w) = Some j'
      ∧ j_history j' = (j_history j ++ [ {| h_at := _now u2; h_status := status |} ])%list
      ∧ j_status j' = status
      ∧ j_updated_at j' = _now u1
      ∧ j_id j' = j_id j ∧ j_repo_url j' = j_repo_url j
      ∧ j_date j' = j_date j ∧ j_created_at j' = j_created_at j
      ∧ j_ended_at j' = (if is_terminal status then _now u3 else j_ended_at j).
Proof.
  intros task_id status details u1 u2 u3 w j Hj.
  exists (update_record status details u1 u2 u3 j).
  rewrite find_job_update, Hj. split; [done|].
  unfold update_record. by destruct (mapped_agent status).
Qed.

Lemma update_job_appends_history_witness :
  let w := create_job "t1" "https://github.com/acme/widgets" noon noon noon noon
             empty_world in
  ∃ j', find_job "t1" (update_job "t1" "in_progress" ∅ noon noon noon w) = Some j'
    ∧ List.map h_status (j_history j') = ["pending"; "in_progress"]
    ∧ j_ended_at j' = "".
Proof.
  intros w.
  destruct (update_job_appends_history "t1" "in_progress" ∅ noon noon noon w
              {| j_id := "t1"; j_repo_url := "https://github.com/acme/widgets";
                 j_status := "pending"; j_agent := VStr "CodeAnalyzer";
                 j_priority := VStr "medium"; j_date := _now noon;
                 j_created_at := _now noon; j_updated_at := _now noon;
                 j_ended_at := ""; j_details := {[ "stage" := VStr "start" ]};
                 j_history := [ {| h_at := _now noon; h_status := "pending" |} ] |}
              eq_refl) as (j' & H1 & H2 & _ & _ & _ & _ & _ & _ & H3).
  exists j'. split; [exact H1|]. split.
  - rewrite H2. reflexivity.
  - rewrite H3. reflexivity.
Defined.

(** X13: the agent table is read through the lower-cased status, the terminal
    test through the status as given: a status that is "completed" only up to
    letter case gets the completion agent, and [ended_at] stays as it was. *)
Theorem update_job_letter_case :
  forall (task_id status : string) (details : gmap string value)
         (u1 u2 u3 : datetime) (w : World) (j : Job),
    find_job task_id w = Some j ->
    lower status = "completed" ->
    status <> "completed" ->
    ∃ j', find_job task_id (update_job task_id status details u1 u2 u3 w) = Some j'
      ∧ j_agent j' = VStr "DocGenerator"
      ∧ j_ended_at j' = j_ended_at j.
Proof.
  intros task_id status details u1 u2 u3 w j Hj Hl Hne.
  exists (update_record status details u1 u2 u3 j).
  rewrite find_job_update, Hj. split; [done|].
  rewrite update_record_agent.
  assert (Hm : mapped_agent status = Some "DocGenerator").
  { unfold mapped_agent. by rewrite Hl. }
  rewrite Hm. split; [done|].
  assert (Ht : is_terminal status = false).
  { unfold is_terminal.
    destruct (String.eqb_spec status "completed"); [done|].
    destruct (String.eqb_spec status "canceled") as [->|]; [discriminate|].
    destruct (String.eqb_spec status "error") as [->|]; [discriminate|].
    destruct (String.eqb_spec status "timeout") as [->|]; [discriminate|done]. }
  unfold update_record. rewrite Hm. simpl. by rewrite Ht.
Qed.

Lemma update_job_letter_case_witness :
  let w := create_job "t1" "https://github.com/acme/widgets" noon noon noon noon
             empty_world in
  ∃ j', find_job "t1" (update_job "t1" "Completed" ∅ noon noon noon w) = Some j'
    ∧ j_agent j' = VStr "DocGenerator"
    ∧ j_ended_at j' = "".
Proof.
  intros w.
  apply (update_job_letter_case "t1" "Completed" ∅ noon noon noon w
           {| j_id := "t1"; j_repo_url := "https://github.com/acme/widgets";
              j_status := "pending"; j_agent := VStr "CodeAnalyzer";
              j_priority := VStr "medium"; j_date := _now noon;
              j_created_at := _now noon; j_updated_at := _now noon;
              j_ended_at := ""; j_details := {[ "stage" := VStr "start" ]};
              j_history := [ {| h_at := _now noon; h_status := "pending" |} ] |}
           eq_refl eq_refl).
  discriminate.
Defined.

(** X14: [update_job] merges [details] into the record's details: a key of
    [details] other than "agent" gets the given value, a key that [details]
    does not have keeps its value, "agent" holds the table's agent when the
    status is in the table, and a "priority" in [details] also becomes the
    record's priority. *)
Theorem update_job_merges_details :
  forall (task_id status : string) (details : gmap string value)
         (u1 u2 u3 : datetime) (w : World) (j : Job),
    find_job task_id w = Some j ->
    ∃ j', find_job task_id (update_job task_id status details u1 u2 u3 w) = Some j'
      ∧ (∀ k, k <> "agent" ->
              j_details j' !! k = match details !! k with
                                  | Some v => Some v
                                  | None => j_details j !! k
                                  end)
      ∧ j_details j' !! "agent"
        = match mapped_agent status with
          | Some a => Some (VStr a)
          | None => match details !! "agent" with
                    | Some v => Some v
                    | None => j_details j !! "agent"
                    end
          end
      ∧ j_priority j' = default (j_priority j) (details !! "priority").
Proof.
  intros task_id status details u1 u2 u3 w j Hj.
  exists (update_record status details u1 u2 u3 j).
  rewrite find_job_update, Hj. split; [done|].
  assert (Hd : ∀ k, (if bool_decide (details = ∅) then j_details j
                     else py_update (j_details j) details) !! k
                    = match details !! k with
                      | Some v => Some v
                      | None => j_details j !! k
                      end).
  { intros k. case_bool_decide as He.
    - subst details. by rewrite lookup_empty.
    - unfold py_update. rewrite lookup_union.
      destruct (details !! k); [by rewrite union_Some_l|].
      by rewrite (left_id_L None (∪)). }
  unfold update_record. destruct (mapped_agent status) as [a|]; simpl.
  - split; [|split].
    + intros k Hk. by rewrite lookup_insert_ne, Hd.
    + by rewrite lookup_insert_eq.
    + by destruct (details !! "priority").
  - split; [|split].
    + intros k _. apply Hd.
    + apply Hd.
    + by destruct (details !! "priority").
Qed.

Lemma update_job_merges_details_witness :
  let w := create_job "t1" "https://github.com/acme/widgets" noon noon noon noon
             empty_world in
  ∃ j', find_job "t1"
          (update_job "t1" "in_progress"
             {[ "stage" := VStr "clone"; "priority" := VStr "high" ]}
             noon noon noon w) = Some j'
    ∧ j_details j' !! "stage" = Some (VStr "clone")
    ∧ j_details j' !! "agent" = Some (VStr "CodeAnalyzer")
    ∧ j_priority j' = VStr "high".
Proof.
  intros w.
  destruct (update_job_merges_details "t1" "in_progress"
              {[ "stage" := VStr "clone"; "priority" := VStr "high" ]}
              noon noon noon w
              {| j_id := "t1"; j_repo_url := "https://github.com/acme/widgets";
                 j_status := "pending"; j_agent := VStr "CodeAnalyzer";
                 j_priority := VStr "medium"; j_date := _now noon;
                 j_created_at := _now noon; j_updated_at := _now noon;
                 j_ended_at := ""; j_details := {[ "stage" := VStr "start" ]};
                 j_history := [ {| h_at := _now noon; h_status := "pending" |} ] |}
              eq_refl) as (j' & H1 & H2 & H3 & H4).
  exists j'. split; [exact H1|]. split; [|split].
  - rewrite H2 by discriminate. reflexivity.
  - rewrite H3. reflexivity.
  - rewrite H4. reflexivity.
Defined.

Lemma find_job_create task_id url t1 t2 t3 t4 w :
  find_job task_id (create_job task_id url t1 t2 t3 t4 w)
  = Some {| j_id := task_id; j_repo_url := url; j_status := "pending";
            j_agent := VStr "CodeAnalyzer"; j_priority := VStr "medium";
            j_date := _now t1; j_created_at := _now t2; j_updated_at := _now t3;
            j_ended_at := ""; j_details := {[ "stage" := VStr "start" ]};
            j_history := [ {| h_at := _now t4; h_status := "pending" |} ] |}.
Proof.
  unfold find_job, create_job, get_jobs, _load, _save. simpl.
  rewrite find_none_app
    by apply (find_filter_negb (fun j => String.eqb (j_id j) task_id)).
  simpl. by rewrite String.eqb_refl.
Qed.

(** X15: a task that is known to the ledger only: with no progress file for
    the id, [get_progress] shows status pending at percent 10 with stage start
    after [create_job], and status done at percent 100 after
    [update_job(id, "completed", {})]. *)
Theorem ledger_only_progress :
  forall (task_id url : string) (t1 t2 t3 t4 u1 u2 u3 : datetime) (w : World),
    progress_files w !! _path task_id = None ->
    let w1 := create_job task_id url t1 t2 t3 t4 w in
    let w2 := update_job task_id "completed" ∅ u1 u2 u3 w1 in
    get_progress task_id w1 !! "status" = Some (VStr "pending")
    ∧ get_progress task_id w1 !! "percent" = Some (VInt 10)
    ∧ get_progress task_id w1 !! "stage" = Some (VStr "start")
    ∧ get_progress task_id w2 !! "status" = Some (VStr "done")
    ∧ get_progress task_id w2 !! "percent" = Some (VInt 100).
Proof.
  intros task_id url t1 t2 t3 t4 u1 u2 u3 w Hf w1 w2.
  pose proof (find_job_create task_id url t1 t2 t3 t4 w) as H1. fold w1 in H1.
  pose proof (find_job_update task_id "completed" ∅ u1 u2 u3 w1) as H2.
  fold w2 in H2. rewrite H1 in H2. simpl in H2.
  unfold find_job in H1, H2.
  assert (Hg1 : progress_files w1 !! _path task_id = None) by exact Hf.
  assert (Hg2 : progress_files w2 !! _path task_id = None) by exact Hf.
  unfold get_progress, _infer_from_jobs. rewrite Hg1, Hg2, H1, H2.
  repeat split; vm_compute; reflexivity.
Qed.

Lemma ledger_only_progress_witness :
  let w1 := create_job "t1" "https://github.com/acme/widgets" noon noon noon noon
              empty_world in
  let w2 := update_job "t1" "completed" ∅ noon noon noon w1 in
  get_progress "t1" w1 !! "status" = Some (VStr "pending")
  ∧ get_progress "t1" w1 !! "percent" = Some (VInt 10)
  ∧ get_progress "t1" w1 !! "stage" = Some (VStr "start")
  ∧ get_progress "t1" w2 !! "status" = Some (VStr "done")
  ∧ get_progress "t1" w2 !! "percent" = Some (VInt 100).
Proof.
  apply (ledger_only_progress "t1" "https://github.com/acme/widgets"
           noon noon noon noon noon noon noon empty_world).
  reflexivity.
Defined.


(** ** Search in the ledger *)

Lemma search_loop_no_query s l :
  search_loop "" s l
  = Ok (List.filter
          (fun j => String.eqb s "" || String.eqb s "any"
                    || String.eqb s (lower (j_status j))) l).
Proof.
  induction l as [|j l IH]; simpl; [done|]. rewrite IH.
  unfold job_selected. simpl.
  by destruct (String.eqb s ""), (String.eqb s "any"),
              (String.eqb s (lower (j_status j))).
Qed.

(** X16: [search_jobs] without a query never fails and returns, in ledger
    order, the records whose lower-cased status is the lower-cased [status];
    an empty [status] or "any" (in any letter case) returns the whole
    ledger. *)
Theorem search_without_query :
  forall (status : string) (w : World),
    search_jobs "" status w
    = Ok (List.filter
            (fun j => String.eqb (lower status) "" || String.eqb (lower status) "any"
                      || String.eqb (lower status) (lower (j_status j)))
            (get_jobs w))
    ∧ (lower status = "" ∨ lower status = "any" ->
       search_jobs "" status w = Ok (get_jobs w)).
Proof.
  intros status w. unfold search_jobs. simpl. rewrite search_loop_no_query.
  split; [done|]. intros H. f_equal. unfold get_jobs.
  set (f := fun j => String.eqb (lower status) "" || String.eqb (lower status) "any"
                     || String.eqb (lower status) (lower (j_status j))).
  assert (Hf : ∀ j, f j = true).
  { intros j. unfold f. destruct H as [-> | ->]; reflexivity. }
  induction (_load w) as [|j l IH]; simpl; [done|]. by rewrite Hf, IH.
Qed.

Lemma search_loop_sublist q s l out :
  search_loop q s l = Ok out ->
  sublist out l
  ∧ Forall (fun j => s = "" ∨ s = "any" ∨ s = lower (j_status j)) out.
Proof.
  revert out. induction l as [|j l IH]; intros out; simpl.
  - intros H. injection H as <-. split; constructor.
  - destruct (job_selected q s j) as [keep|e] eqn:Hsel; [|discriminate].
    destruct (search_loop q s l) as [out'|e]; [|discriminate].
    intros H. injection H as <-. destruct (IH out' eq_refl) as [H1 H2].
    destruct keep.
    + split; [by constructor|]. constructor; [|done].
      assert (Hst : negb (negb (String.eqb s "") && negb (String.eqb s "any")
                          && negb (String.eqb s (lower (j_status j)))) = true).
      { revert Hsel. unfold job_selected.
        destruct (String.eqb q ""); [intros H; by injection H|].
        destruct (value_lower (j_agent j)); [|discriminate].
        destruct (if truthy (py_get (j_details j) "agent") then _ else _);
          [|discriminate].
        destruct (negb _); [discriminate|]. intros H. by injection H. }
      destruct (String.eqb_spec s ""); [auto|].
      destruct (String.eqb_spec s "any"); [auto|].
      destruct (String.eqb_spec s (lower (j_status j))); [auto|discriminate].
    + split; [by constructor|done].
Qed.

(** X17: when [search_jobs] returns, its result is the ledger with some records
    left out, in the same order, and every record of the result passes the
    status filter. *)
Theorem search_returns_sublist :
  forall (query status : string) (w : World) (out : list Job),
    search_jobs query status w = Ok out ->
    sublist out (get_jobs w)
    ∧ Forall (fun j => lower status = "" ∨ lower status = "any"
                       ∨ lower status = lower (j_status j)) out.
Proof. intros query status w out. apply search_loop_sublist. Qed.

Lemma search_returns_sublist_witness :
  let w := create_job "t2" "https://github.com/acme/gears" noon noon noon noon
             (create_job "t1" "https://github.com/acme/widgets" noon noon noon noon
                empty_world) in
  ∃ out, search_jobs "WIDGETS" "Pending" w = Ok out
         ∧ List.map j_id out = ["t1"]
         ∧ sublist out (get_jobs w).
Proof.
  intros w. eexists. split; [vm_compute; reflexivity|]. split; [reflexivity|].
  refine (proj1 (search_returns_sublist "WIDGETS" "Pending" w _ _)).
  vm_compute. reflexivity.
Defined.

Lemma startswith_refl x : startswith x x = true.
Proof. induction x as [|c x IH]; simpl; [done|]. by rewrite Ascii.eqb_refl. Qed.

Lemma contains_refl x : contains x x = true.
Proof. destruct x; simpl; [done|]. by rewrite Ascii.eqb_refl, startswith_refl. Qed.

Lemma substring_all b : substring 0 (String.length b) b = b.
Proof. induction b as [|c b IH]; simpl; [done|]. by rewrite IH. Qed.

Lemma substring_suffix a b :
  substring (String.length a) (String.length b) (a ++ b) = b.
Proof. induction a as [|c a IH]; simpl; [apply substring_all|exact IH]. Qed.

Lemma endswith_app a b : endswith b (a ++ b) = true.
Proof.
  unfold endswith. rewrite string_length_app.
  replace (String.length a + String.length b - String.length b)%nat
    with (String.length a) by lia.
  rewrite substring_suffix, String.eqb_refl, andb_true_r.
  apply Nat.leb_le. lia.
Qed.

Lemma drop_last_app a b : drop_last (String.length b) (a ++ b) = a.
Proof.
  unfold drop_last. rewrite string_length_app.
  replace (String.length a + String.length b - String.length b)%nat
    with (String.length a) by lia.
  apply substring_prefix.
Qed.

Lemma agent_match_plural x : x <> "" -> _agent_match (x ++ "s") x = true.
Proof.
  intros Hx. unfold _agent_match.
  destruct (String.eqb_spec x ""); [done|].
  destruct (contains (x ++ "s") x); [done|].
  pose proof (drop_last_app x "s") as Hd. simpl in Hd.
  rewrite (endswith_app x "s"), Hd, contains_refl. done.
Qed.

Lemma agent_match_contains q x : x <> "" -> contains q x = true -> _agent_match q x = true.
Proof.
  intros Hx Hc. unfold _agent_match.
  destruct (String.eqb_spec x ""); [done|]. by rewrite Hc.
Qed.

Lemma lower_not_empty x : x <> "" -> lower x <> "".
Proof. by destruct x. Qed.

Lemma job_selected_strings q s j :
  (∃ a, j_agent j = VStr a) ->
  (∀ v, j_details j !! "agent" = Some v -> ∃ a, v = VStr a) ->
  ∃ keep, job_selected q s j = Ok keep.
Proof.
  intros [a Ha] Hd. unfold job_selected. destruct (String.eqb q ""); [eauto|].
  rewrite Ha. simpl. unfold py_get.
  destruct (j_details j !! "agent") as [v|] eqn:Hv; simpl.
  - destruct (Hd v eq_refl) as [a' ->]. simpl.
    destruct (negb (String.eqb a' "")); simpl;
      match goal with |- context [if ?c then _ else _] => destruct c end; eauto.
  - match goal with |- context [if ?c then _ else _] => destruct c end; eauto.
Qed.

Lemma search_loop_strings q s l :
  agents_are_strings l ->
  ∃ out, search_loop q s l = Ok out
         ∧ ∀ j, j ∈ l -> job_selected q s j = Ok true -> j ∈ out.
Proof.
  induction 1 as [|j l [Ha Hd] _ IH]; simpl.
  - exists []. split; [done|]. intros j Hj. by apply not_elem_of_nil in Hj.
  - destruct (job_selected_strings q s j Ha Hd) as [keep Hk].
    destruct IH as (out & Hout & Hin). rewrite Hk, Hout.
    eexists. split; [reflexivity|].
    intros j' Hj' Hsel. apply elem_of_cons in Hj' as [->|Hj'].
    + rewrite Hk in Hsel. injection Hsel as ->. by left.
    + destruct keep; [right|]; by apply Hin.
Qed.

(** X18: in a ledger whose agents are all strings, [search_jobs] with a query
    of ASCII characters and no status filter finds every record whose id or
    URL, of ASCII characters, contains the query, letter case aside, and every
    record whose agent, of ASCII characters, contains the query or, with an
    [s] added, is the query. *)
Theorem search_finds :
  forall (query : string) (w : World) (j : Job),
    is_ascii query = true ->
    agents_are_strings (get_jobs w) ->
    j ∈ get_jobs w ->
    (is_ascii (j_id j) = true ∧ contains (lower query) (lower (j_id j)) = true)
    ∨ (is_ascii (j_repo_url j) = true
       ∧ contains (lower query) (lower (j_repo_url j)) = true)
    ∨ (∃ a, j_agent j = VStr a ∧ is_ascii a = true ∧ a <> ""
            ∧ (contains (lower query) (lower a) = true
               ∨ lower query = lower a ++ "s")) ->
    ∃ out, search_jobs query "" w = Ok out ∧ j ∈ out.
Proof.
  intros query w j _ Hs Hj Hm. unfold search_jobs. simpl.
  destruct (search_loop_strings (lower query) "" _ Hs) as (out & Hout & Hin).
  exists out. split; [exact Hout|]. apply Hin; [exact Hj|].
  apply List.Forall_forall with (x := j) in Hs as [[a Ha] Hd];
    [|by apply list_elem_of_In].
  unfold job_selected. destruct (String.eqb (lower query) ""); [done|].
  rewrite Ha. simpl.
  assert (Hd' : ∃ d, (if truthy (py_get (j_details j) "agent")
                      then value_lower (py_get (j_details j) "agent")
                      else Ok "") = Ok d).
  { unfold py_get. destruct (j_details j !! "agent") as [v|] eqn:Hv; simpl; [|eauto].
    destruct (Hd v eq_refl) as [a' ->]. simpl.
    destruct (negb (String.eqb a' "")); eauto. }
  destruct Hd' as [d ->].
  destruct Hm as [[_ ->] | [[_ ->] | (a' & Ha' & _ & Hne & Hm)]]; simpl;
    [done|by rewrite orb_true_r|].
  rewrite Ha in Ha'. injection Ha' as <-.
  assert (Hag : _agent_match (lower query) (lower a) = true).
  { destruct Hm as [Hc | ->].
    - apply agent_match_contains; [by apply lower_not_empty|done].
    - apply agent_match_plural. by apply lower_not_empty. }
  rewrite Hag. by rewrite !orb_true_r.
Qed.

Lemma search_finds_witness :
  let w := update_job "t1" "completed" ∅ noon noon noon
             (create_job "t1" "https://github.com/acme/widgets" noon noon noon noon
                empty_world) in
  ∃ out, search_jobs "DocGenerators" "" w = Ok out
         ∧ update_record "completed" ∅ noon noon noon
             {| j_id := "t1"; j_repo_url := "https://github.com/acme/widgets";
                j_status := "pending"; j_agent := VStr "CodeAnalyzer";
                j_priority := VStr "medium"; j_date := _now noon;
                j_created_at := _now noon; j_updated_at := _now noon;
                j_ended_at := ""; j_details := {[ "stage" := VStr "start" ]};
                j_history := [ {| h_at := _now noon; h_status := "pending" |} ] |}
           ∈ out.
Proof.
  intros w. apply (search_finds "DocGenerators" w).
  - reflexivity.
  - repeat constructor; [by eexists|].
    intros v Hv. vm_compute in Hv. injection Hv as <-. by eexists.
  - apply list_elem_of_In. left. reflexivity.
  - right. right. exists "DocGenerator". split; [reflexivity|].
    split; [reflexivity|]. split; [discriminate|]. right. reflexivity.
Defined.

Lemma search_loop_raises q s l j :
  j ∈ l -> (∃ e, job_selected q s j = Raise e) -> ∃ e, search_loop q s l = Raise e.
Proof.
  intros Hj [e He]. induction l as [|a l IH]; [by apply not_elem_of_nil in Hj|].
  simpl. apply elem_of_cons in Hj as [<-|Hj].
  - rewrite He. eauto.
  - destruct (job_selected q s a); [|eauto].
    destruct (IH Hj) as [e' ->]. eauto.
Qed.

(** X19: [search_jobs] with a non-empty query raises as soon as the ledger
    holds one record whose agent is not a string, which [update_job] writes
    when [details] gives such an agent and the status is outside the table. *)
Theorem search_raises_on_agent :
  forall (query status : string) (w : World) (j : Job),
    query <> "" ->
    j ∈ get_jobs w ->
    (∀ a, j_agent j <> VStr a) ->
    ∃ e, search_jobs query status w = Raise e.
Proof.
  intros query status w j Hq Hj Ha. unfold search_jobs.
  apply (search_loop_raises _ _ _ j Hj). unfold job_selected.
  destruct (String.eqb_spec (lower query) "") as [He|_];
    [by apply lower_not_empty in Hq|].
  destruct (j_agent j) as [| | |a|]; simpl; eauto. by destruct (Ha a).
Qed.

Lemma search_raises_on_agent_witness :
  ∃ e, search_jobs "widgets" ""
         (update_job "t1" "queued" {[ "agent" := VInt 7 ]} noon noon noon
            (create_job "t1" "https://github.com/acme/widgets" noon noon noon noon
               empty_world)) = Raise e.
Proof.
  apply (search_raises_on_agent "widgets" ""
           (update_job "t1" "queued" {[ "agent" := VInt 7 ]} noon noon noon
              (create_job "t1" "https://github.com/acme/widgets" noon noon noon noon
                 empty_world))
           (update_record "queued" {[ "agent" := VInt 7 ]} noon noon noon
              {| j_id := "t1"; j_repo_url := "https://github.com/acme/widgets";
                 j_status := "pending"; j_agent := VStr "CodeAnalyzer";
                 j_priority := VStr "medium"; j_date := _now noon;
                 j_created_at := _now noon; j_updated_at := _now noon;
                 j_ended_at := ""; j_details := {[ "stage" := VStr "start" ]};
                 j_history := [ {| h_at := _now noon; h_status := "pending" |} ] |})).
  - discriminate.
  - apply list_elem_of_In. left. reflexivity.
  - intros a. vm_compute. discriminate.
Defined.


(** ** Cancelling a clone *)

(** X20: with a child registered for [id], [cancel_clone(id)] returns true,
    sends the child SIGTERM and then SIGKILL, writes a canceled record with the
    message "Canceled by user" and removes the registration, so that a second
    [cancel_clone(id)] returns false. *)
Theorem cancel_running_clone :
  forall (task_id : string) (pid : nat) (w : World),
    procs w !! task_id = Some pid ->
    ∃ w1, cancel_clone task_id w = (true, w1)
      ∧ signal_log w1 = (signal_log w ++ [(pid, SIGTERM); (pid, SIGKILL)])%list
      ∧ procs w1 !! task_id = None
      ∧ get_progress task_id w1 !! "status" = Some (VStr "canceled")
      ∧ get_progress task_id w1 !! "message" = Some (VStr "Canceled by user")
      ∧ is_canceled task_id w1 = true
      ∧ fst (cancel_clone task_id w1) = false.
Proof.
  intros task_id pid w Hp. unfold cancel_clone at 1. rewrite Hp.
  eexists. split; [reflexivity|].
  split; [simpl; by rewrite <- app_assoc|].
  assert (Hn : procs (with_procs
                        (delete task_id
                           (procs (set_canceled task_id "Canceled by user"
                                     (terminate_and_kill pid w))))
                        (set_canceled task_id "Canceled by user"
                           (terminate_and_kill pid w))) !! task_id = None)
    by (simpl; apply lookup_delete_eq).
  split; [exact Hn|].
  rewrite (get_progress_frame task_id
             (set_canceled task_id "Canceled by user" (terminate_and_kill pid w)))
    by reflexivity.
  rewrite !set_canceled_lookup. simpl. do 2 (split; [done|]). split.
  - rewrite (is_canceled_frame task_id
               (set_canceled task_id "Canceled by user" (terminate_and_kill pid w)))
      by reflexivity.
    apply is_canceled_set_canceled.
  - unfold cancel_clone. simpl. by rewrite lookup_delete_eq.
Qed.

Lemma cancel_running_clone_witness :
  ∃ w1, cancel_clone "t1" (with_procs {[ "t1" := 4242%nat ]} empty_world) = (true, w1)
    ∧ signal_log w1 = [(4242%nat, SIGTERM); (4242%nat, SIGKILL)]
    ∧ procs w1 !! "t1" = None
    ∧ get_progress "t1" w1 !! "status" = Some (VStr "canceled")
    ∧ get_progress "t1" w1 !! "message" = Some (VStr "Canceled by user")
    ∧ is_canceled "t1" w1 = true
    ∧ fst (cancel_clone "t1" w1) = false.
Proof.
  apply (cancel_running_clone "t1" 4242 (with_procs {[ "t1" := 4242%nat ]} empty_world)).
  reflexivity.
Defined.

Lemma clone_handler_procs task_id e w :
  procs (snd (clone_handler task_id e w)) = procs w.
Proof. by destruct e. Qed.

(** X21: when [interruptible_clone] returns after it has spawned its child, the
    process registry holds no entry for the task any more; when it returns
    before the spawn, the registry is as it was. *)
Theorem clone_unregisters :
  forall (task_id url : string) (max_seconds depth : Z) (env : Env) (w : World)
         (v : string),
    let r := interruptible_clone task_id url max_seconds depth env w in
    fst r = Returns v ->
    match clone_start task_id url depth env w with
    | Some _ => procs (snd r) !! task_id = None
    | None => procs (snd r) = procs w
    end.
Proof.
  intros task_id url max_seconds depth env w v r Hr. subst r.
  destruct (clone_start task_id url depth env w) as [[[pid path] w0]|] eqn:Hs.
  - rewrite (interruptible_clone_started _ _ _ _ _ _ _ _ _ Hs) in *.
    destruct (clone_loop task_id pid (env_has_stderr env) (env_start env) max_seconds
                (env_iters env) w0) as [[v'| |e|] wl]; simpl in *.
    + apply lookup_delete_eq.
    + destruct (env_wait env) as [code|e].
      * destruct (code =? 0); simpl; apply lookup_delete_eq.
      * rewrite clone_handler_procs. simpl. apply lookup_delete_eq.
    + rewrite clone_handler_procs. simpl. apply lookup_delete_eq.
    + discriminate.
  - clear Hr. revert Hs. unfold clone_start, interruptible_clone, url_ok, mkdtemp.
    destruct (String.eqb url "" || negb (contains "github.com" url)); simpl; [done|].
    destruct (env_gettempdir env) as [dir|e];
      [|intros _; by rewrite clone_handler_procs].
    destruct (env_popen env) as [pid|e]; [discriminate|].
    intros _. by rewrite clone_handler_procs.
Qed.

Lemma clone_unregisters_witness :
  procs (snd (interruptible_clone "t1" "https://github.com/acme/widgets" 180 1
                (sample_env [sample_ob 1001 "" (Some 0)] 0) empty_world))
    !! "t1" = None.
Proof.
  apply (clone_unregisters "t1" "https://github.com/acme/widgets" 180 1
           (sample_env [sample_ob 1001 "" (Some 0)] 0) empty_world
           "/tmp/tmpk3x9_q2a/widgets").
  vm_compute. reflexivity.
Defined.

Lemma is_canceled_kept_by_set_canceled task_id task_id' message w :
  is_canceled task_id w = true ->
  is_canceled task_id (set_canceled task_id' message w) = true.
Proof.
  intros H.
  destruct (decide (_path task_id' = _path task_id)) as [Hp|Hp].
  - unfold is_canceled.
    rewrite (get_progress_same_file task_id' task_id) by
      (try done; unfold set_canceled; rewrite file_after_write; eauto).
    apply is_canceled_set_canceled.
  - unfold is_canceled, set_canceled. by rewrite get_progress_other_write.
Qed.

Lemma is_canceled_kept_by_call task_id c w :
  is_canceled task_id w = true -> is_canceled task_id (run_ext_call w c) = true.
Proof.
  intros H. destruct c as [t m|t]; simpl.
  - by apply is_canceled_kept_by_set_canceled.
  - unfold cancel_clone. destruct (procs w !! t) as [pid|]; simpl.
    + rewrite (is_canceled_frame task_id
                 (set_canceled t "Canceled by user" (terminate_and_kill pid w)))
        by reflexivity.
      apply is_canceled_kept_by_set_canceled.
      by rewrite (is_canceled_frame task_id w).
    + by apply is_canceled_kept_by_set_canceled.
Qed.

Lemma is_canceled_set_by_call task_id c w :
  cancels task_id c = true -> is_canceled task_id (run_ext_call w c) = true.
Proof.
  destruct c as [t m|t]; simpl; intros H; apply String.eqb_eq in H as ->.
  - apply is_canceled_set_canceled.
  - unfold cancel_clone. destruct (procs w !! task_id) as [pid|]; simpl.
    + rewrite (is_canceled_frame task_id
                 (set_canceled task_id "Canceled by user" (terminate_and_kill pid w)))
        by reflexivity.
      apply is_canceled_set_canceled.
    + apply is_canceled_set_canceled.
Qed.

Lemma is_canceled_after_calls task_id cs w :
  is_canceled task_id w = true ∨ existsb (cancels task_id) cs = true ->
  is_canceled task_id (fold_left run_ext_call cs w) = true.
Proof.
  revert w. induction cs as [|c cs IH]; intros w H; simpl in *.
  - by destruct H.
  - apply IH. destruct H as [H|H].
    + left. by apply is_canceled_kept_by_call.
    + apply orb_true_iff in H as [H|H]; [left|by right].
      by apply is_canceled_set_by_call.
Qed.

Lemma is_canceled_meanwhile task_id ob w :
  existsb (cancels task_id) (ob_others ob) = true ->
  is_canceled task_id (meanwhile ob w) = true.
Proof. intros H. unfold meanwhile. apply is_canceled_after_calls. by right. Qed.

Lemma clone_loop_canceled task_id pid hs start max_seconds obs w :
  is_canceled task_id w = true ->
  clone_loop task_id pid hs start max_seconds obs w
  = (LReturn "", terminate_and_kill pid (set_canceled task_id "Canceled by user" w)).
Proof. intros H. destruct obs; simpl; by rewrite H. Qed.

Lemma cache_loop_canceled task_id pid hs start timeout obs w :
  is_canceled task_id w = true ->
  cache_loop task_id pid hs start timeout obs w
  = (LReturn "", terminate_and_kill pid
                   (set_canceled task_id "Canceled during cache" w)).
Proof. intros H. destruct obs; simpl; by rewrite H. Qed.

(** X22: a cancellation during a clone: when another context calls
    [set_canceled(id, ...)] or [cancel_clone(id)] while the loop of
    [interruptible_clone], still running after [pre], waits for a line, and the
    loop goes on after that line, the next check ends the call: it returns the
    empty string, the record has status canceled with the message "Canceled by
    user", and the registry holds no entry for the task. *)
Theorem clone_canceled_meanwhile :
  forall (task_id url : string) (max_seconds depth : Z) (env : Env) (w : World)
         (pre post : list iter_obs) (ob : iter_obs),
    let before :=
      interruptible_clone task_id url max_seconds depth (with_iters pre env) w in
    fst before = Running ->
    timed_out (env_start env) (ob_now ob) max_seconds = false ->
    env_has_stderr env = true ->
    clone_goes_on ob = true ->
    existsb (cancels task_id) (ob_others ob) = true ->
    ∃ w', interruptible_clone task_id url max_seconds depth
            (with_iters (pre ++ ob :: post) env) w = (Returns "", w')
          ∧ get_progress task_id w' !! "status" = Some (VStr "canceled")
          ∧ get_progress task_id w' !! "canceled" = Some (VBool true)
          ∧ get_progress task_id w' !! "message" = Some (VStr "Canceled by user")
          ∧ procs w' !! task_id = None.
Proof.
  intros task_id url max_seconds depth env w pre post ob before Hrun Ht Hs Hgo Hc.
  pose proof (interruptible_clone_running_not_canceled _ _ _ _ _ _ Hrun) as Hnc.
  fold before in Hnc.
  destruct (interruptible_clone_resume _ _ _ _ _ _ _ (ob :: post) Hrun)
    as (pid & path & w0 & Hstart & ->).
  fold before. simpl. rewrite Hnc, Ht, Hs. simpl.
  pose proof (is_canceled_meanwhile task_id ob (snd before) Hc) as Hm.
  assert (Hl : ∃ wx,
    match ob_readline ob with
    | Ok line =>
        if String.eqb line "" then
          match ob_poll ob with
          | Some _ => (LBreak, meanwhile ob (snd before))
          | None => clone_loop task_id pid true (env_start env) max_seconds post
                      (meanwhile ob (snd before))
          end
        else
          match _parse_progress line with
          | Some p =>
              match mapped_percent p with
              | Ok mapped =>
                  clone_loop task_id pid true (env_start env) max_seconds post
                    (set_progress task_id "cloning" mapped
                       {[ "stage" := VStr "clone" ]} (meanwhile ob (snd before)))
              | Raise e => (LRaise e, meanwhile ob (snd before))
              end
          | None => clone_loop task_id pid true (env_start env) max_seconds post
                      (meanwhile ob (snd before))
          end
    | Raise e => (LRaise e, meanwhile ob (snd before))
    end = (LReturn "", terminate_and_kill pid
                         (set_canceled task_id "Canceled by user" wx))).
  { unfold clone_goes_on in Hgo.
    destruct (ob_readline ob) as [line|e]; [|discriminate].
    destruct (String.eqb line "").
    - destruct (ob_poll ob); [discriminate|].
      eexists. by apply clone_loop_canceled.
    - destruct (_parse_progress line) as [p|].
      + destruct (mapped_percent p) as [m|e]; [|discriminate].
        eexists. apply clone_loop_canceled.
        by rewrite is_canceled_set_progress.
      + eexists. by apply clone_loop_canceled. }
  destruct Hl as [wx ->]. simpl. eexists. split; [reflexivity|].
  rewrite (get_progress_frame task_id (set_canceled task_id "Canceled by user" wx))
    by reflexivity.
  rewrite !set_canceled_lookup. simpl. do 3 (split; [done|]).
  apply lookup_delete_eq.
Qed.

Lemma clone_canceled_meanwhile_witness :
  ∃ w', interruptible_clone "t1" "https://github.com/acme/widgets" 180 1
          (sample_env [cancel_ob 1001 "Receiving objects:  10% (1/10)"
                         [ExtCancelClone "t1"];
                       sample_ob 1002 "Receiving objects:  20% (2/10)" None] 0)
          empty_world = (Returns "", w')
        ∧ get_progress "t1" w' !! "status" = Some (VStr "canceled")
        ∧ get_progress "t1" w' !! "canceled" = Some (VBool true)
        ∧ get_progress "t1" w' !! "message" = Some (VStr "Canceled by user")
        ∧ procs w' !! "t1" = None.
Proof.
  apply (clone_canceled_meanwhile "t1" "https://github.com/acme/widgets" 180 1
           (sample_env [] 0) empty_world []
           [sample_ob 1002 "Receiving objects:  20% (2/10)" None]
           (cancel_ob 1001 "Receiving objects:  10% (1/10)" [ExtCancelClone "t1"]));
    vm_compute; reflexivity.
Defined.


(** ** The cache directory *)

Lemma get_cached_path_is_dir url w p :
  get_cached_path url w = Ok (Some p) -> fs w !! p = Some Dir.
Proof.
  intros Hp. destruct (get_cached_path_ok _ _ _ Hp) as [k Hk].
  revert Hp. rewrite (get_cached_path_key _ _ _ Hk).
  destruct (path_exists _ w && path_isdir _ w && path_exists _ w) eqn:H;
    [|discriminate].
  intros Hp. injection Hp as <-.
  apply andb_true_iff in H as [H _]. apply andb_true_iff in H as [_ H].
  unfold path_isdir in H.
  by destruct (fs w !! os_path_join CACHE_ROOT k) as [[]|].
Qed.

Lemma invalidate_cache_key url k w :
  _key url = Ok k ->
  ∃ w1, invalidate_cache url w = Ok w1
        ∧ get_cached_path url w1 = Ok None
        ∧ (∀ f, under (os_path_join CACHE_ROOT k) f = false ->
                fs w1 !! f = fs w !! f)
        ∧ (get_cached_path url w = Ok None -> w1 = w)
        ∧ spawn_log w1 = spawn_log w.
Proof.
  intros Hk. unfold invalidate_cache.
  destruct (get_cached_path url w) as [[p|]|e] eqn:Hp.
  - pose proof (get_cached_path_is_dir _ _ _ Hp) as Hd.
    pose proof (get_cached_path_some _ _ _ _ Hk Hp) as ->.
    assert (He : path_exists (os_path_join CACHE_ROOT k) w = true)
      by (unfold path_exists; by rewrite Hd).
    rewrite (cache_path_not_empty _ _ Hk), He. simpl.
    eexists. split; [reflexivity|].
    split; [|split; [|split; [discriminate|reflexivity]]].
    + apply (get_cached_path_not_dir _ _ _ Hk). simpl. apply rmtree_not_dir.
    + intros f Hf. simpl. unfold rmtree. rewrite Hd.
      destruct (fs w !! f) as [x|] eqn:Hx.
      * by apply map_lookup_filter_Some.
      * apply map_lookup_filter_None. by left.
  - exists w. by repeat split.
  - rewrite (get_cached_path_key _ _ _ Hk) in Hp. discriminate.
Qed.

(** X23: [invalidate_cache(url)] raises what [_key(url)] raises; otherwise it
    leaves no valid entry for [url], changes nothing outside the cache
    directory of [url], and changes nothing at all when there was no valid
    entry. *)
Theorem invalidate_cache_removes :
  forall (url : string) (w : World),
    match invalidate_cache url w with
    | Raise e => _key url = Raise e
    | Ok w1 =>
        get_cached_path url w1 = Ok None
        ∧ (∀ k f, _key url = Ok k ->
                  under (os_path_join CACHE_ROOT k) f = false ->
                  fs w1 !! f = fs w !! f)
        ∧ (get_cached_path url w = Ok None -> w1 = w)
    end.
Proof.
  intros url w. destruct (_key url) as [k|e] eqn:Hk.
  - destruct (invalidate_cache_key url k w Hk) as (w1 & -> & H1 & H2 & H3 & _).
    split; [exact H1|]. split; [|exact H3].
    intros k' f Hk'. injection Hk' as <-. apply H2.
  - unfold invalidate_cache, get_cached_path. by rewrite Hk.
Qed.

Lemma cache_start_spawn_log task_id url cache_path depth env w pid w0 :
  cache_start task_id url cache_path depth env w = Some (pid, w0) ->
  spawn_log w0
  = (spawn_log w ++ [["git"; "clone"; "--progress"; ("--depth=" ++ pretty depth)%string;
                      url; cache_path]])%list.
Proof.
  unfold cache_start.
  destruct (makedirs_cache_root _) as [w2|e] eqn:Hmk; [|discriminate].
  destruct (negb (env_which_git env)); [discriminate|].
  destruct (env_popen env); [|discriminate].
  intros H. injection H as _ <-. simpl.
  rewrite (makedirs_spawn_log _ _ Hmk). by destruct (path_exists cache_path w).
Qed.

(** X24: a cache miss, or a refresh, that returns a path has spawned exactly one
    child, [git clone --progress --depth=<depth> <url> <cache directory>]; the
    path is the cache directory of the URL and the record published last is
    cache at 25. *)
Theorem cache_miss_spawns :
  forall (task_id url k : string) (refresh : bool) (timeout depth : Z) (env : Env)
         (w : World) (p : string),
    url_ok url = true ->
    _key url = Ok k ->
    refresh = true ∨ get_cached_path url w = Ok None ->
    let r := ensure_cached_repo task_id url refresh timeout depth env w in
    fst r = Returns p ->
    p <> "" ->
    p = os_path_join CACHE_ROOT k
    ∧ spawn_log (snd r)
      = (spawn_log w ++ [["git"; "clone"; "--progress"; ("--depth=" ++ pretty depth)%string;
                          url; os_path_join CACHE_ROOT k]])%list
    ∧ published task_id "cache" 25 (snd r).
Proof.
  intros task_id url k refresh timeout depth env w p Hu Hk Hc r Hr Hne. subst r.
  destruct (ensure_cached_repo_cases task_id url refresh timeout depth env w)
    as [[Hu' _]|[(_ & e & He & _)|[(_ & -> & q & Hq & _)|(_ & k' & Hk' & _ & Heq)]]].
  { congruence. }
  { congruence. }
  { destruct Hc as [Hc|Hc]; [discriminate|congruence]. }
  rewrite Hk in Hk'. injection Hk' as <-.
  rewrite Heq in *. clear Heq.
  set (cp := os_path_join CACHE_ROOT k) in *.
  destruct (cache_start task_id url cp depth env w) as [[pid w0]|] eqn:Hs.
  - rewrite (clone_into_cache_started _ _ _ _ _ _ _ _ _ Hs) in *.
    pose proof (cache_start_spawn_log _ _ _ _ _ _ _ _ Hs) as Hsp.
    pose proof (cache_loop_spawn_log task_id pid (env_has_stderr env) (env_start env)
                  timeout (env_iters env) w0) as Hls.
    destruct (cache_loop task_id pid (env_has_stderr env) (env_start env) timeout
                (env_iters env) w0) as [[v| |e|] wl] eqn:Hl; simpl in *.
    + apply cache_loop_return in Hl as ->. congruence.
    + destruct (env_wait env) as [code|e].
      * destruct (code =? 0); simpl in *; [|congruence].
        injection Hr as <-. split; [done|]. split; [by rewrite Hls, Hsp|].
        by apply published_set_progress.
      * destruct e; simpl in Hr; congruence.
    + destruct e; simpl in Hr; congruence.
    + discriminate.
  - destruct (clone_into_cache_not_started _ _ _ timeout _ _ _ Hs) as [[Hf _] _].
    rewrite Hf in Hr. congruence.
Qed.

Lemma cache_miss_spawns_witness :
  let r := ensure_cached_repo "t1" "https://github.com/acme/widgets" false 180 1
             (sample_env [clone_begun 1001 "outputs/cache/widgets-efa8d65b";
                          sample_ob 1002 "" (Some 0)] 0) empty_world in
  "outputs/cache/widgets-efa8d65b" = os_path_join CACHE_ROOT "widgets-efa8d65b"
  ∧ spawn_log (snd r)
    = [["git"; "clone"; "--progress"; "--depth=1"; "https://github.com/acme/widgets";
        "outputs/cache/widgets-efa8d65b"]]
  ∧ published "t1" "cache" 25 (snd r).
Proof.
  intros r.
  assert (Hk : _key "https://github.com/acme/widgets" = Ok "widgets-efa8d65b")
    by (vm_compute; reflexivity).
  assert (Hm : get_cached_path "https://github.com/acme/widgets" empty_world = Ok None)
    by (vm_compute; reflexivity).
  assert (Hr : fst r = Returns "outputs/cache/widgets-efa8d65b")
    by (vm_compute; reflexivity).
  destruct (cache_miss_spawns "t1" "https://github.com/acme/widgets"
              "widgets-efa8d65b" false 180 1
              (sample_env [clone_begun 1001 "outputs/cache/widgets-efa8d65b";
                           sample_ob 1002 "" (Some 0)] 0) empty_world
              "outputs/cache/widgets-efa8d65b" eq_refl Hk (or_intror Hm) Hr
              ltac:(discriminate))
    as (H1 & H2 & H3).
  split; [exact H1|]. split; [|exact H3].
  etransitivity; [exact H2|]. vm_compute. reflexivity.
Defined.

(** X25: after [invalidate_cache(url)] has returned, a call of
    [ensure_cached_repo] with [refresh=false] is never a cache hit: it takes
    the clone path, and when it returns a path it has spawned one clone. *)
Theorem invalidate_then_ensure :
  forall (task_id url k : string) (timeout depth : Z) (env : Env) (w w1 : World),
    url_ok url = true ->
    _key url = Ok k ->
    invalidate_cache url w = Ok w1 ->
    let r := ensure_cached_repo task_id url false timeout depth env w1 in
    r = clone_into_cache task_id url (os_path_join CACHE_ROOT k)
          timeout depth env w1
    ∧ ∀ p, fst r = Returns p -> p <> "" ->
           length (spawn_log (snd r)) = S (length (spawn_log w)).
Proof.
  intros task_id url k timeout depth env w w1 Hu Hk Hi r.
  destruct (invalidate_cache_key url k w Hk) as (w1' & Hi' & Hn & _ & _ & Hw).
  rewrite Hi in Hi'. injection Hi' as <-.
  split.
  - unfold r, ensure_cached_repo. unfold url_ok in Hu.
    apply negb_true_iff in Hu. by rewrite Hu, Hk, Hn.
  - intros p Hp Hne.
    destruct (cache_miss_spawns task_id url k false timeout depth env w1 p Hu Hk
                (or_intror Hn) Hp Hne) as (_ & Hsp & _).
    fold r in Hsp. rewrite Hsp, length_app. simpl. rewrite Hw. lia.
Qed.

Lemma invalidate_then_ensure_witness :
  let url := "https://github.com/acme/widgets" in
  ∃ w1, invalidate_cache url (cached_world url) = Ok w1
        ∧ fst (ensure_cached_repo "t1" url false 180 1
                 (sample_env [clone_begun 1001 "outputs/cache/widgets-efa8d65b";
                              sample_ob 1002 "" (Some 0)] 0) w1)
          = Returns "outputs/cache/widgets-efa8d65b"
        ∧ length (spawn_log
                    (snd (ensure_cached_repo "t1" url false 180 1
                            (sample_env [clone_begun 1001 "outputs/cache/widgets-efa8d65b";
                                         sample_ob 1002 "" (Some 0)] 0) w1)))
          = 1%nat.
Proof.
  intros url.
  destruct (invalidate_cache url (cached_world url)) as [w1|e] eqn:Hi;
    [|vm_compute in Hi; discriminate].
  exists w1. split; [reflexivity|].
  assert (Hr : fst (ensure_cached_repo "t1" url false 180 1
                      (sample_env [clone_begun 1001 "outputs/cache/widgets-efa8d65b";
                                   sample_ob 1002 "" (Some 0)] 0) w1)
               = Returns "outputs/cache/widgets-efa8d65b").
  { vm_compute in Hi. injection Hi as <-. vm_compute. reflexivity. }
  split; [exact Hr|].
  assert (Hk : _key url = Ok "widgets-efa8d65b") by (vm_compute; reflexivity).
  exact (proj2 (invalidate_then_ensure "t1" url "widgets-efa8d65b" 180 1
                  (sample_env [clone_begun 1001 "outputs/cache/widgets-efa8d65b";
                               sample_ob 1002 "" (Some 0)] 0)
                  (cached_world url) w1 eq_refl Hk Hi)
           "outputs/cache/widgets-efa8d65b" Hr ltac:(discriminate)).
Defined.


(** ** The supervising loop of the cache *)

(** X26: when the loop of [ensure_cached_repo], still running after [pre], finds
    at its next check the elapsed time above [timeout], the call returns the
    empty string and the record published last has status timeout, percent 100
    and the message "Cache clone timed out". *)
Theorem cache_timeout :
  forall (task_id url : string) (refresh : bool) (timeout depth : Z) (env : Env)
         (w : World) (pre post : list iter_obs) (ob : iter_obs),
    let before :=
      ensure_cached_repo task_id url refresh timeout depth (with_iters pre env) w in
    fst before = Running ->
    timed_out (env_start env) (ob_now ob) timeout = true ->
    ∃ w', ensure_cached_repo task_id url refresh timeout depth
            (with_iters (pre ++ ob :: post) env) w = (Returns "", w')
          ∧ published task_id "timeout" 100 w'
          ∧ get_progress task_id w' !! "message" = Some (VStr "Cache clone timed out").
Proof.
  intros task_id url refresh timeout depth env w pre post ob before Hrun Ht.
  pose proof (ensure_cached_repo_running_not_canceled _ _ _ _ _ _ _ _ Hrun) as Hc.
  fold before in Hc.
  destruct (ensure_cached_repo_resume _ _ _ _ _ _ _ _ (ob :: post) Hrun)
    as (pid & k & Hk & ->).
  fold before. simpl. rewrite Hc, Ht. simpl.
  eexists. split; [reflexivity|]. split.
  - eapply published_frame; [reflexivity..|]. by apply published_set_progress.
  - rewrite (get_progress_frame task_id
               (set_progress task_id "timeout" 100
                  {[ "message" := VStr "Cache clone timed out" ]} (snd before)))
      by reflexivity.
    by rewrite set_progress_lookup.
Qed.

Lemma cache_timeout_witness :
  ∃ w', ensure_cached_repo "t1" "https://github.com/acme/widgets" false 180 1
          (sample_env [sample_ob 1001 "Cloning into 'widgets'..." None;
                       sample_ob 1181.5 "" None] 0) empty_world = (Returns "", w')
        ∧ published "t1" "timeout" 100 w'
        ∧ get_progress "t1" w' !! "message" = Some (VStr "Cache clone timed out").
Proof.
  apply (cache_timeout "t1" "https://github.com/acme/widgets" false 180 1
           (sample_env [] 0) empty_world
           [sample_ob 1001 "Cloning into 'widgets'..." None] []
           (sample_ob 1181.5 "" None)); vm_compute; reflexivity.
Defined.

(** X27: when the loop of [ensure_cached_repo], still running after [pre] and
    not timed out, reads the end of the diagnostic stream of a child that has
    exited with [code]: for [code = 0] the call publishes cache at 25 and
    returns the cache directory of the URL; otherwise it returns the empty
    string and publishes error with the message "git clone failed: <code>" and,
    under "stderr", the last five lines of what the child still had to say. *)
Theorem cache_exit_code :
  forall (task_id url : string) (refresh : bool) (timeout depth : Z) (env : Env)
         (w : World) (pre post : list iter_obs) (ob : iter_obs) (code : Z),
    let before :=
      ensure_cached_repo task_id url refresh timeout depth (with_iters pre env) w in
    fst before = Running ->
    timed_out (env_start env) (ob_now ob) timeout = false ->
    env_has_stderr env = true ->
    ob_readline ob = Ok "" ->
    is_Some (ob_poll ob) ->
    env_wait env = Ok code ->
    ∃ r w', ensure_cached_repo task_id url refresh timeout depth
              (with_iters (pre ++ ob :: post) env) w = (Returns r, w')
            ∧ if code =? 0
              then (∃ k, _key url = Ok k ∧ r = os_path_join CACHE_ROOT k)
                   ∧ published task_id "cache" 25 w'
              else r = ""
                   ∧ published task_id "error" 100 w'
                   ∧ get_progress task_id w' !! "message"
                     = Some (VStr ("git clone failed: " ++ pretty code))
                   ∧ get_progress task_id w' !! "stderr"
                     = Some (VList (last5 (match env_communicate env with
                                           | Ok lines => lines
                                           | Raise _ => []
                                           end))).
Proof.
  intros task_id url refresh timeout depth env w pre post ob code before
         Hrun Ht Hs Hline [c Hpoll] Hwait.
  pose proof (ensure_cached_repo_running_not_canceled _ _ _ _ _ _ _ _ Hrun) as Hc.
  fold before in Hc.
  destruct (ensure_cached_repo_resume _ _ _ _ _ _ _ _ (ob :: post) Hrun)
    as (pid & k & Hk & ->).
  fold before. simpl. rewrite Hc, Ht, Hs, Hline, Hpoll. simpl. rewrite Hwait.
  destruct (code =? 0) eqn:Hcode; do 2 eexists; (split; [reflexivity|]).
  - split; [by exists k|]. by apply published_set_progress.
  - split; [done|]. split; [by apply published_set_progress|].
    by rewrite !set_progress_lookup.
Qed.

Lemma cache_exit_code_witness :
  ∃ r w', ensure_cached_repo "t1" "https://github.com/acme/widgets" false 180 1
            {| env_gettempdir := Ok "/tmp"; env_tempname := "k3x9_q2a";
               env_which_git := true; env_popen := Ok 4242%nat; env_start := 1000;
               env_has_stderr := true;
               env_iters := [sample_ob 1002 "" (Some 128)];
               env_wait := Ok 128;
               env_communicate := Ok ["a"; "b"; "c"; "d"; "e"; "f"] |}
            empty_world = (Returns r, w')
          ∧ r = ""
          ∧ published "t1" "error" 100 w'
          ∧ get_progress "t1" w' !! "message"
            = Some (VStr ("git clone failed: " ++ pretty 128))
          ∧ get_progress "t1" w' !! "stderr"
            = Some (VList (last5 ["a"; "b"; "c"; "d"; "e"; "f"])).
Proof.
  apply (cache_exit_code "t1" "https://github.com/acme/widgets" false 180 1
           {| env_gettempdir := Ok "/tmp"; env_tempname := "k3x9_q2a";
              env_which_git := true; env_popen := Ok 4242%nat; env_start := 1000;
              env_has_stderr := true; env_iters := [];
              env_wait := Ok 128;
              env_communicate := Ok ["a"; "b"; "c"; "d"; "e"; "f"] |}
           empty_world [] [] (sample_ob 1002 "" (Some 128)) 128);
    vm_compute; eauto.
Defined.

(** X28: a cancellation during a cached clone: when another context calls
    [set_canceled(id, ...)] or [cancel_clone(id)] while the loop of
    [ensure_cached_repo], still running after [pre], waits for a line, and the
    loop goes on after that line, the next check ends the call with the empty
    string and a canceled record whose message is "Canceled during cache". *)
Theorem cache_canceled_meanwhile :
  forall (task_id url : string) (refresh : bool) (timeout depth : Z) (env : Env)
         (w : World) (pre post : list iter_obs) (ob : iter_obs),
    let before :=
      ensure_cached_repo task_id url refresh timeout depth (with_iters pre env) w in
    fst before = Running ->
    timed_out (env_start env) (ob_now ob) timeout = false ->
    env_has_stderr env = true ->
    cache_goes_on ob = true ->
    existsb (cancels task_id) (ob_others ob) = true ->
    ∃ w', ensure_cached_repo task_id url refresh timeout depth
            (with_iters (pre ++ ob :: post) env) w = (Returns "", w')
          ∧ get_progress task_id w' !! "status" = Some (VStr "canceled")
          ∧ get_progress task_id w' !! "canceled" = Some (VBool true)
          ∧ get_progress task_id w' !! "message"
            = Some (VStr "Canceled during cache").
Proof.
  intros task_id url refresh timeout depth env w pre post ob before Hrun Ht Hs Hgo Hc.
  pose proof (ensure_cached_repo_running_not_canceled _ _ _ _ _ _ _ _ Hrun) as Hnc.
  fold before in Hnc.
  destruct (ensure_cached_repo_resume _ _ _ _ _ _ _ _ (ob :: post) Hrun)
    as (pid & k & Hk & ->).
  fold before. simpl. rewrite Hnc, Ht, Hs. simpl.
  pose proof (is_canceled_meanwhile task_id ob (snd before) Hc) as Hm.
  assert (Hl :
    match ob_readline ob with
    | Ok line =>
        if String.eqb line "" then
          match ob_poll ob with
          | Some _ => (LBreak, meanwhile ob (snd before))
          | None => cache_loop task_id pid true (env_start env) timeout post
                      (meanwhile ob (snd before))
          end
        else cache_loop task_id pid true (env_start env) timeout post
               (meanwhile ob (snd before))
    | Raise e => (LRaise e, meanwhile ob (snd before))
    end = (LReturn "", terminate_and_kill pid
                         (set_canceled task_id "Canceled during cache"
                            (meanwhile ob (snd before))))).
  { unfold cache_goes_on in Hgo.
    destruct (ob_readline ob) as [line|e]; [|discriminate].
    destruct (String.eqb line "").
    - destruct (ob_poll ob); [discriminate|]. by apply cache_loop_canceled.
    - by apply cache_loop_canceled. }
  rewrite Hl. simpl. eexists. split; [reflexivity|].
  rewrite (get_progress_frame task_id
             (set_canceled task_id "Canceled during cache" (meanwhile ob (snd before))))
    by reflexivity.
  rewrite !set_canceled_lookup. simpl. done.
Qed.

Lemma cache_canceled_meanwhile_witness :
  ∃ w', ensure_cached_repo "t1" "https://github.com/acme/widgets" false 180 1
          (sample_env [cancel_ob 1001 "Cloning into 'widgets'..."
                         [ExtCancelClone "t1"];
                       sample_ob 1002 "Receiving objects:  20% (2/10)" None] 0)
          empty_world = (Returns "", w')
        ∧ get_progress "t1" w' !! "status" = Some (VStr "canceled")
        ∧ get_progress "t1" w' !! "canceled" = Some (VBool true)
        ∧ get_progress "t1" w' !! "message" = Some (VStr "Canceled during cache").
Proof.
  apply (cache_canceled_meanwhile "t1" "https://github.com/acme/widgets" false 180 1
           (sample_env [] 0) empty_world []
           [sample_ob 1002 "Receiving objects:  20% (2/10)" None]
           (cancel_ob 1001 "Cloning into 'widgets'..." [ExtCancelClone "t1"]));
    vm_compute; reflexivity.
Defined.


(** ** Progress lines *)

Lemma startswith_app a b : startswith a (a ++ b) = true.
Proof. induction a as [|c a IH]; simpl; [done|]. by rewrite Ascii.eqb_refl. Qed.

Lemma drop_chars_app a b : drop_chars (String.length a) (a ++ b) = b.
Proof. induction a as [|c a IH]; simpl; [by destruct b|exact IH]. Qed.

Lemma digit_not_space c : is_digit c = true -> is_space c = false.
Proof.
  unfold is_digit, is_space. intros H.
  apply andb_true_iff in H as [H1 H2]. apply Z.leb_le in H1, H2.
  apply orb_false_iff. split; apply andb_false_iff; right; apply Z.leb_gt; lia.
Qed.

Lemma drop_while_spaces sp ds t :
  all_chars is_space sp = true -> all_chars is_digit ds = true -> ds <> "" ->
  drop_while is_space (sp ++ ds ++ t) = ds ++ t.
Proof.
  intros Hsp Hds Hne. induction sp as [|c sp IH]; simpl in *.
  - destruct ds as [|d ds]; [done|]. simpl in *.
    apply andb_true_iff in Hds as [Hd _]. by rewrite (digit_not_space _ Hd).
  - apply andb_true_iff in Hsp as [Hc Hsp]. rewrite Hc. by apply IH.
Qed.

Lemma take_while_digits_app ds t :
  all_chars is_digit ds = true ->
  take_while is_digit (ds ++ "%" ++ t) = ds
  ∧ drop_while is_digit (ds ++ "%" ++ t) = "%" ++ t.
Proof.
  intros H. induction ds as [|d ds IH]; simpl in *; [done|].
  apply andb_true_iff in H as [Hd H]. rewrite Hd.
  destruct (IH H) as [-> ->]. done.
Qed.

Lemma match_here_marked label sp ds rest :
  all_chars is_space sp = true -> sp <> "" ->
  all_chars is_digit ds = true -> ds <> "" ->
  match_here label (label ++ sp ++ ds ++ "%" ++ rest) = Some ds.
Proof.
  intros Hsp Hspne Hds Hdsne. unfold match_here.
  rewrite startswith_app, drop_chars_app.
  rewrite (drop_while_spaces sp ds ("%" ++ rest)) by done.
  destruct (take_while_digits_app ds rest Hds) as [-> ->].
  assert (Hlen : (String.length (ds ++ "%" ++ rest)
                  <? String.length (sp ++ ds ++ "%" ++ rest))%nat = true).
  { apply Nat.ltb_lt. rewrite (string_length_app sp).
    destruct sp; [done|simpl; lia]. }
  rewrite Hlen. simpl.
  destruct (String.eqb_spec ds ""); [done|reflexivity].
Qed.

Lemma search_marked label sp ds rest :
  all_chars is_space sp = true -> sp <> "" ->
  all_chars is_digit ds = true -> ds <> "" ->
  search label (label ++ sp ++ ds ++ "%" ++ rest) = Some ds.
Proof.
  intros Hsp Hspne Hds Hdsne.
  pose proof (match_here_marked label sp ds rest Hsp Hspne Hds Hdsne) as H.
  destruct (label ++ sp ++ ds ++ "%" ++ rest); simpl; by rewrite H.
Qed.

Lemma search_unmarked label line :
  contains label line = false -> search label line = None.
Proof.
  induction line as [|c line IH]; simpl; intros H;
    apply orb_false_iff in H as [H1 H2]; unfold match_here.
  - by rewrite H1.
  - rewrite H1. by apply IH.
Qed.

(** X29: a line that begins with one of the three markers, then white space, a
    run of digits and a percent sign yields the number the digits spell,
    provided no marker that is tried earlier occurs in the line. *)
Theorem parse_progress_marked :
  forall (label sp ds rest : string),
    all_chars is_space sp = true -> sp <> "" ->
    all_chars is_digit ds = true -> ds <> "" ->
    let line := label ++ sp ++ ds ++ "%" ++ rest in
    label = RECV
    ∨ (label = RESV ∧ contains RECV line = false)
    ∨ (label = CHK ∧ contains RECV line = false ∧ contains RESV line = false) ->
    _parse_progress line = int_of_digits ds.
Proof.
  intros label sp ds rest Hsp Hspne Hds Hdsne line Hl.
  pose proof (search_marked label sp ds rest Hsp Hspne Hds Hdsne) as Hs.
  fold line in Hs. unfold _parse_progress.
  destruct Hl as [-> | [[-> H1] | (-> & H1 & H2)]].
  - by rewrite Hs.
  - by rewrite (search_unmarked _ _ H1), Hs.
  - by rewrite (search_unmarked _ _ H1), (search_unmarked _ _ H2), Hs.
Qed.

Lemma parse_progress_marked_witness :
  _parse_progress ("Resolving deltas:" ++ "   " ++ "075" ++ "%" ++ " (3/4)")
  = int_of_digits "075"
  ∧ int_of_digits "075" = Some 75.
Proof.
  split; [|reflexivity].
  apply (parse_progress_marked "Resolving deltas:" "   " "075" " (3/4)");
    try reflexivity; try discriminate.
  right. left. split; reflexivity.
Defined.

(** X30: a line in which none of the three markers occurs yields nothing, so
    that the loop publishes no percent for it. *)
Theorem parse_progress_unmarked :
  forall line : string,
    contains RECV line = false ->
    contains RESV line = false ->
    contains CHK line = false ->
    _parse_progress line = None.
Proof.
  intros line H1 H2 H3. unfold _parse_progress.
  by rewrite (search_unmarked _ _ H1), (search_unmarked _ _ H2),
             (search_unmarked _ _ H3).
Qed.

Lemma parse_progress_unmarked_witness :
  _parse_progress "remote: Compressing objects: 100% (9/9), done." = None.
Proof.
  apply (parse_progress_unmarked "remote: Compressing objects: 100% (9/9), done.");
    reflexivity.
Defined.
